(** * Salford theme asset build script ([build_assets.py])

    A shallow embedding of the build script and the properties its
    specification states about it.

    The script is I/O orchestration: every operation reads and writes a
    directory tree below [BASE_DIR], prints to the console, and (in build
    mode) calls three optional collaborators.  The embedding therefore has

    - a tree model of the files below [BASE_DIR] ([node]), with the Python
      library calls the script makes ([Path.mkdir], [shutil.copy2],
      [shutil.rmtree], [shutil.copytree], [open], [Path.iterdir]) as
      functions that return either an exception or the new tree;
    - a state-and-exception monad [M] over a [World] (tree, console, call
      trace);
    - the script's functions, one definition each, under their own names.

    What the model leaves out: permissions, symbolic links and special
    files; file metadata other than the modification time the watcher
    polls, which the outside world reports poll by poll; hosts whose
    line separator is not LF.  The interrupt (Ctrl+C) arrives while the
    watcher is in its loop. *)

From Stdlib Require Import String Ascii List ZArith Bool Lia DecimalString.
Import ListNotations.
Set Warnings "-register-all".

Open Scope string_scope.
Open Scope list_scope.

(** ** Exceptions *)

(** The Python exceptions the library calls of the script can raise.
    [ExternalError] stands for whatever a collaborator raises on its own
    account (a [sass.CompileError], a database error, a [CommandError]). *)
Inductive exn : Type :=
| FileExistsError
| FileNotFoundError
| NotADirectoryError
| IsADirectoryError
| UnicodeDecodeError
| NameError
| KeyboardInterrupt
| ExternalError (what : string).

Definition is_KeyboardInterrupt (e : exn) : bool :=
  match e with KeyboardInterrupt => true | _ => false end.

(** ** The directory tree below [BASE_DIR] *)

(** A regular file holds its bytes; a directory holds its entries in the
    order in which the directory is iterated ([Path.iterdir], [os.scandir]).
    Permissions, symbolic links and special files are not modelled. *)
Inductive node : Type :=
| File (data : string)
| Dir (entries : list (string * node)).

Definition entries : Type := list (string * node).

(** A path relative to [BASE_DIR], as its components. *)
Definition path : Type := list string.

Fixpoint get_entry (x : string) (es : entries) : option node :=
  match es with
  | [] => None
  | (y, n) :: es' => if String.eqb x y then Some n else get_entry x es'
  end.

(** Replace the entry named [x], or add it at the end. *)
Fixpoint set_entry (x : string) (n : node) (es : entries) : entries :=
  match es with
  | [] => [(x, n)]
  | (y, m) :: es' =>
      if String.eqb x y then (y, n) :: es' else (y, m) :: set_entry x n es'
  end.

Definition del_entry (x : string) (es : entries) : entries :=
  filter (fun e => negb (String.eqb x (fst e))) es.

Fixpoint lookup (p : path) (n : node) : option node :=
  match p with
  | [] => Some n
  | x :: p' =>
      match n with
      | Dir es => match get_entry x es with
                  | Some c => lookup p' c
                  | None => None
                  end
      | File _ => None
      end
  end.

(** Path resolution as the operating system reports it: a missing
    component is [ENOENT], a regular file in the middle is [ENOTDIR]. *)
Fixpoint resolve (p : path) (n : node) : exn + node :=
  match p with
  | [] => inr n
  | x :: p' =>
      match n with
      | Dir es => match get_entry x es with
                  | Some c => resolve p' c
                  | None => inl FileNotFoundError
                  end
      | File _ => inl NotADirectoryError
      end
  end.

Definition is_some {A : Type} (o : option A) : bool :=
  match o with Some _ => true | None => false end.

(** [Path.exists()]: true for a file and for a directory. *)
Definition path_exists (p : path) (n : node) : bool := is_some (lookup p n).

Definition is_dir (p : path) (n : node) : bool :=
  match lookup p n with Some (Dir _) => true | _ => false end.

Definition is_file (p : path) (n : node) : bool :=
  match lookup p n with Some (File _) => true | _ => false end.

Definition map_inr {E A B : Type} (f : A -> B) (r : E + A) : E + B :=
  match r with inl e => inl e | inr a => inr (f a) end.

(** One step into a directory: [f] receives the entry named [x] (if any)
    and answers with the entry to store ([Some]), or [None] to unlink it. *)
Definition at_entry (x : string) (f : option node -> exn + option node)
    (n : node) : exn + node :=
  match n with
  | File _ => inl NotADirectoryError
  | Dir es =>
      match f (get_entry x es) with
      | inl e => inl e
      | inr (Some c) => inr (Dir (set_entry x c es))
      | inr None => inr (Dir (del_entry x es))
      end
  end.

(** The chain of empty directories [p] names. *)
Fixpoint fresh_dirs (p : path) : node :=
  match p with
  | [] => Dir []
  | x :: p' => Dir [(x, fresh_dirs p')]
  end.

(** [Path.mkdir(parents=True, exist_ok=True)] and [os.makedirs]: every
    missing directory on the way is created; a directory that is already
    there is left alone; a regular file at the path itself is
    [FileExistsError], a regular file above it [NotADirectoryError]. *)
Fixpoint mkdir_p (p : path) (n : node) : exn + node :=
  match p with
  | [] => match n with
          | Dir _ => inr n
          | File _ => inl FileExistsError
          end
  | x :: p' =>
      at_entry x
        (fun oc => match oc with
                   | Some c => map_inr Some (mkdir_p p' c)
                   | None => inr (Some (fresh_dirs p'))
                   end) n
  end.

(** Store [v] at [p]; the parent of [p] must be an existing directory. *)
Fixpoint put (p : path) (v : node) (n : node) : exn + node :=
  match p with
  | [] => inr v
  | x :: p' =>
      at_entry x
        (fun oc => match oc with
                   | Some c => map_inr Some (put p' v c)
                   | None => match p' with
                             | [] => inr (Some v)
                             | _ :: _ => inl FileNotFoundError
                             end
                   end) n
  end.

(** Unlink the entry [p] names (with everything below it). *)
Fixpoint remove (p : path) (n : node) : exn + node :=
  match p with
  | [] => inl IsADirectoryError
  | x :: p' =>
      at_entry x
        (fun oc => match oc with
                   | None => inl FileNotFoundError
                   | Some c => match p' with
                               | [] => inr None
                               | _ :: _ => map_inr Some (remove p' c)
                               end
                   end) n
  end.

(** [open(p, "wb")] followed by one write and close: the file is created
    or truncated; a directory at [p] is [IsADirectoryError]. *)
Definition write_bytes (p : path) (d : string) (n : node) : exn + node :=
  match lookup p n with
  | Some (Dir _) => inl IsADirectoryError
  | _ => put p (File d) n
  end.

(** [f.write(s)] on a file opened for writing at [p]: the text goes to the
    end of the file. *)
Definition append_bytes (p : path) (d : string) (n : node) : exn + node :=
  match lookup p n with
  | Some (File d0) => put p (File (d0 ++ d)) n
  | _ => inr n
  end.

(** [open(p, "rb").read()]. *)
Definition read_bytes (p : path) (n : node) : exn + string :=
  match resolve p n with
  | inl e => inl e
  | inr (Dir _) => inl IsADirectoryError
  | inr (File d) => inr d
  end.

Definition basename (p : path) : string := last p EmptyString.

(** [shutil.copy2(src, dst)]: when [dst] is a directory the file is copied
    into it under the base name of [src]; the source is opened first. *)
Definition copy2 (src dst : path) (n : node) : exn + node :=
  let dst' := if is_dir dst n then dst ++ [basename src] else dst in
  match read_bytes src n with
  | inl e => inl e
  | inr d => write_bytes dst' d n
  end.

(** [shutil.rmtree(p)]. *)
Definition rmtree (p : path) (n : node) : exn + node :=
  match resolve p n with
  | inl e => inl e
  | inr (File _) => inl NotADirectoryError
  | inr (Dir _) => remove p n
  end.

(** [shutil.copytree(src, dst)]: the source is listed first, then
    [os.makedirs(dst)] (which refuses an existing [dst]) and the copy of
    every entry, in the order of the listing. *)
Definition copytree (src dst : path) (n : node) : exn + node :=
  match resolve src n with
  | inl e => inl e
  | inr (File _) => inl NotADirectoryError
  | inr (Dir es) =>
      match lookup dst n with
      | Some _ => inl FileExistsError
      | None =>
          match mkdir_p dst n with
          | inl e => inl e
          | inr n1 => put dst (Dir es) n1
          end
      end
  end.

(** [Path.iterdir()]: the names of the entries, in iteration order. *)
Definition iterdir (p : path) (n : node) : exn + list string :=
  match resolve p n with
  | inl e => inl e
  | inr (File _) => inl NotADirectoryError
  | inr (Dir es) => inr (map fst es)
  end.

(** ** Text mode *)

(** The script opens text files with [encoding="utf-8"] and the default
    newline handling.  A Python [str] is represented by its UTF-8 bytes.
    Reading decodes strictly (a byte sequence that is not well-formed
    UTF-8 raises [UnicodeDecodeError]) and translates the line endings
    CR LF and CR to LF; writing on a POSIX host stores the UTF-8 bytes as
    they are. *)

Inductive utf8_state : Type :=
| U_start
| U_cont (more : nat) (lo hi : N).

(** One byte of the well-formed UTF-8 table (Unicode, table 3-7). *)
Definition utf8_step (st : utf8_state) (b : N) : option utf8_state :=
  match st with
  | U_start =>
      if (b <? 128)%N then Some U_start
      else if (194 <=? b)%N && (b <=? 223)%N then Some (U_cont 0 128 191)
      else if (b =? 224)%N then Some (U_cont 1 160 191)
      else if (b =? 237)%N then Some (U_cont 1 128 159)
      else if (225 <=? b)%N && (b <=? 239)%N then Some (U_cont 1 128 191)
      else if (b =? 240)%N then Some (U_cont 2 144 191)
      else if (b =? 244)%N then Some (U_cont 2 128 143)
      else if (241 <=? b)%N && (b <=? 243)%N then Some (U_cont 2 128 191)
      else None
  | U_cont more lo hi =>
      if (lo <=? b)%N && (b <=? hi)%N then
        match more with
        | O => Some U_start
        | S m => Some (U_cont m 128 191)
        end
      else None
  end.

Fixpoint utf8_run (st : utf8_state) (s : string) : bool :=
  match s with
  | EmptyString => match st with U_start => true | U_cont _ _ _ => false end
  | String c s' =>
      match utf8_step st (N_of_ascii c) with
      | Some st' => utf8_run st' s'
      | None => false
      end
  end.

Definition valid_utf8 (s : string) : bool := utf8_run U_start s.

Definition CR : ascii := ascii_of_nat 13.
Definition LF : ascii := ascii_of_nat 10.

(** Universal newlines on input. *)
Fixpoint universal_newlines (s : string) : string :=
  match s with
  | EmptyString => EmptyString
  | String c s' =>
      if Ascii.eqb c CR then
        match s' with
        | String c2 s'' =>
            if Ascii.eqb c2 LF then String LF (universal_newlines s'')
            else String LF (universal_newlines s')
        | EmptyString => String LF EmptyString
        end
      else String c (universal_newlines s')
  end.

(** [open(p, "r", encoding="utf-8").read()]. *)
Definition read_text (p : path) (n : node) : exn + string :=
  match read_bytes p n with
  | inl e => inl e
  | inr d => if valid_utf8 d then inr (universal_newlines d)
             else inl UnicodeDecodeError
  end.

(** [open(p, "w", encoding="utf-8")]: the file is created or truncated. *)
Definition open_w (p : path) (n : node) : exn + node :=
  write_bytes p EmptyString n.

(** [with open(p, "w", encoding="utf-8") as f: f.write(s)]. *)
Definition write_text (p : path) (s : string) (n : node) : exn + node :=
  write_bytes p s n.

(** ** Paths as text *)

Fixpoint ends_with_slash (s : string) : bool :=
  match s with
  | EmptyString => false
  | String c EmptyString => Ascii.eqb c "/"%char
  | String _ s' => ends_with_slash s'
  end.

(** [str(base / p)]: the components joined by slashes.  The base ["."]
    (the current directory) leaves no trace in front of a component:
    [str(Path(".") / "static")] is ["static"]. *)
Definition str_path (base : string) (p : path) : string :=
  match p with
  | [] => base
  | c :: p' =>
      fold_left
        (fun acc c =>
           if ends_with_slash acc then acc ++ c else acc ++ "/" ++ c)%string
        p'
        (if String.eqb base "." then c
         else if ends_with_slash base then base ++ c
         else base ++ "/" ++ c)%string
  end.

(** The index of the last ["."] of [s], counted from [i]. *)
Fixpoint rfind_dot (s : string) (i : nat) (found : option nat) : option nat :=
  match s with
  | EmptyString => found
  | String c s' =>
      rfind_dot s' (S i) (if Ascii.eqb c "."%char then Some i else found)
  end.

(** [PurePath.suffix] of a file name: the part from the last dot on,
    unless that dot is the first or the last character. *)
Definition suffix (name : string) : string :=
  match rfind_dot name 0 None with
  | Some i =>
      if (0 <? i)%nat && (i <? String.length name - 1)%nat
      then substring i (String.length name - i) name
      else EmptyString
  | None => EmptyString
  end.

(** [str] of a Python [int]. *)
Definition str_int (z : Z) : string := NilZero.string_of_int (Z.to_int z).

(** ** The collaborators and the world *)

(** A tenant record of the data layer. *)
Record Journal : Type := { id : Z; name : string }.

(** What the three [try: import ...] blocks at the top of the script
    found.  A collaborator that failed to import is absent ([None]): its
    names are unbound, and a use of them would raise [NameError].

    - [sass.compile(filename, include_paths)] reads the tree and returns
      the CSS text, or raises;
    - [journal_models.Journal.objects.all()] returns the tenant records,
      or raises;
    - [call_command("collectstatic", "--noinput")] changes the tree, or
      raises.

    What a collaborator raises is its own business: the left summand is
    the message, and the exception is [ExternalError] of it. *)
Record Django : Type := {
  journals_all : string + list Journal;
  collectstatic : node -> string + node
}.

Record Env : Type := {
  BASE_DIR : string;
  sass : option (node -> string -> list string -> string + string);
  jsmin : bool;
  django : option Django
}.

Definition external {A : Type} (r : string + A) : exn + A :=
  match r with
  | inl what => inl (ExternalError what)
  | inr a => inr a
  end.

Definition SASS_AVAILABLE (env : Env) : bool := is_some (sass env).
Definition JSMIN_AVAILABLE (env : Env) : bool := jsmin env.
Definition DJANGO_AVAILABLE (env : Env) : bool := is_some (django env).

(** The calls a run makes, in program order: the entry of each function of
    the script, and each call to a collaborator or to the polling
    primitives.  The trace is an observation; nothing reads it. *)
Inductive call : Type :=
| c_copy_css_assets
| c_copy_all_assets
| c_watch_and_copy
| c_process_scss
| c_process_js
| c_process_journals
| c_create_paths
| c_build_full
| c_build_simple
| c_show_help
| c_stat
| c_sleep
| c_sass_compile (filename : string)
| c_journals_all
| c_collectstatic.

Record World : Type := {
  fs : node;
  out : list string;
  calls : list call
}.

(** ** The monad *)

Inductive Res (A : Type) : Type :=
| Ok (a : A) (w : World)
| Raise (e : exn) (w : World).
Arguments Ok {A} a w.
Arguments Raise {A} e w.

Definition M (A : Type) : Type := World -> Res A.

Definition ret {A : Type} (a : A) : M A := fun w => Ok a w.

Definition bind {A B : Type} (m : M A) (k : A -> M B) : M B :=
  fun w => match m w with
           | Ok a w' => k a w'
           | Raise e w' => Raise e w'
           end.

Definition raise {A : Type} (e : exn) : M A := fun w => Raise e w.

(** [try: m except KeyboardInterrupt: h]. *)
Definition try_except_KeyboardInterrupt {A : Type} (m h : M A) : M A :=
  fun w => match m w with
           | Ok a w' => Ok a w'
           | Raise e w' => if is_KeyboardInterrupt e then h w' else Raise e w'
           end.

Declare Scope M_scope.
Delimit Scope M_scope with M.
Notation "x <- m ;; k" := (bind m (fun x => k))
  (at level 61, m at next level, right associativity) : M_scope.
Notation "m ;; k" := (bind m (fun _ => k))
  (at level 61, right associativity) : M_scope.
Open Scope M_scope.

Definition print (s : string) : M unit :=
  fun w => Ok tt {| fs := fs w; out := out w ++ [s]; calls := calls w |}.

Definition trace (c : call) : M unit :=
  fun w => Ok tt {| fs := fs w; out := out w; calls := calls w ++ [c] |}.

(** A library call that changes the tree or raises. *)
Definition fs_op (f : node -> exn + node) : M unit :=
  fun w => match f (fs w) with
           | inl e => Raise e w
           | inr n => Ok tt {| fs := n; out := out w; calls := calls w |}
           end.

(** A library call that reads the tree or raises. *)
Definition fs_read {A : Type} (f : node -> exn + A) : M A :=
  fun w => match f (fs w) with
           | inl e => Raise e w
           | inr a => Ok a w
           end.

Definition world_of {A : Type} (r : Res A) : World :=
  match r with Ok _ w => w | Raise _ w => w end.

Definition exists_ (p : path) : M bool :=
  fun w => Ok (path_exists p (fs w)) w.

(** [for x in l: body(x)]. *)
Fixpoint for_each {A : Type} (l : list A) (body : A -> M unit) : M unit :=
  match l with
  | [] => ret tt
  | x :: l' => body x ;; for_each l' body
  end.

(** [sass.compile(filename=..., include_paths=...)]. *)
Definition sass_compile (env : Env) (filename : string)
    (include_paths : list string) : M string :=
  match sass env with
  | None => raise NameError
  | Some compile =>
      trace (c_sass_compile filename) ;;
      fs_read (fun n => external (compile n filename include_paths))
  end.

(** [journal_models.Journal.objects.all()], evaluated. *)
Definition Journal_objects_all (env : Env) : M (list Journal) :=
  match django env with
  | None => raise NameError
  | Some dj =>
      trace c_journals_all ;; fs_read (fun _ => external (journals_all dj))
  end.

(** [call_command("collectstatic", "--noinput")]. *)
Definition call_command_collectstatic (env : Env) : M unit :=
  match django env with
  | None => raise NameError
  | Some dj =>
      trace c_collectstatic ;; fs_op (fun n => external (collectstatic dj n))
  end.

(** ** The script *)

Section Script.

Variable env : Env.

Definition str (p : path) : string := str_path (BASE_DIR env) p.

Definition copy_css_assets : M bool :=
  let source_css := ["themes"; "salford"; "assets"; "css"; "salford.css"] in
  let dest_dir := ["static"; "salford"; "css"] in
  let dest_css := dest_dir ++ ["salford.css"] in
  trace c_copy_css_assets ;;
  fs_op (mkdir_p dest_dir) ;;
  found <- exists_ source_css ;;
  if found then
    fs_op (copy2 source_css dest_css) ;;
    print ("✅ Copied " ++ str source_css ++ " to " ++ str dest_css) ;;
    ret true
  else
    print ("❌ Source CSS file not found: " ++ str source_css) ;;
    ret false.

Definition copy_all_assets : M bool :=
  let source_dir := ["themes"; "salford"; "assets"] in
  let dest_dir := ["static"; "salford"] in
  trace c_copy_all_assets ;;
  found <- exists_ source_dir ;;
  if found then
    stale <- exists_ dest_dir ;;
    (if stale then fs_op (rmtree dest_dir) else ret tt) ;;
    fs_op (copytree source_dir dest_dir) ;;
    print ("✅ Copied all assets from " ++ str source_dir ++ " to "
             ++ str dest_dir) ;;
    ret true
  else
    print ("❌ Source assets directory not found: " ++ str source_dir) ;;
    ret false.

(** One poll of the watcher, as the outside world presents it: the
    modification time [stat] reports for the watched file (a finite
    float, here by its rank in the order of floats), what
    [time.strftime] returns, and what happens to the tree during the
    sleep that follows. *)
Record tick : Type := {
  edit : node -> node;
  st_mtime : Z;
  strftime : string
}.

(** [source_css.stat().st_mtime]. *)
Definition stat_st_mtime (p : path) (observed : Z) : M Z :=
  trace c_stat ;;
  fs_read (fun n => match resolve p n with
                    | inl e => inl e
                    | inr _ => inr observed
                    end).

(** [time.sleep(1)]: the world moves on. *)
Definition sleep (world_edit : node -> node) : M unit :=
  trace c_sleep ;;
  fs_op (fun n => inr (world_edit n)).

(** The [while True] loop of [watch_and_copy].  The [k]-th element of
    [ticks] is the world's account of the [k]-th iteration: the value the
    poll reads, and the change made to the tree during the sleep that
    follows.  When the ticks are used up the user presses Ctrl+C. *)
Fixpoint watch_loop (source_css : path) (ticks : list tick)
    (last_modified : Z) : M unit :=
  match ticks with
  | [] => raise KeyboardInterrupt
  | t :: ticks' =>
      current_modified <- stat_st_mtime source_css (st_mtime t) ;;
      if (current_modified >? last_modified)%Z then
        print (String LF ("🔄 File changed at " ++ strftime t)) ;;
        copied <- copy_css_assets ;;
        (if copied then print "✅ CSS updated successfully!" else ret tt) ;;
        sleep (edit t) ;;
        watch_loop source_css ticks' current_modified
      else
        sleep (edit t) ;;
        watch_loop source_css ticks' last_modified
  end.

Definition watch_and_copy (mtime0 : Z) (ticks : list tick) : M unit :=
  let source_css := ["themes"; "salford"; "assets"; "css"; "salford.css"] in
  trace c_watch_and_copy ;;
  found <- exists_ source_css ;;
  if negb found then
    print ("❌ Source CSS file not found: " ++ str source_css)
  else
    print ("👀 Watching for changes in: " ++ str source_css) ;;
    print "Press Ctrl+C to stop watching" ;;
    last_modified <- stat_st_mtime source_css mtime0 ;;
    try_except_KeyboardInterrupt
      (watch_loop source_css ticks last_modified)
      (print (String LF "👋 Stopped watching for changes")).

Definition process_scss : M unit :=
  trace c_process_scss ;;
  if negb (DJANGO_AVAILABLE env) then
    print "⚠️  Django not available, skipping SCSS processing"
  else if negb (SASS_AVAILABLE env) then
    print "⚠️  Sass not available, skipping SCSS processing"
  else
    let paths := [ ["themes"; "salford"; "assets"; "foundation-sites"; "scss"];
                   ["themes"; "salford"; "assets"; "motion-ui"; "src"] ] in
    let app_scss_file := ["themes"; "salford"; "assets"; "scss"; "app.scss"] in
    let app_css_file := ["static"; "salford"; "css"; "app.css"] in
    found <- exists_ app_scss_file ;;
    if found then
      compiled_css_from_file <-
        sass_compile env (str app_scss_file) (map str paths) ;;
      fs_op (write_text app_css_file compiled_css_from_file) ;;
      print ("✅ Compiled SCSS: " ++ str app_scss_file ++ " -> "
               ++ str app_css_file)
    else
      print ("⚠️  SCSS file not found: " ++ str app_scss_file).

Definition process_js : M unit :=
  trace c_process_js ;;
  if negb (DJANGO_AVAILABLE env) then
    print "⚠️  Django not available, skipping JS processing"
  else
    let source_paths :=
      [ ["themes"; "salford"; "assets"; "js"; "admin.js"];
        ["themes"; "salford"; "assets"; "js"; "app.js"];
        ["themes"; "salford"; "assets"; "js"; "footnotes.js"];
        ["themes"; "salford"; "assets"; "js"; "table_of_contents.js"];
        ["themes"; "salford"; "assets"; "js"; "text_resize.js"];
        ["themes"; "salford"; "assets"; "js"; "toastr.js"] ] in
    let dest_path := ["static"; "salford"; "js"; "app.js"] in
    fs_op (mkdir_p (removelast dest_path)) ;;
    existing_files <-
      (fun w => Ok (filter (fun p => path_exists p (fs w)) source_paths) w) ;;
    match existing_files with
    | _ :: _ =>
        fs_op (open_w dest_path) ;;
        for_each existing_files
          (fun src_file =>
             text <- fs_read (read_text src_file) ;;
             fs_op (append_bytes dest_path text)) ;;
        print ("✅ Processed JS files -> " ++ str dest_path)
    | [] =>
        print "⚠️  No JS files found to process"
    end.

Definition process_journals (override_css_dir : path) (paths : list path)
    : M unit :=
  trace c_process_journals ;;
  if negb (DJANGO_AVAILABLE env) then
    print "⚠️  Django not available, skipping journal overrides"
  else if negb (SASS_AVAILABLE env) then
    print "⚠️  Sass not available, skipping journal overrides"
  else
    journals <- Journal_objects_all env ;;
    for_each journals
      (fun journal =>
         let journal_dir :=
           ["files"; "styling"; "journals"; str_int (id journal)] in
         found <- exists_ journal_dir ;;
         scss_files <-
           (if found then
              names <- fs_read (iterdir journal_dir) ;;
              ret (map (fun file => journal_dir ++ [file])
                     (filter (fun file => String.eqb (suffix file) ".scss")
                        names))
            else ret []) ;;
         match scss_files with
         | first :: _ =>
             print ("📝 Journal " ++ str_int (id journal) ++ " ["
                      ++ name journal ++ "]: processing overrides") ;;
             let override_css_file :=
               override_css_dir
                 ++ [("journal" ++ str_int (id journal) ++ "_override.css")%string]
             in
             compiled_css_from_file <-
               sass_compile env (str first) (map str paths) ;;
             fs_op (write_text override_css_file compiled_css_from_file)
         | [] => ret tt
         end).

Definition create_paths : M path :=
  let base_path := ["static"; "salford"] in
  let folders := ["css"; "js"; "fonts"; "img"] in
  trace c_create_paths ;;
  for_each folders (fun folder => fs_op (mkdir_p (base_path ++ [folder]))) ;;
  let override_css_dir := base_path ++ ["css"] in
  fs_op (mkdir_p override_css_dir) ;;
  ret override_css_dir.

Definition build_full : M unit :=
  trace c_build_full ;;
  print "🏗️  Starting full build process..." ;;
  override_css_dir <- create_paths ;;
  print "📋 Copying CSS assets..." ;;
  _ <- copy_css_assets ;;
  print "📋 Copying all assets..." ;;
  _ <- copy_all_assets ;;
  print "🎨 Processing SCSS..." ;;
  process_scss ;;
  print "⚡ Processing JS..." ;;
  process_js ;;
  (if DJANGO_AVAILABLE env then
     print "📝 Processing journal overrides..." ;;
     let include_paths :=
       [ ["themes"; "salford"; "assets"; "foundation-sites"; "scss"];
         ["themes"; "salford"; "assets"; "motion-ui"; "src"] ] in
     process_journals override_css_dir include_paths ;;
     print "📦 Running collectstatic..." ;;
     call_command_collectstatic env
   else ret tt) ;;
  print "✅ Full build completed!".

Definition build_simple : M unit :=
  trace c_build_simple ;;
  print "📋 Starting simple build (copy assets only)..." ;;
  _ <- copy_css_assets ;;
  _ <- copy_all_assets ;;
  print "✅ Simple build completed!".

(** ["=" * 40]. *)
Fixpoint str_mul (s : string) (k : nat) : string :=
  match k with
  | O => EmptyString
  | S k' => (s ++ str_mul s k')%string
  end.

Definition usage : list string :=
  [ "🎨 Salford Theme Build Script";
    str_mul "=" 40;
    "Usage: python build_assets.py [mode]";
    EmptyString;
    "Modes:";
    "  copy     - Copy CSS and all assets (default)";
    "  watch    - Watch for CSS changes and auto-copy";
    "  build    - Full build with SCSS, JS, and Django features";
    "  help     - Show this help message";
    EmptyString;
    "Examples:";
    "  python build_assets.py copy    # Copy assets once";
    "  python build_assets.py watch   # Watch for changes";
    "  python build_assets.py build   # Full build process" ].

Definition show_help : M unit :=
  trace c_show_help ;;
  for_each usage print.

(** [main]: [argv] is [sys.argv]; [mtime0] and [ticks] are what the world
    shows to the watcher, should the mode be [watch]. *)
Definition main (argv : list string) (mtime0 : Z) (ticks : list tick)
    : M unit :=
  let mode := match argv with
              | _ :: m :: _ => m
              | _ => "copy"
              end in
  if String.eqb mode "help" || String.eqb mode "--help"
     || String.eqb mode "-h" then
    show_help
  else if String.eqb mode "copy" then
    build_simple
  else if String.eqb mode "watch" then
    print "🎨 Salford Theme CSS Watcher" ;;
    print (str_mul "=" 40) ;;
    print "📋 Performing initial copy..." ;;
    _ <- copy_css_assets ;;
    watch_and_copy mtime0 ticks
  else if String.eqb mode "build" then
    build_full
  else
    print ("❌ Unknown mode: " ++ mode) ;;
    show_help.

End Script.

(** ** Auxiliary notions for the statements *)

(** Two paths part ways: at some depth they name different entries. *)
Fixpoint diverges (p q : path) : bool :=
  match p, q with
  | x :: p', y :: q' => if String.eqb x y then diverges p' q' else true
  | _, _ => false
  end.

(** No regular file sits on the way to [p], or at [p]. *)
Fixpoint clear (p : path) (n : node) : bool :=
  match p with
  | [] => match n with
          | Dir _ => true
          | File _ => false
          end
  | x :: p' =>
      match n with
      | File _ => false
      | Dir es => match get_entry x es with
                  | Some c => clear p' c
                  | None => true
                  end
      end
  end.

(** The fixed places of the script, for the statements. *)
Definition themes_assets : path := ["themes"; "salford"; "assets"].
Definition themes_css : path :=
  ["themes"; "salford"; "assets"; "css"; "salford.css"].
Definition static_salford : path := ["static"; "salford"].
Definition static_css_dir : path := ["static"; "salford"; "css"].
Definition static_css : path := ["static"; "salford"; "css"; "salford.css"].

Definition static_js_dir : path := ["static"; "salford"; "js"].
Definition static_js : path := ["static"; "salford"; "js"; "app.js"].

Definition app_scss_file : path :=
  ["themes"; "salford"; "assets"; "scss"; "app.scss"].

(** The four directories [create_paths] makes. *)
Definition static_folders : list path :=
  map (fun folder => static_salford ++ [folder]) ["css"; "js"; "fonts"; "img"].

(** The six script sources, in the order of the list in [process_js]. *)
Definition js_sources : list path :=
  [ ["themes"; "salford"; "assets"; "js"; "admin.js"];
    ["themes"; "salford"; "assets"; "js"; "app.js"];
    ["themes"; "salford"; "assets"; "js"; "footnotes.js"];
    ["themes"; "salford"; "assets"; "js"; "table_of_contents.js"];
    ["themes"; "salford"; "assets"; "js"; "text_resize.js"];
    ["themes"; "salford"; "assets"; "js"; "toastr.js"] ].

Definition include_paths : list path :=
  [ ["themes"; "salford"; "assets"; "foundation-sites"; "scss"];
    ["themes"; "salford"; "assets"; "motion-ui"; "src"] ].

(** The world after one more line on the console and one more call. *)
Definition said (w : World) (n : node) (lines : list string)
    (cs : list call) : World :=
  {| fs := n; out := out w ++ lines; calls := calls w ++ cs |}.

(** The errors of the operating system, as opposed to [NameError], to
    the interrupt, to a decoding error and to what a collaborator raises. *)
Definition os_error (e : exn) : bool :=
  match e with
  | FileExistsError | FileNotFoundError | NotADirectoryError
  | IsADirectoryError => true
  | _ => false
  end.

(** The exceptions no handler or guard of the script stands in the way
    of: all but the [NameError] of an absent collaborator and the
    interrupt. *)
Definition uncaught (e : exn) : bool :=
  match e with
  | NameError | KeyboardInterrupt => false
  | _ => true
  end.

Definition uncaught_or_interrupt (e : exn) : bool :=
  uncaught e || is_KeyboardInterrupt e.

(** Every exception [m] can raise satisfies [P]. *)
Definition raises_only {A : Type} (P : exn -> bool) (m : M A) : Prop :=
  forall w e w', m w = Raise e w' -> P e = true.

(** The set of mode tokens [main] knows. *)
Definition known_modes : list string :=
  ["copy"; "watch"; "build"; "help"; "--help"; "-h"].

(** The watcher, in the specification's words: the timestamp on record
    after a run of polls is the start value, replaced by every observed
    value that was strictly greater than the record of its time; the
    poll number [i] triggers a copy when what it observes is strictly
    greater than the record of the polls before it. *)
Definition last_recorded (mtime0 : Z) (seen : list Z) : Z :=
  fold_left (fun last m => if (m >? last)%Z then m else last) seen mtime0.

Definition triggers (mtime0 : Z) (observed : list Z) (i : nat) : bool :=
  (nth i observed 0 >? last_recorded mtime0 (firstn i observed))%Z.

(** The calls of one iteration of the watcher's loop. *)
Definition poll_calls (copy : bool) : list call :=
  if copy then [c_stat; c_copy_css_assets; c_sleep] else [c_stat; c_sleep].

(** The decisions of a run of polls, poll by poll. *)
Fixpoint advances (last : Z) (observed : list Z) : list bool :=
  match observed with
  | [] => []
  | m :: rest =>
      if (m >? last)%Z then true :: advances m rest
      else false :: advances last rest
  end.

Definition is_copy_call (c : call) : bool :=
  match c with c_copy_css_assets => true | _ => false end.

(** The text Python reads from the file at [p], for a file that decodes. *)
Definition text_at (n : node) (p : path) : string :=
  match lookup p n with
  | Some (File d) => universal_newlines d
  | _ => EmptyString
  end.

(** A regular file that holds well-formed UTF-8. *)
Definition utf8_file (n : node) (p : path) : Prop :=
  exists d, lookup p n = Some (File d) /\ valid_utf8 d = true.

Definition concat_text (texts : list string) : string :=
  fold_right String.append EmptyString texts.

(** The override processor, for the statements. *)
Definition journal_dir (j : Journal) : path :=
  ["files"; "styling"; "journals"; str_int (id j)].

(** The [.scss] files of a tenant, in the order of the directory. *)
Definition scss_files (n : node) (j : Journal) : list path :=
  match lookup (journal_dir j) n with
  | Some (Dir es) =>
      map (fun file => journal_dir j ++ [file])
        (filter (fun file => String.eqb (suffix file) ".scss") (map fst es))
  | _ => []
  end.

Definition first_scss (n : node) (j : Journal) : option path :=
  hd_error (scss_files n j).

Definition override_name (j : Journal) : string :=
  "journal" ++ str_int (id j) ++ "_override.css".

Definition override_css_file (dir : path) (j : Journal) : path :=
  dir ++ [override_name j].

(** The files the processor hands to the compiler for a list of tenants:
    for each tenant the first of its [.scss] files, if it has one. *)
Definition compiled_files (n : node) (js : list Journal) : list path :=
  flat_map (fun j => firstn 1 (scss_files n j)) js.

(** The body of the [for journal in journals] loop of
    [process_journals], under a name. *)
Definition journal_body (env : Env) (override_css_dir : path)
    (paths : list path) (journal : Journal) : M unit :=
  let journal_dir :=
    ["files"; "styling"; "journals"; str_int (id journal)] in
  found <- exists_ journal_dir ;;
  scss_files <-
    (if found then
       names <- fs_read (iterdir journal_dir) ;;
       ret (map (fun file => journal_dir ++ [file])
              (filter (fun file => String.eqb (suffix file) ".scss") names))
     else ret []) ;;
  match scss_files with
  | first :: _ =>
      print ("📝 Journal " ++ str_int (id journal) ++ " ["
               ++ name journal ++ "]: processing overrides") ;;
      let override_css_file :=
        override_css_dir
          ++ [("journal" ++ str_int (id journal) ++ "_override.css")%string]
      in
      compiled_css_from_file <-
        sass_compile env (str env first) (map (str env) paths) ;;
      fs_op (write_text override_css_file compiled_css_from_file)
  | [] => ret tt
  end.

(** ** Sample environments and trees *)

(** No collaborator could be imported. *)
Definition env_bare : Env :=
  {| BASE_DIR := "/srv/site/src"; sass := None; jsmin := false;
     django := None |}.

(** The framework is there (with no tenants), and so is the compiler
    (which answers every file with the same stylesheet). *)
Definition env_full : Env :=
  {| BASE_DIR := "/srv/site/src";
     sass := Some (fun _ _ _ => inr "a{b:c}");
     jsmin := true;
     django := Some {| journals_all := inr [];
                       collectstatic := fun n => inr n |} |}.

(** Three tenants: the first has two stylesheets (and a note), the
    second a directory without stylesheets, the third no directory. *)
Definition three_journals : list Journal :=
  [ {| id := 1; name := "Alpha" |};
    {| id := 2; name := "Beta" |};
    {| id := 3; name := "Gamma" |} ].

(** Two tenants with one stylesheet each; the first does not compile. *)
Definition two_journals : list Journal :=
  [ {| id := 1; name := "Alpha" |}; {| id := 2; name := "Beta" |} ].

(** The compiler returns the name of the file it was given. *)
Definition env_journals : Env :=
  {| BASE_DIR := "/srv/site/src";
     sass := Some (fun _ filename _ => inr filename);
     jsmin := false;
     django := Some {| journals_all := inr three_journals;
                       collectstatic := fun n => inr n |} |}.

Definition env_broken : Env :=
  {| BASE_DIR := "/srv/site/src";
     sass := Some (fun _ filename _ =>
                     if String.eqb filename
                          "/srv/site/src/files/styling/journals/1/bad.scss"
                     then inl "expected }" else inr "a{}");
     jsmin := false;
     django := Some {| journals_all := inr two_journals;
                       collectstatic := fun n => inr n |} |}.

(** The data layer is down. *)
Definition env_no_data : Env :=
  {| BASE_DIR := "/srv/site/src";
     sass := Some (fun _ _ _ => inr "a{b:c}");
     jsmin := false;
     django := Some {| journals_all := inl "database is locked";
                       collectstatic := fun n => inr n |} |}.

(** The static root cannot be written. *)
Definition env_no_collect : Env :=
  {| BASE_DIR := "/srv/site/src";
     sass := Some (fun _ _ _ => inr "a{b:c}");
     jsmin := false;
     django := Some {| journals_all := inr [];
                       collectstatic := fun _ => inl "permission denied" |} |}.

Definition fresh_world (n : node) : World :=
  {| fs := n; out := []; calls := [] |}.

Definition empty_tree : node := Dir [].

(** A theme with one stylesheet and one script. *)
Definition theme_assets_entries : entries :=
  [ ("css", Dir [("salford.css", File "body { margin: 0 }")]);
    ("js", Dir [("app.js", File "init();")]) ].

Definition theme_tree : node :=
  Dir [("themes", Dir [("salford", Dir [("assets", Dir theme_assets_entries)])])].

(** The same theme next to a static tree left over from an older build. *)
Definition stale_tree : node :=
  Dir [ ("themes", Dir [("salford", Dir [("assets", Dir theme_assets_entries)])]);
        ("static", Dir [("salford", Dir [("old", Dir [("gone.css", File "x")])])]) ].

(** The same theme, with a directory where the copied stylesheet goes. *)
Definition css_is_dir_tree : node :=
  Dir [ ("themes", Dir [("salford", Dir [("assets", Dir theme_assets_entries)])]);
        ("static", Dir [("salford", Dir [("css", Dir [("salford.css", Dir [])])])]) ].

(** A regular file sits where the static tree should go. *)
Definition static_is_file_tree : node :=
  Dir [ ("themes", Dir [("salford", Dir [("assets", Dir theme_assets_entries)])]);
        ("static", File "not a directory") ].

(** A theme that has a stylesheet source and no [css] directory. *)
Definition scss_only_tree : node :=
  Dir [("themes", Dir [("salford", Dir [("assets", Dir
         [("scss", Dir [("app.scss", File "a { b: c }")])])])])].

(** Three of the six scripts are there; one has Windows line ends. *)
Definition js_tree : node :=
  Dir [("themes", Dir [("salford", Dir [("assets", Dir
         [("js", Dir [ ("toastr.js", File "t();");
                       ("admin.js", File (String "a" (String CR (String LF "b"))));
                       ("footnotes.js", File "f();") ])])])])].

(** One script, saved in Latin-1: the byte 0xE9 is not UTF-8. *)
Definition latin1_tree : node :=
  Dir [("themes", Dir [("salford", Dir [("assets", Dir
         [("js", Dir [("app.js", File (String (ascii_of_nat 233) EmptyString))])])])])].

Definition journals_tree : node :=
  Dir [ ("files", Dir [("styling", Dir [("journals", Dir
          [ ("1", Dir [ ("notes.txt", File "n");
                        ("b.scss", File "b{}");
                        ("a.scss", File "a{}") ]);
            ("2", Dir [("logo.png", File "p")]) ])])]);
        ("static", Dir [("salford", Dir [("css", Dir [])])]) ].

Definition broken_tree : node :=
  Dir [ ("files", Dir [("styling", Dir [("journals", Dir
          [ ("1", Dir [("bad.scss", File "a{")]);
            ("2", Dir [("good.scss", File "a{}")]) ])])]);
        ("static", Dir [("salford", Dir [("css", Dir [])])]) ].

(** The theme next to a static tree in which a regular file sits where
    the stylesheet directory goes. *)
Definition css_is_file_tree : node :=
  Dir [ ("themes", Dir [("salford", Dir [("assets", Dir theme_assets_entries)])]);
        ("static", Dir [("salford", Dir [ ("css", File "not a directory");
                                          ("old.css", File "x") ])]) ].

(** A watched file that is touched on the second and on the fourth of
    five polls. *)
Definition five_ticks : list tick :=
  map (fun m => {| edit := fun n => n; st_mtime := m; strftime := "12:00:00" |})
    [100; 105; 105; 230; 230]%Z.

(** The watched file is deleted during the first sleep. *)
Definition vanishing_ticks : list tick :=
  [ {| edit := fun n => match remove themes_css n with
                        | inr n' => n'
                        | inl _ => n
                        end;
       st_mtime := 100; strftime := "12:00:00" |};
    {| edit := fun n => n; st_mtime := 100; strftime := "12:00:01" |} ].


(** ** Further notions *)

(** [m] leaves what is at [q] as it found it, whether it returns or
    raises. *)
Definition keeps {A : Type} (q : path) (m : M A) : Prop :=
  forall w, lookup q (fs (world_of (m w))) = lookup q (fs w).

(** The output file of [process_scss]. *)
Definition static_app_css : path := ["static"; "salford"; "css"; "app.css"].

(** A text without carriage return. *)
Fixpoint no_cr (s : string) : bool :=
  match s with
  | EmptyString => true
  | String c s' => negb (Ascii.eqb c CR) && no_cr s'
  end.

(** The decoder is between two characters, or inside one whose remaining
    bytes are continuation bytes. *)
Definition utf8_wf (st : utf8_state) : Prop :=
  match st with
  | U_start => True
  | U_cont _ lo _ => (128 <= lo)%N
  end.

(** Three scripts, the second saved in Latin-1, next to the output of an
    earlier build. *)
Definition mixed_js_tree : node :=
  Dir [ ("themes", Dir [("salford", Dir [("assets", Dir
          [("js", Dir [ ("admin.js", File "a();");
                        ("app.js", File (String (ascii_of_nat 233) EmptyString));
                        ("toastr.js", File "t();") ])])])]);
        ("static", Dir [("salford", Dir [("js", Dir
          [("app.js", File "old();")])])]) ].

(** ** The modes as sequences of statements *)

(** A call whose value is dropped. *)
Definition ignore {A : Type} (m : M A) : M unit := _ <- m ;; ret tt.

(** Statements run one after the other. *)
Definition steps (l : list (M unit)) : M unit := for_each l (fun s => s).

(** The statements of [build_simple]. *)
Definition copy_steps (env : Env) : list (M unit) :=
  [ trace c_build_simple;
    print "📋 Starting simple build (copy assets only)...";
    ignore (copy_css_assets env);
    ignore (copy_all_assets env);
    print "✅ Simple build completed!" ].

(** The statements of the [watch] branch of [main]. *)
Definition watch_steps (env : Env) (mtime0 : Z) (ticks : list tick)
    : list (M unit) :=
  [ print "🎨 Salford Theme CSS Watcher";
    print (str_mul "=" 40);
    print "📋 Performing initial copy...";
    ignore (copy_css_assets env);
    watch_and_copy env mtime0 ticks ].

(** The statements of [build_full]; the directory [create_paths]
    returns is [static/salford/css]. *)
Definition build_steps (env : Env) : list (M unit) :=
  [ trace c_build_full;
    print "🏗️  Starting full build process...";
    ignore create_paths;
    print "📋 Copying CSS assets...";
    ignore (copy_css_assets env);
    print "📋 Copying all assets...";
    ignore (copy_all_assets env);
    print "🎨 Processing SCSS...";
    process_scss env;
    print "⚡ Processing JS...";
    process_js env ]
  ++ (if DJANGO_AVAILABLE env then
        [ print "📝 Processing journal overrides...";
          process_journals env static_css_dir include_paths;
          print "📦 Running collectstatic...";
          call_command_collectstatic env ]
      else [])
  ++ [ print "✅ Full build completed!" ].

(** The three modes that do work, each with its statements. *)
Definition mode_steps (env : Env) (mtime0 : Z) (ticks : list tick)
    : list (string * list (M unit)) :=
  [ ("copy", copy_steps env);
    ("watch", watch_steps env mtime0 ticks);
    ("build", build_steps env) ].

(** * The library model on small inputs *)

Example suffix_plain : suffix "app.scss" = ".scss".
Proof. reflexivity. Qed.

Example suffix_last_dot : suffix "theme.min.scss" = ".scss".
Proof. reflexivity. Qed.

Example suffix_hidden : suffix ".scss" = EmptyString.
Proof. reflexivity. Qed.

Example suffix_trailing_dot : suffix "app.scss." = EmptyString.
Proof. reflexivity. Qed.

Example str_path_joins :
  str_path "/srv/site/src" ["static"; "salford"] = "/srv/site/src/static/salford".
Proof. reflexivity. Qed.

Example str_path_root : str_path "/" ["static"] = "/static".
Proof. reflexivity. Qed.

Example str_path_dot :
  str_path "." ["static"; "salford"] = "static/salford".
Proof. reflexivity. Qed.

Example str_int_negative : str_int (-12) = "-12".
Proof. reflexivity. Qed.

Example str_int_zero : str_int 0 = "0".
Proof. reflexivity. Qed.

(** U+00E9 as UTF-8 is 0xC3 0xA9; alone, 0xE9 opens a sequence that
    never ends; 0xC0 0x80 is an overlong NUL; 0xED 0xA0 0x80 is a
    surrogate. *)
Example utf8_two_bytes :
  valid_utf8 (String (ascii_of_nat 195) (String (ascii_of_nat 169) "x")) = true.
Proof. reflexivity. Qed.

Example utf8_latin1 :
  valid_utf8 (String (ascii_of_nat 233) EmptyString) = false.
Proof. reflexivity. Qed.

Example utf8_overlong :
  valid_utf8 (String (ascii_of_nat 192) (String (ascii_of_nat 128) EmptyString))
  = false.
Proof. reflexivity. Qed.

Example utf8_surrogate :
  valid_utf8 (String (ascii_of_nat 237)
                (String (ascii_of_nat 160)
                   (String (ascii_of_nat 128) EmptyString))) = false.
Proof. reflexivity. Qed.

Example newlines_translated :
  universal_newlines
    (String "a" (String CR (String LF (String "b" (String CR
       (String "c" (String LF EmptyString)))))))
  = String "a" (String LF (String "b" (String LF
       (String "c" (String LF EmptyString))))).
Proof. reflexivity. Qed.

Example mkdir_over_file :
  mkdir_p ["static"; "salford"] (Dir [("static", File "x")])
  = inl NotADirectoryError /\
  mkdir_p ["static"] (Dir [("static", File "x")]) = inl FileExistsError /\
  mkdir_p ["static"; "salford"] (Dir [("static", Dir [])])
  = inr (Dir [("static", Dir [("salford", Dir [])])]).
Proof. repeat split. Qed.

Example open_without_directory :
  write_text ["static"; "salford"; "css"; "app.css"] "a{}"
    (Dir [("static", Dir [("salford", Dir [])])])
  = inl FileNotFoundError.
Proof. reflexivity. Qed.

(** * Properties of the tree model *)

Section Entries.

Lemma get_set_same (x : string) (v : node) (es : entries) :
  get_entry x (set_entry x v es) = Some v.
Proof.
  induction es as [|[y m] es IH]; simpl.
  - now rewrite String.eqb_refl.
  - destruct (String.eqb x y) eqn:E; simpl; rewrite E; auto.
Qed.

Lemma get_set_other (x y : string) (v : node) (es : entries) :
  x <> y -> get_entry y (set_entry x v es) = get_entry y es.
Proof.
  intros Hxy. induction es as [|[z m] es IH]; simpl.
  - destruct (String.eqb y x) eqn:E; auto.
    apply String.eqb_eq in E. congruence.
  - destruct (String.eqb x z) eqn:E; simpl.
    + apply String.eqb_eq in E. subst z.
      destruct (String.eqb y x) eqn:E'; auto.
      apply String.eqb_eq in E'. congruence.
    + now rewrite IH.
Qed.

Lemma get_del_same (x : string) (es : entries) :
  get_entry x (del_entry x es) = None.
Proof.
  induction es as [|[y m] es IH]; simpl; auto.
  destruct (String.eqb x y) eqn:E; simpl; auto. now rewrite E.
Qed.

Lemma get_del_other (x y : string) (es : entries) :
  x <> y -> get_entry y (del_entry x es) = get_entry y es.
Proof.
  intros Hxy. induction es as [|[z m] es IH]; simpl; auto.
  destruct (String.eqb x z) eqn:E; simpl.
  - apply String.eqb_eq in E. subst z.
    destruct (String.eqb y x) eqn:E'; auto.
    apply String.eqb_eq in E'. congruence.
  - now rewrite IH.
Qed.

Lemma set_get_id (x : string) (c : node) (es : entries) :
  get_entry x es = Some c -> set_entry x c es = es.
Proof.
  induction es as [|[y m] es IH]; simpl; try discriminate.
  destruct (String.eqb x y) eqn:E; intros H.
  - now inversion H.
  - now rewrite IH.
Qed.

End Entries.

(** What one step into a directory does to lookups. *)
Lemma at_entry_inv (x : string) (f : option node -> exn + option node)
    (n n' : node) :
  at_entry x f n = inr n' ->
  exists es oc, n = Dir es /\ f (get_entry x es) = inr oc /\
    n' = Dir (match oc with
              | Some c => set_entry x c es
              | None => del_entry x es
              end).
Proof.
  unfold at_entry. destruct n as [d|es]; try discriminate.
  destruct (f (get_entry x es)) as [e|[c|]] eqn:E; try discriminate;
    intros H; inversion H; subst; eauto.
Qed.

Lemma at_entry_other (x y : string) f (n n' : node) (q : path) :
  at_entry x f n = inr n' -> x <> y ->
  lookup (y :: q) n' = lookup (y :: q) n.
Proof.
  intros H Hxy. apply at_entry_inv in H as (es & oc & -> & _ & ->).
  simpl. destruct oc.
  - now rewrite get_set_other.
  - now rewrite get_del_other.
Qed.

Lemma at_entry_same (x : string) f (n n' : node) (q : path) :
  at_entry x f n = inr n' ->
  exists es oc, n = Dir es /\ f (get_entry x es) = inr oc /\
    lookup (x :: q) n' = match oc with
                         | Some c => lookup q c
                         | None => None
                         end.
Proof.
  intros H. apply at_entry_inv in H as (es & oc & -> & Hf & ->).
  exists es, oc. repeat split; auto. simpl. destruct oc.
  - now rewrite get_set_same.
  - now rewrite get_del_same.
Qed.

Lemma map_inr_inv {E A B : Type} (f : A -> B) (r : E + A) (b : B) :
  map_inr f r = inr b -> exists a, r = inr a /\ b = f a.
Proof. destruct r; simpl; intros H; inversion H; eauto. Qed.

Lemma resolve_lookup (p : path) (n v : node) :
  resolve p n = inr v <-> lookup p n = Some v.
Proof.
  revert n. induction p as [|x p IH]; intros n; simpl.
  - split; intros H; inversion H; auto.
  - destruct n as [d|es]; [split; discriminate|].
    destruct (get_entry x es); [apply IH | split; discriminate].
Qed.

Lemma lookup_fresh_dirs_diverges (p q : path) :
  diverges p q = true -> lookup q (fresh_dirs p) = None.
Proof.
  revert q. induction p as [|x p IH]; intros [|y q]; simpl; try discriminate.
  rewrite (String.eqb_sym y x). destruct (String.eqb x y); auto.
Qed.

Lemma mkdir_p_frame (p q : path) (n n' : node) :
  mkdir_p p n = inr n' -> diverges p q = true -> lookup q n' = lookup q n.
Proof.
  revert q n n'. induction p as [|x p IH]; intros [|y q] n n' H D;
    simpl in D; try discriminate.
  simpl in H. destruct (String.eqb x y) eqn:E.
  - apply String.eqb_eq in E. subst y.
    destruct (at_entry_same x _ n n' q H) as (es & oc & -> & Hf & ->).
    simpl. destruct (get_entry x es) as [c|] eqn:G.
    + apply map_inr_inv in Hf as (c' & Hc & ->). eauto.
    + inversion Hf; subst. now apply lookup_fresh_dirs_diverges.
  - apply String.eqb_neq in E. eapply at_entry_other; eauto.
Qed.

Lemma put_frame (p q : path) (v n n' : node) :
  put p v n = inr n' -> diverges p q = true -> lookup q n' = lookup q n.
Proof.
  revert q n n'. induction p as [|x p IH]; intros [|y q] n n' H D;
    simpl in D; try discriminate.
  simpl in H. destruct (String.eqb x y) eqn:E.
  - apply String.eqb_eq in E. subst y.
    destruct (at_entry_same x _ n n' q H) as (es & oc & -> & Hf & ->).
    simpl. destruct (get_entry x es) as [c|] eqn:G.
    + apply map_inr_inv in Hf as (c' & Hc & ->). eauto.
    + destruct p; try discriminate.
  - apply String.eqb_neq in E. eapply at_entry_other; eauto.
Qed.

Lemma remove_frame (p q : path) (n n' : node) :
  remove p n = inr n' -> diverges p q = true -> lookup q n' = lookup q n.
Proof.
  revert q n n'. induction p as [|x p IH]; intros [|y q] n n' H D;
    simpl in D; try discriminate.
  simpl in H. destruct (String.eqb x y) eqn:E.
  - apply String.eqb_eq in E. subst y.
    destruct (at_entry_same x _ n n' q H) as (es & oc & -> & Hf & ->).
    simpl. destruct (get_entry x es) as [c|] eqn:G; try discriminate.
    destruct p; try discriminate.
    apply map_inr_inv in Hf as (c' & Hc & ->). eauto.
  - apply String.eqb_neq in E. eapply at_entry_other; eauto.
Qed.

Lemma lookup_app (p q : path) (n : node) :
  lookup (p ++ q) n = match lookup p n with
                      | Some c => lookup q c
                      | None => None
                      end.
Proof.
  revert n. induction p as [|x p IH]; intros n; simpl; auto.
  destruct n as [d|es]; auto. destruct (get_entry x es); auto.
Qed.

Lemma put_lookup (p : path) (v n n' : node) :
  put p v n = inr n' -> lookup p n' = Some v.
Proof.
  revert n n'. induction p as [|x p IH]; intros n n' H; simpl in H.
  - now inversion H.
  - destruct (at_entry_same x _ n n' p H) as (es & oc & -> & Hf & ->).
    destruct (get_entry x es) as [c|] eqn:G.
    + apply map_inr_inv in Hf as (c' & Hc & ->). eauto.
    + destruct p; inversion Hf; subst. reflexivity.
Qed.

Lemma put_ok (p : path) (v n c : node) :
  lookup p n = Some c -> exists n', put p v n = inr n'.
Proof.
  revert n. induction p as [|x p IH]; intros n H; simpl in *; eauto.
  destruct n as [d|es]; try discriminate. simpl.
  destruct (get_entry x es) as [c0|] eqn:G; try discriminate.
  destruct (IH _ H) as (c' & ->). simpl. eauto.
Qed.

Lemma clear_fresh_dirs (p q : path) : clear p (fresh_dirs q) = true.
Proof.
  revert p. induction q as [|y q IH]; intros [|x p]; simpl; auto.
  destruct (String.eqb x y); auto.
Qed.

Lemma lookup_fresh_dirs (p : path) : exists es, lookup p (fresh_dirs p) = Some (Dir es).
Proof.
  induction p as [|x p IH]; simpl; eauto. now rewrite String.eqb_refl.
Qed.

Lemma mkdir_p_ok (p : path) (n : node) :
  clear p n = true -> exists n', mkdir_p p n = inr n'.
Proof.
  revert n. induction p as [|x p IH]; intros [d|es] H; simpl in *;
    try discriminate; eauto.
  destruct (get_entry x es) as [c|] eqn:G; eauto.
  destruct (IH _ H) as (c' & ->). simpl. eauto.
Qed.

Lemma mkdir_p_clear (p : path) (n n' : node) :
  mkdir_p p n = inr n' -> clear p n = true.
Proof.
  revert n n'. induction p as [|x p IH]; intros [d|es] n' H; simpl in *;
    try discriminate; auto.
  destruct (get_entry x es) as [c|] eqn:G; auto.
  destruct (mkdir_p p c) as [e|c'] eqn:Hc; simpl in H; try discriminate.
  eauto.
Qed.

Lemma mkdir_p_lookup (p : path) (n n' : node) :
  mkdir_p p n = inr n' -> exists es, lookup p n' = Some (Dir es).
Proof.
  revert n n'. induction p as [|x p IH]; intros n n' H; simpl in H.
  - destruct n; inversion H; subst; simpl; eauto.
  - destruct (at_entry_same x _ n n' p H) as (es & oc & -> & Hf & ->).
    destruct (get_entry x es) as [c|] eqn:G.
    + apply map_inr_inv in Hf as (c' & Hc & ->). eauto.
    + inversion Hf; subst. apply lookup_fresh_dirs.
Qed.

Lemma lookup_below_fresh_dirs (p q : path) (x : string) :
  lookup (p ++ x :: q) (fresh_dirs p) = None.
Proof.
  induction p as [|y p IH]; simpl; auto. now rewrite String.eqb_refl.
Qed.

(** [mkdir_p p] leaves everything strictly below [p] as it was. *)
Lemma mkdir_p_below (p q : path) (x : string) (n n' : node) :
  mkdir_p p n = inr n' ->
  lookup (p ++ x :: q) n' = lookup (p ++ x :: q) n.
Proof.
  revert n n'. induction p as [|y p IH]; intros n n' H; simpl in H.
  - destruct n; inversion H; subst; auto.
  - simpl app.
    destruct (at_entry_same y _ n n' (p ++ x :: q) H)
      as (es & oc & -> & Hf & ->).
    simpl. destruct (get_entry y es) as [c|] eqn:G.
    + apply map_inr_inv in Hf as (c' & Hc & ->). eauto.
    + inversion Hf; subst. apply lookup_below_fresh_dirs.
Qed.

Lemma lookup_app_dir (p q : path) (x : string) (n v : node) :
  lookup (p ++ x :: q) n = Some v -> exists es, lookup p n = Some (Dir es).
Proof.
  rewrite lookup_app. destruct (lookup p n) as [[d|es]|]; simpl;
    try discriminate; eauto.
Qed.

Lemma lookup_dir_clear (p : path) (n : node) (es : entries) :
  lookup p n = Some (Dir es) -> clear p n = true.
Proof.
  revert n. induction p as [|x p IH]; intros n H; simpl in H.
  - inversion H; subst. reflexivity.
  - destruct n as [d|es0]; try discriminate. simpl.
    destruct (get_entry x es0); try discriminate. eauto.
Qed.

Lemma clear_prefix (p q : path) (n : node) :
  clear (p ++ q) n = true -> clear p n = true.
Proof.
  revert n. induction p as [|x p IH]; intros [d|es] H; simpl in *;
    try discriminate; auto.
  - destruct q; discriminate.
  - destruct (get_entry x es); auto.
Qed.

(** Creating directories never puts a regular file in the way. *)
Lemma mkdir_p_keeps_clear (q p : path) (n n' : node) :
  mkdir_p q n = inr n' -> clear p n = true -> clear p n' = true.
Proof.
  revert p n n'. induction q as [|y q IH]; intros p n n' H C; simpl in H.
  - destruct n; inversion H; subst; auto.
  - apply at_entry_inv in H as (es & oc & -> & Hf & ->).
    destruct p as [|x p]; [now destruct oc|].
    simpl in C. destruct oc as [c'|].
    + simpl. destruct (String.eqb y x) eqn:E.
      * apply String.eqb_eq in E. subst x. rewrite get_set_same.
        destruct (get_entry y es) as [c|] eqn:G.
        -- apply map_inr_inv in Hf as (c'' & Hc & Heq).
           inversion Heq; subst. eauto.
        -- inversion Hf; subst. apply clear_fresh_dirs.
      * apply String.eqb_neq in E. now rewrite get_set_other.
    + destruct (get_entry y es); [|discriminate].
      apply map_inr_inv in Hf as (c'' & _ & Heq). discriminate.
Qed.

Lemma remove_ok (p : path) (n v : node) :
  p <> [] -> lookup p n = Some v ->
  exists n', remove p n = inr n' /\ lookup p n' = None /\ clear p n' = true.
Proof.
  revert n. induction p as [|x p IH]; intros n Hp H; [congruence|].
  simpl in H. destruct n as [d|es]; try discriminate.
  destruct (get_entry x es) as [c|] eqn:G; try discriminate.
  simpl. rewrite G. destruct p as [|y p].
  - eexists. split; [reflexivity|]. simpl. now rewrite get_del_same.
  - destruct (IH c) as (c' & Hr & Hl & Hc); [congruence|assumption|].
    rewrite Hr. simpl. eexists. split; [reflexivity|].
    cbn [lookup clear]. rewrite get_set_same. auto.
Qed.

Lemma put_ok_child (p : path) (x : string) (v n : node) (es : entries) :
  lookup p n = Some (Dir es) -> exists n', put (p ++ [x]) v n = inr n'.
Proof.
  revert n. induction p as [|y p IH]; intros n H; simpl in H.
  - inversion H; subst. simpl.
    destruct (get_entry x es); simpl; eauto.
  - destruct n as [d|es0]; try discriminate.
    destruct (get_entry y es0) as [c|] eqn:G; try discriminate.
    simpl. rewrite G. destruct (IH _ H) as (c' & ->). simpl. eauto.
Qed.

(** A successful [put] went through directories only. *)
Lemma put_prefix_dir (p q : path) (x : string) (v n n' : node) :
  put (p ++ x :: q) v n = inr n' -> exists es, lookup p n' = Some (Dir es).
Proof.
  revert n n'. induction p as [|y p IH]; intros n n' H.
  - simpl in H. apply at_entry_inv in H as (es & oc & -> & _ & ->).
    simpl. eauto.
  - simpl app in H. simpl in H.
    destruct (at_entry_same y _ n n' p H) as (es & oc & -> & Hf & ->).
    destruct (get_entry y es) as [c|] eqn:G.
    + apply map_inr_inv in Hf as (c' & Hc & ->). eauto.
    + destruct p; discriminate.
Qed.

(** * The two copiers *)

Lemma clear_lookup_dir (p : path) (n v : node) :
  clear p n = true -> lookup p n = Some v -> exists es, v = Dir es.
Proof.
  revert n. induction p as [|x p IH]; intros [d|es] C H; simpl in *;
    try discriminate.
  - inversion H; eauto.
  - destruct (get_entry x es); try discriminate. eauto.
Qed.

(** [copy_css_assets], one case per way through it. *)
Lemma copy_css_assets_unfold (env : Env) (w : World) :
  copy_css_assets env w =
  match mkdir_p static_css_dir (fs w) with
  | inl e => Raise e (said w (fs w) [] [c_copy_css_assets])
  | inr n1 =>
      if path_exists themes_css n1 then
        match copy2 themes_css static_css n1 with
        | inl e => Raise e (said w n1 [] [c_copy_css_assets])
        | inr n2 =>
            Ok true
              (said w n2
                 [("✅ Copied " ++ str env themes_css ++ " to "
                     ++ str env static_css)%string]
                 [c_copy_css_assets])
        end
      else
        Ok false
          (said w n1
             [("❌ Source CSS file not found: " ++ str env themes_css)%string]
             [c_copy_css_assets])
  end.
Proof.
  unfold copy_css_assets, bind, trace, fs_op, exists_, print, ret, said.
  cbn [fs out calls app].
  destruct (mkdir_p _ (fs w)) as [e|n1]; cbn [fs out calls].
  - now rewrite app_nil_r.
  - fold themes_css. destruct (path_exists themes_css n1); cbn [fs out calls].
    + change ["static"; "salford"; "css"; "salford.css"] with static_css.
      destruct (copy2 themes_css static_css n1); cbn [fs out calls];
        now rewrite ?app_nil_r.
    + reflexivity.
Qed.

(** [copy_all_assets], one case per way through it. *)
Lemma copy_all_assets_unfold (env : Env) (w : World) :
  copy_all_assets env w =
  if path_exists themes_assets (fs w) then
    match (if path_exists static_salford (fs w)
           then rmtree static_salford (fs w) else inr (fs w)) with
    | inl e => Raise e (said w (fs w) [] [c_copy_all_assets])
    | inr n1 =>
        match copytree themes_assets static_salford n1 with
        | inl e => Raise e (said w n1 [] [c_copy_all_assets])
        | inr n2 =>
            Ok true
              (said w n2
                 [("✅ Copied all assets from " ++ str env themes_assets
                     ++ " to " ++ str env static_salford)%string]
                 [c_copy_all_assets])
        end
    end
  else
    Ok false
      (said w (fs w)
         [("❌ Source assets directory not found: "
             ++ str env themes_assets)%string]
         [c_copy_all_assets]).
Proof.
  unfold copy_all_assets, bind, trace, fs_op, exists_, print, ret, said.
  cbn [fs out calls app]. fold themes_assets static_salford.
  destruct (path_exists themes_assets (fs w)); cbn [fs out calls]; auto.
  destruct (path_exists static_salford (fs w)); cbn [fs out calls].
  - destruct (rmtree static_salford (fs w)) as [e|n1]; cbn [fs out calls].
    + now rewrite app_nil_r.
    + destruct (copytree _ _ n1); cbn [fs out calls]; now rewrite ?app_nil_r.
  - unfold ret. destruct (copytree _ _ (fs w)); cbn [fs out calls];
      now rewrite ?app_nil_r.
Qed.

(** Deleting the destination (when there is one) and copying the source
    tree over leaves an exact replica, and touches nothing else. *)
Lemma replace_tree (src dst : path) (n : node) (es : entries) :
  dst <> [] -> diverges dst src = true ->
  lookup src n = Some (Dir es) -> clear dst n = true ->
  exists n1 n2,
    (if path_exists dst n then rmtree dst n else inr n) = inr n1 /\
    copytree src dst n1 = inr n2 /\
    lookup dst n2 = Some (Dir es) /\
    (forall q, diverges dst q = true -> lookup q n2 = lookup q n).
Proof.
  intros Hd Hdiv Hsrc Hclear.
  assert (exists n1, (if path_exists dst n then rmtree dst n else inr n) = inr n1
                     /\ lookup dst n1 = None /\ clear dst n1 = true
                     /\ forall q, diverges dst q = true ->
                                  lookup q n1 = lookup q n) as (n1 & H1 & Hl1 & Hc1 & Hf1).
  { unfold path_exists. destruct (lookup dst n) as [v|] eqn:L; simpl.
    - destruct (clear_lookup_dir _ _ _ Hclear L) as (ds & ->).
      destruct (remove_ok dst n _ Hd L) as (n1 & Hr & Hl & Hc).
      exists n1. unfold rmtree.
      apply resolve_lookup in L. rewrite L. repeat split; auto.
      intros q Hq. eapply remove_frame; eauto.
    - exists n. auto. }
  destruct (mkdir_p_ok _ _ Hc1) as (n1' & Hm).
  destruct (mkdir_p_lookup _ _ _ Hm) as (ds & Hl1').
  destruct (put_ok dst (Dir es) _ _ Hl1') as (n2 & Hp).
  exists n1, n2. split; [assumption|].
  assert (lookup src n1 = Some (Dir es)) as Hsrc1 by (rewrite Hf1; auto).
  split.
  - unfold copytree. apply resolve_lookup in Hsrc1. rewrite Hsrc1, Hl1, Hm.
    assumption.
  - split; [eapply put_lookup; eauto|].
    intros q Hq. erewrite put_frame by eauto.
    erewrite mkdir_p_frame by eauto. auto.
Qed.

Lemma copy_all_assets_replica (env : Env) (w : World) (es : entries) :
  lookup themes_assets (fs w) = Some (Dir es) ->
  clear static_salford (fs w) = true ->
  exists w',
    copy_all_assets env w = Ok true w' /\
    lookup static_salford (fs w') = Some (Dir es) /\
    (forall q, diverges static_salford q = true ->
               lookup q (fs w') = lookup q (fs w)) /\
    calls w' = calls w ++ [c_copy_all_assets] /\
    out w' = out w ++ [("✅ Copied all assets from " ++ str env themes_assets
                          ++ " to " ++ str env static_salford)%string].
Proof.
  intros Hsrc Hclear.
  destruct (replace_tree themes_assets static_salford (fs w) es)
    as (n1 & n2 & H1 & H2 & H3 & H4); auto; try discriminate.
  rewrite copy_all_assets_unfold. unfold path_exists at 1.
  rewrite Hsrc. cbn [is_some]. rewrite H1, H2.
  eexists. split; [reflexivity|]. cbn [said fs out calls]. auto.
Qed.

Lemma diverges_app_l (p r q : path) :
  diverges p q = true -> diverges (p ++ r) q = true.
Proof.
  revert q. induction p as [|x p IH]; intros [|y q]; simpl; try discriminate.
  destruct (String.eqb x y); auto.
Qed.

Lemma read_bytes_inv (p : path) (n : node) (d : string) :
  read_bytes p n = inr d <-> lookup p n = Some (File d).
Proof.
  unfold read_bytes. split.
  - destruct (resolve p n) as [e|[d0|es]] eqn:R; try discriminate.
    intros H. inversion H; subst. now apply resolve_lookup.
  - intros H. apply resolve_lookup in H. now rewrite H.
Qed.

(** A successful [copy2] stored the bytes of the source, at the
    destination or, when that is a directory, inside it. *)
Lemma copy2_inv (src dst : path) (n n' : node) :
  copy2 src dst n = inr n' ->
  exists d,
    lookup src n = Some (File d) /\
    put (if is_dir dst n then dst ++ [basename src] else dst) (File d) n
      = inr n'.
Proof.
  unfold copy2. destruct (read_bytes src n) as [e|d] eqn:R; try discriminate.
  apply read_bytes_inv in R. intros H. exists d. split; auto.
  unfold write_bytes in H. cbv zeta in H.
  match type of H with
  | match ?l with _ => _ end = _ =>
      destruct l as [[d0|es]|]; try discriminate; auto
  end.
Qed.

Lemma copy2_frame (src dst q : path) (n n' : node) :
  copy2 src dst n = inr n' -> diverges dst q = true ->
  lookup q n' = lookup q n.
Proof.
  intros H D. apply copy2_inv in H as (d & _ & H).
  eapply put_frame; eauto.
  destruct (is_dir dst n); auto using diverges_app_l.
Qed.

Lemma is_dir_static_css_after_mkdir (n n1 : node) :
  mkdir_p static_css_dir n = inr n1 ->
  lookup static_css n1 = lookup static_css n.
Proof.
  intros H. change static_css with (static_css_dir ++ "salford.css" :: []).
  eapply mkdir_p_below; eauto.
Qed.

(** When the destination is not a directory, a completed copy has put
    the bytes of the source CSS file there. *)
Lemma copy_css_assets_returns (env : Env) (w w' : World) (b : bool) :
  path_exists themes_css (fs w) = true ->
  is_dir static_css (fs w) = false ->
  copy_css_assets env w = Ok b w' ->
  b = true /\
  exists d, lookup themes_css (fs w) = Some (File d) /\
            lookup static_css (fs w') = Some (File d) /\
            lookup themes_css (fs w') = Some (File d).
Proof.
  intros Hsrc Hdst. rewrite copy_css_assets_unfold.
  destruct (mkdir_p static_css_dir (fs w)) as [e|n1] eqn:Hm; try discriminate.
  assert (forall q, diverges static_css_dir q = true ->
                    lookup q n1 = lookup q (fs w)) as Hf
    by (intros; eapply mkdir_p_frame; eauto).
  unfold path_exists in *. rewrite (Hf themes_css), Hsrc by reflexivity.
  destruct (copy2 themes_css static_css n1) as [e|n2] eqn:Hc; try discriminate.
  intros H. inversion H; subst. split; auto.
  pose proof (copy2_frame _ _ themes_css _ _ Hc eq_refl) as Hsame.
  apply copy2_inv in Hc as (d & Hd & Hp).
  unfold is_dir in Hdst, Hp.
  rewrite (is_dir_static_css_after_mkdir _ _ Hm) in Hp.
  exists d. cbn [said fs]. rewrite <- (Hf themes_css) by reflexivity.
  repeat split; auto.
  - destruct (lookup static_css (fs w)) as [[d0|es]|]; try discriminate;
      eapply put_lookup; eauto.
  - congruence.
Qed.

Lemma copy_css_assets_completes (env : Env) (w : World) (d : string) :
  clear static_css_dir (fs w) = true ->
  lookup themes_css (fs w) = Some (File d) ->
  is_dir static_css (fs w) = false ->
  exists w', copy_css_assets env w = Ok true w'.
Proof.
  intros Hclear Hsrc Hdst. rewrite copy_css_assets_unfold.
  destruct (mkdir_p_ok _ _ Hclear) as (n1 & Hm). rewrite Hm.
  unfold path_exists.
  rewrite (mkdir_p_frame _ themes_css _ _ Hm eq_refl), Hsrc. cbn [is_some].
  destruct (mkdir_p_lookup _ _ _ Hm) as (es & Hcss).
  destruct (put_ok_child static_css_dir "salford.css" (File d) _ _ Hcss)
    as (n2 & Hp).
  unfold copy2, write_bytes, is_dir in *.
  rewrite (is_dir_static_css_after_mkdir _ _ Hm).
  assert (read_bytes themes_css n1 = inr d) as ->.
  { apply read_bytes_inv.
    now rewrite (mkdir_p_frame _ themes_css _ _ Hm eq_refl). }
  change (static_css_dir ++ ["salford.css"]) with static_css in Hp.
  destruct (lookup static_css (fs w)) as [[d0|es0]|] eqn:L;
    try discriminate;
    rewrite (is_dir_static_css_after_mkdir _ _ Hm), L, Hp; eauto.
Qed.

Lemma copy_css_assets_total (env : Env) (w : World) :
  clear static_css_dir (fs w) = true ->
  is_dir themes_css (fs w) = false ->
  is_dir static_css (fs w) = false ->
  exists b wb,
    copy_css_assets env w = Ok b wb /\
    (lookup themes_css (fs w) = None ->
     b = false /\ mkdir_p static_css_dir (fs w) = inr (fs wb)).
Proof.
  intros Hclear Hsrc Hdst.
  destruct (lookup themes_css (fs w)) as [[d|es]|] eqn:L.
  - destruct (copy_css_assets_completes env w d Hclear L Hdst) as (wb & H).
    exists true, wb. split; auto. discriminate.
  - unfold is_dir in Hsrc. now rewrite L in Hsrc.
  - rewrite copy_css_assets_unfold.
    destruct (mkdir_p_ok _ _ Hclear) as (n1 & Hm). rewrite Hm.
    unfold path_exists.
    rewrite (mkdir_p_frame _ themes_css _ _ Hm eq_refl), L. cbn [is_some].
    eexists _, _. split; [reflexivity|]. auto.
Qed.

(** C10.  Whenever [copy_css_assets] returns false, the source CSS file
    was absent, and the destination directory [static/salford/css] exists
    afterwards: the tree the call leaves behind is the tree it found
    after [mkdir -p] of that directory, which ran before the source was
    looked at. *)
Theorem copy_css_assets_false_leaves_dir (env : Env) (w w' : World) :
  copy_css_assets env w = Ok false w' ->
  path_exists themes_css (fs w) = false /\
  mkdir_p static_css_dir (fs w) = inr (fs w') /\
  is_dir static_css_dir (fs w') = true.
Proof.
  rewrite copy_css_assets_unfold.
  destruct (mkdir_p static_css_dir (fs w)) as [e|n1] eqn:Hm; try discriminate.
  destruct (path_exists themes_css n1) eqn:Hx.
  - destruct (copy2 themes_css static_css n1); discriminate.
  - intros H. inversion H; subst. cbn [said fs].
    unfold path_exists in *.
    rewrite (mkdir_p_frame _ themes_css _ _ Hm eq_refl) in Hx.
    repeat split; auto.
    unfold is_dir. destruct (mkdir_p_lookup _ _ _ Hm) as (es & ->). reflexivity.
Qed.

Lemma copy_css_assets_false_leaves_dir_witness :
  copy_css_assets env_bare (fresh_world empty_tree)
  = Ok false
      (said (fresh_world empty_tree) (fresh_dirs static_css_dir)
         ["❌ Source CSS file not found: /srv/site/src/themes/salford/assets/css/salford.css"]
         [c_copy_css_assets])
  /\ is_dir static_css_dir (fresh_dirs static_css_dir) = true
  /\ is_dir static_css_dir empty_tree = false.
Proof.
  assert (copy_css_assets env_bare (fresh_world empty_tree)
          = Ok false
              (said (fresh_world empty_tree) (fresh_dirs static_css_dir)
                 ["❌ Source CSS file not found: /srv/site/src/themes/salford/assets/css/salford.css"]
                 [c_copy_css_assets])) as H by reflexivity.
  split; [exact H|]. split; [|reflexivity].
  exact (proj2 (proj2 (copy_css_assets_false_leaves_dir _ _ _ H))).
Defined.

(** C3, as the code has it.  In every state in which the source CSS file
    exists and the destination path [static/salford/css/salford.css] is
    not a directory: after [copy_css_assets] returns, it has returned
    true, the source is a regular file, and the destination is a regular
    file with the same bytes; and the call does return when moreover no
    regular file sits at [static], [static/salford] or
    [static/salford/css] and the source is not a directory. *)
Theorem copy_css_assets_round_trip (env : Env) (w : World) :
  path_exists themes_css (fs w) = true ->
  is_dir static_css (fs w) = false ->
  (forall b w',
     copy_css_assets env w = Ok b w' ->
     b = true /\
     exists d, lookup themes_css (fs w) = Some (File d) /\
               lookup static_css (fs w') = Some (File d)) /\
  (clear static_css_dir (fs w) = true ->
   is_dir themes_css (fs w) = false ->
   exists w', copy_css_assets env w = Ok true w').
Proof.
  intros Hsrc Hdst. split.
  - intros b w' H.
    destruct (copy_css_assets_returns env w w' b Hsrc Hdst H)
      as (-> & d & H1 & H2 & _). eauto.
  - intros Hclear Hfile. unfold path_exists, is_dir in *.
    destruct (lookup themes_css (fs w)) as [[d|es]|] eqn:L; try discriminate.
    eapply copy_css_assets_completes; eauto.
Qed.

Lemma copy_css_assets_round_trip_witness :
  path_exists themes_css (fs (fresh_world stale_tree)) = true /\
  is_dir static_css (fs (fresh_world stale_tree)) = false /\
  exists w',
    copy_css_assets env_bare (fresh_world stale_tree) = Ok true w' /\
    lookup static_css (fs w') = Some (File "body { margin: 0 }").
Proof.
  split; [reflexivity|]. split; [reflexivity|].
  destruct (copy_css_assets_round_trip env_bare (fresh_world stale_tree)
              eq_refl eq_refl) as [Hret Hrun].
  destruct (Hrun eq_refl eq_refl) as [w' Hw'].
  exists w'. split; [exact Hw'|].
  destruct (Hret _ _ Hw') as (_ & d & Hd & Hout).
  rewrite Hout. rewrite <- Hd. reflexivity.
Defined.

(** C3 as stated fails where the destination path is a directory:
    [shutil.copy2] then copies into that directory.  The call returns
    true, and [static/salford/css/salford.css] is still a directory; the
    bytes are one level further down. *)
Lemma copy_css_assets_into_directory :
  lookup themes_css css_is_dir_tree = Some (File "body { margin: 0 }") /\
  exists w',
    copy_css_assets env_bare (fresh_world css_is_dir_tree) = Ok true w' /\
    lookup static_css (fs w')
    = Some (Dir [("salford.css", File "body { margin: 0 }")]) /\
    lookup static_css (fs w') <> Some (File "body { margin: 0 }").
Proof.
  split; [reflexivity|]. eexists. split; [reflexivity|].
  split; [reflexivity|]. discriminate.
Qed.

(** C2.  For every pre-existing destination tree, if the source assets
    directory exists, [copy_all_assets] returns true and leaves
    [static/salford] an exact replica of the source tree: every path
    below it resolves as the same path below the source did, so what was
    only in the destination is gone; the source is untouched; and a
    second run returns true with the same destination tree. *)
Theorem copy_all_assets_exact_replica (env : Env) (w : World)
    (source_entries dest_entries : entries) :
  lookup themes_assets (fs w) = Some (Dir source_entries) ->
  lookup static_salford (fs w) = Some (Dir dest_entries) ->
  exists w1,
    copy_all_assets env w = Ok true w1 /\
    lookup static_salford (fs w1) = Some (Dir source_entries) /\
    (forall q, lookup (static_salford ++ q) (fs w1)
               = lookup (themes_assets ++ q) (fs w)) /\
    (forall q, lookup (themes_assets ++ q) (fs w) = None ->
               lookup (static_salford ++ q) (fs w1) = None) /\
    lookup themes_assets (fs w1) = Some (Dir source_entries) /\
    exists w2,
      copy_all_assets env w1 = Ok true w2 /\
      lookup static_salford (fs w2) = lookup static_salford (fs w1).
Proof.
  intros Hsrc Hdst.
  destruct (copy_all_assets_replica env w source_entries Hsrc)
    as (w1 & Hrun & Hrep & Hframe & _).
  { eapply lookup_dir_clear; eauto. }
  assert (forall q, lookup (static_salford ++ q) (fs w1)
                    = lookup (themes_assets ++ q) (fs w)) as Hpath.
  { intros q. now rewrite !lookup_app, Hrep, Hsrc. }
  assert (lookup themes_assets (fs w1) = Some (Dir source_entries)) as Hsrc1.
  { rewrite Hframe; auto. }
  exists w1. repeat split; auto.
  - intros q Hq. now rewrite Hpath.
  - destruct (copy_all_assets_replica env w1 source_entries Hsrc1)
      as (w2 & Hrun2 & Hrep2 & _).
    { eapply lookup_dir_clear; eauto. }
    exists w2. split; auto. congruence.
Qed.

Lemma copy_all_assets_exact_replica_witness :
  exists w1,
    copy_all_assets env_bare (fresh_world stale_tree) = Ok true w1 /\
    lookup static_salford (fs w1) = Some (Dir theme_assets_entries) /\
    lookup (static_salford ++ ["old"; "gone.css"]) (fs w1) = None /\
    lookup (static_salford ++ ["old"; "gone.css"]) stale_tree
    = Some (File "x").
Proof.
  destruct (copy_all_assets_exact_replica env_bare (fresh_world stale_tree)
              theme_assets_entries [("old", Dir [("gone.css", File "x")])]
              eq_refl eq_refl)
    as (w1 & Hrun & Hrep & _ & Hstale & _).
  exists w1. repeat split; auto.
Defined.

(** What is left of the tree after a completed [copy_css_assets]: the
    place of the full copy is a directory, and nothing outside
    [static/salford] has changed. *)
Lemma copy_css_assets_footprint (env : Env) (w w' : World) (b : bool) :
  copy_css_assets env w = Ok b w' ->
  clear static_css_dir (fs w) = true /\
  (exists es, lookup static_salford (fs w') = Some (Dir es)) /\
  (forall q, diverges static_salford q = true ->
             lookup q (fs w') = lookup q (fs w)).
Proof.
  rewrite copy_css_assets_unfold.
  destruct (mkdir_p static_css_dir (fs w)) as [e|n1] eqn:Hm; try discriminate.
  intros H. split; [eapply mkdir_p_clear; eauto|].
  assert (exists es, lookup static_salford n1 = Some (Dir es)) as Hdir.
  { destruct (mkdir_p_lookup _ _ _ Hm) as (es & Hcss).
    change static_css_dir with (static_salford ++ "css" :: []) in Hcss.
    eapply lookup_app_dir; eauto. }
  assert (forall q, diverges static_salford q = true ->
                    lookup q n1 = lookup q (fs w)) as Hf.
  { intros q Hq. eapply mkdir_p_frame; eauto.
    change static_css_dir with (static_salford ++ ["css"]).
    now apply diverges_app_l. }
  revert H. destruct (path_exists themes_css n1).
  - destruct (copy2 themes_css static_css n1) as [e|n2] eqn:Hc;
      try discriminate.
    intros H. inversion H; subst. cbn [said fs]. split.
    + apply copy2_inv in Hc as (d & _ & Hp).
      destruct (is_dir static_css n1).
      * change (static_css ++ [basename themes_css])
          with (static_salford ++ "css" :: ["salford.css"; "salford.css"]) in Hp.
        eapply put_prefix_dir; eauto.
      * change static_css
          with (static_salford ++ "css" :: ["salford.css"]) in Hp.
        eapply put_prefix_dir; eauto.
    + intros q Hq. rewrite <- Hf by assumption.
      eapply copy2_frame; eauto.
      change static_css with (static_salford ++ ["css"; "salford.css"]).
      now apply diverges_app_l.
  - intros H. inversion H; subst. cbn [said fs]. auto.
Qed.

Lemma build_simple_unfold (env : Env) (w : World) :
  build_simple env w =
  match copy_css_assets env
          (said w (fs w) ["📋 Starting simple build (copy assets only)..."]
             [c_build_simple]) with
  | Raise e w1 => Raise e w1
  | Ok _ w1 =>
      match copy_all_assets env w1 with
      | Raise e w2 => Raise e w2
      | Ok _ w2 => Ok tt (said w2 (fs w2) ["✅ Simple build completed!"] [])
      end
  end.
Proof.
  unfold build_simple, bind, trace, print, said. cbn [fs out calls].
  destruct (copy_css_assets env _) as [b w1|e w1]; auto.
  destruct (copy_all_assets env w1) as [b2 w2|e w2]; auto.
  now rewrite app_nil_r.
Qed.

(** C9.  With the source assets directory in place, a [build_simple]
    that completes leaves at [static/salford] the tree
    [copy_all_assets] alone produces from the same start, namely the
    replica of the source: the CSS-only copy that ran first leaves no
    mark on it, nor on anything outside [static/salford].
    [build_simple] completes when nothing stands in the way of the
    CSS-only copy (no regular file at [static], [static/salford] or
    [static/salford/css], no directory at the source or at the
    destination of the stylesheet).  It fails exactly when the CSS-only
    copy fails: it then ends with that exception, in the tree the
    CSS-only copy left, and [copy_all_assets] is not entered. *)
Theorem build_simple_is_copy_all (env : Env) (w : World) (es : entries) :
  lookup themes_assets (fs w) = Some (Dir es) ->
  (forall w1,
     build_simple env w = Ok tt w1 ->
     exists w2,
       copy_all_assets env w = Ok true w2 /\
       lookup static_salford (fs w1) = lookup static_salford (fs w2) /\
       lookup static_salford (fs w1) = Some (Dir es) /\
       (forall q, diverges static_salford q = true ->
                  lookup q (fs w1) = lookup q (fs w2))) /\
  (clear static_css_dir (fs w) = true ->
   is_dir themes_css (fs w) = false ->
   is_dir static_css (fs w) = false ->
   exists w1, build_simple env w = Ok tt w1) /\
  (forall e w1,
     build_simple env w = Raise e w1 ->
     calls w1 = calls w ++ [c_build_simple; c_copy_css_assets] /\
     exists w2, copy_css_assets env w = Raise e w2 /\ fs w1 = fs w2) /\
  (forall e w2,
     copy_css_assets env w = Raise e w2 ->
     exists w1, build_simple env w = Raise e w1 /\ fs w1 = fs w2).
Proof.
  intros Hsrc. split; [|split; [|split]].
  - intros w1. rewrite build_simple_unfold.
    destruct (copy_css_assets env _) as [b wa|e wa] eqn:Hcss; try discriminate.
    apply copy_css_assets_footprint in Hcss as (Hclear & (ds & Hdir) & Hf).
    cbn [said fs] in Hclear, Hf.
    assert (lookup themes_assets (fs wa) = Some (Dir es)) as Hsrca
      by (rewrite Hf; auto).
    destruct (copy_all_assets_replica env wa es Hsrca)
      as (wb & Hrunb & Hrepb & Hfb & _).
    { eapply lookup_dir_clear; eauto. }
    rewrite Hrunb. intros H. inversion H; subst. cbn [said fs].
    destruct (copy_all_assets_replica env w es Hsrc)
      as (w2 & Hrun2 & Hrep2 & Hf2 & _).
    { change static_css_dir with (static_salford ++ ["css"]) in Hclear.
      eapply clear_prefix; eauto. }
    exists w2. repeat split; auto; try congruence.
    intros q Hq. rewrite Hfb, Hf, Hf2; auto.
  - intros Hclear Hcss Hdst. rewrite build_simple_unfold.
    destruct (copy_css_assets_total env
                (said w (fs w)
                   ["📋 Starting simple build (copy assets only)..."]
                   [c_build_simple]))
      as (b & wa & Hrun & _); auto.
    rewrite Hrun.
    apply copy_css_assets_footprint in Hrun as (_ & (ds & Hdir) & Hf).
    cbn [said fs] in Hf.
    destruct (copy_all_assets_replica env wa es)
      as (wb & Hrunb & _).
    { rewrite Hf; auto. }
    { eapply lookup_dir_clear; eauto. }
    rewrite Hrunb. eauto.
  - intros e w1. rewrite build_simple_unfold.
    destruct (copy_css_assets env _) as [b wa|e' wa] eqn:Hcss.
    + apply copy_css_assets_footprint in Hcss as (_ & (ds & Hdir) & Hf).
      cbn [said fs] in Hf.
      destruct (copy_all_assets_replica env wa es)
        as (wb & Hrunb & _).
      { rewrite Hf; auto. }
      { eapply lookup_dir_clear; eauto. }
      rewrite Hrunb. discriminate.
    + intros H. inversion H; subst e' wa. clear H.
      rewrite copy_css_assets_unfold in Hcss |- *. cbn [said fs] in Hcss.
      destruct (mkdir_p static_css_dir (fs w)) as [e1|n1].
      { inversion Hcss; subst. cbn [said fs calls].
        rewrite <- app_assoc. eauto. }
      destruct (path_exists themes_css n1); [|discriminate].
      destruct (copy2 themes_css static_css n1) as [e2|n2]; [|discriminate].
      inversion Hcss; subst. cbn [said fs calls].
      rewrite <- app_assoc. eauto.
  - intros e w2 Hcss. rewrite build_simple_unfold.
    rewrite copy_css_assets_unfold in Hcss |- *. cbn [said fs].
    destruct (mkdir_p static_css_dir (fs w)) as [e1|n1].
    { inversion Hcss; subst. eauto. }
    destruct (path_exists themes_css n1); [|discriminate].
    destruct (copy2 themes_css static_css n1) as [e2|n2]; [|discriminate].
    inversion Hcss; subst. eauto.
Qed.

Lemma build_simple_is_copy_all_witness :
  exists w1 w2,
    build_simple env_bare (fresh_world stale_tree) = Ok tt w1 /\
    copy_all_assets env_bare (fresh_world stale_tree) = Ok true w2 /\
    lookup static_salford (fs w1) = lookup static_salford (fs w2) /\
    lookup static_salford (fs w1) = Some (Dir theme_assets_entries).
Proof.
  assert (lookup themes_assets (fs (fresh_world stale_tree))
          = Some (Dir theme_assets_entries)) as Hsrc by reflexivity.
  destruct (build_simple_is_copy_all env_bare (fresh_world stale_tree)
              theme_assets_entries Hsrc) as (Hsame & Hruns & _).
  destruct (Hruns eq_refl eq_refl eq_refl) as (w1 & Hrun).
  destruct (Hsame w1 Hrun) as (w2 & Hrun2 & Heq & Hrep & _).
  exists w1, w2. repeat split; assumption.
Defined.

(** With the source assets in place and a regular file at
    [static/salford/css], [build_simple] raises in the CSS-only copy
    and leaves the old tree at [static/salford], where
    [copy_all_assets] alone leaves the replica of the source. *)
Lemma build_simple_stops_before_copy_all :
  lookup themes_assets css_is_file_tree = Some (Dir theme_assets_entries) /\
  (exists w1,
     build_simple env_bare (fresh_world css_is_file_tree)
     = Raise FileExistsError w1 /\
     fs w1 = css_is_file_tree /\
     calls w1 = [c_build_simple; c_copy_css_assets]) /\
  (exists w2,
     copy_all_assets env_bare (fresh_world css_is_file_tree) = Ok true w2 /\
     lookup static_salford (fs w2) = Some (Dir theme_assets_entries)).
Proof.
  split; [reflexivity|]. split.
  - eexists. split; [vm_compute; reflexivity|]. split; reflexivity.
  - eexists. split; [vm_compute; reflexivity|]. reflexivity.
Qed.

(** * Mode dispatch *)

Lemma for_each_print (lines : list string) (w : World) :
  for_each lines print w = Ok tt (said w (fs w) lines []).
Proof.
  revert w. induction lines as [|l lines IH]; intros w.
  - unfold said. cbn. rewrite !app_nil_r. now destruct w.
  - cbn [for_each]. unfold bind at 1. unfold print at 1. rewrite IH.
    unfold said. cbn [fs out calls]. now rewrite <- app_assoc.
Qed.

Lemma show_help_run (w : World) :
  show_help w = Ok tt (said w (fs w) usage [c_show_help]).
Proof.
  unfold show_help, bind, trace. rewrite for_each_print.
  unfold said. cbn [fs out calls]. now rewrite app_nil_r.
Qed.

(** C7.  With no argument [main] does what it does with the token
    [copy], which is [build_simple]; with a token outside the six known
    ones it reports the token, prints the usage text, and does nothing
    else: the tree is as it was and the only call made is [show_help]. *)
Theorem main_dispatch (env : Env) (prog token : string) (rest : list string)
    (mtime0 : Z) (ticks : list tick) (w : World) :
  ~ In token known_modes ->
  main env [prog] mtime0 ticks w = main env [prog; "copy"] mtime0 ticks w /\
  main env [prog; "copy"] mtime0 ticks w = build_simple env w /\
  main env (prog :: token :: rest) mtime0 ticks w
  = Ok tt (said w (fs w) (("❌ Unknown mode: " ++ token)%string :: usage)
             [c_show_help]).
Proof.
  intros Hunknown. split; [reflexivity|]. split; [reflexivity|].
  unfold main.
  assert (forall m, In m known_modes -> String.eqb token m = false) as Hne.
  { intros m Hm. apply String.eqb_neq. intros ->. auto. }
  rewrite !Hne by (simpl; auto 10). cbn [orb].
  unfold bind, print. rewrite show_help_run.
  unfold said. cbn [fs out calls]. now rewrite <- app_assoc.
Qed.

Lemma main_dispatch_witness :
  ~ In "deploy" known_modes /\
  main env_bare ["build_assets.py"] 0 [] (fresh_world theme_tree)
  = main env_bare ["build_assets.py"; "copy"] 0 [] (fresh_world theme_tree) /\
  main env_bare ["build_assets.py"; "deploy"] 0 [] (fresh_world theme_tree)
  = Ok tt (said (fresh_world theme_tree) theme_tree
             ("❌ Unknown mode: deploy" :: usage) [c_show_help]).
Proof.
  assert (~ In "deploy" known_modes) as H.
  { simpl. intros [H|[H|[H|[H|[H|[H|[]]]]]]]; discriminate. }
  split; [exact H|].
  destruct (main_dispatch env_bare "build_assets.py" "deploy" [] 0 []
              (fresh_world theme_tree) H) as (H1 & _ & H3).
  split; [exact H1 | exact H3].
Defined.

(** * What the library calls can raise *)

Lemma resolve_raises (p : path) (n : node) (e : exn) :
  resolve p n = inl e -> os_error e = true.
Proof.
  revert n. induction p as [|x p IH]; intros [d|es]; simpl; try discriminate.
  - intros H. now inversion H.
  - destruct (get_entry x es); eauto. intros H. now inversion H.
Qed.

Lemma at_entry_raises (x : string) f (n : node) (e : exn) :
  at_entry x f n = inl e ->
  (forall oc e', f oc = inl e' -> os_error e' = true) ->
  os_error e = true.
Proof.
  unfold at_entry. destruct n as [d|es].
  - intros H _. now inversion H.
  - destruct (f (get_entry x es)) as [e'|[c|]] eqn:F; try discriminate.
    intros H Hf. inversion H; subst. eauto.
Qed.

Lemma mkdir_p_raises (p : path) (n : node) (e : exn) :
  mkdir_p p n = inl e -> os_error e = true.
Proof.
  revert n e. induction p as [|x p IH]; intros n e; simpl.
  - destruct n; try discriminate. intros H. now inversion H.
  - intros H. eapply at_entry_raises; eauto.
    intros [c|] e'; [|intros H'; inversion H'].
    destruct (mkdir_p p c) eqn:M; [|intros H'; inversion H'].
    intros H'. inversion H'; subst. eauto.
Qed.

Lemma put_raises (p : path) (v n : node) (e : exn) :
  put p v n = inl e -> os_error e = true.
Proof.
  revert n e. induction p as [|x p IH]; intros n e; simpl; try discriminate.
  intros H. eapply at_entry_raises; eauto.
  intros [c|] e'.
  - destruct (put p v c) eqn:M; [|intros H'; inversion H'].
    intros H'. inversion H'; subst. eauto.
  - destruct p; intros H'; now inversion H'.
Qed.

Lemma remove_raises (p : path) (n : node) (e : exn) :
  remove p n = inl e -> os_error e = true.
Proof.
  revert n e. induction p as [|x p IH]; intros n e; simpl.
  - intros H. now inversion H.
  - intros H. eapply at_entry_raises; eauto.
    intros [c|] e'.
    + destruct p as [|y p]; [intros H'; inversion H'|].
      destruct (remove (y :: p) c) eqn:M; [|intros H'; inversion H'].
      intros H'. inversion H'; subst. eauto.
    + intros H'. now inversion H'.
Qed.

Lemma write_bytes_raises (p : path) (d : string) (n : node) (e : exn) :
  write_bytes p d n = inl e -> os_error e = true.
Proof.
  unfold write_bytes.
  destruct (lookup p n) as [[d0|es]|]; eauto using put_raises.
  intros H. now inversion H.
Qed.

Lemma read_bytes_raises (p : path) (n : node) (e : exn) :
  read_bytes p n = inl e -> os_error e = true.
Proof.
  unfold read_bytes. destruct (resolve p n) as [e'|[d|es]] eqn:R;
    try discriminate; intros H; inversion H; subst; eauto using resolve_raises.
Qed.

Lemma copy2_raises (src dst : path) (n : node) (e : exn) :
  copy2 src dst n = inl e -> os_error e = true.
Proof.
  unfold copy2. destruct (read_bytes src n) eqn:R.
  - intros H. inversion H; subst. eauto using read_bytes_raises.
  - apply write_bytes_raises.
Qed.

Lemma rmtree_raises (p : path) (n : node) (e : exn) :
  rmtree p n = inl e -> os_error e = true.
Proof.
  unfold rmtree. destruct (resolve p n) as [e'|[d|es]] eqn:R.
  - intros H. inversion H; subst. eauto using resolve_raises.
  - intros H. now inversion H.
  - apply remove_raises.
Qed.

Lemma copytree_raises (src dst : path) (n : node) (e : exn) :
  copytree src dst n = inl e -> os_error e = true.
Proof.
  unfold copytree. destruct (resolve src n) as [e'|[d|es]] eqn:R.
  - intros H. inversion H; subst. eauto using resolve_raises.
  - intros H. now inversion H.
  - destruct (lookup dst n).
    + intros H. now inversion H.
    + destruct (mkdir_p dst n) eqn:M.
      * intros H. inversion H; subst. eauto using mkdir_p_raises.
      * apply put_raises.
Qed.

Lemma copy_css_assets_raises (env : Env) (w w' : World) (e : exn) :
  copy_css_assets env w = Raise e w' -> os_error e = true.
Proof.
  rewrite copy_css_assets_unfold.
  destruct (mkdir_p static_css_dir (fs w)) eqn:M.
  - intros H. inversion H; subst. eauto using mkdir_p_raises.
  - destruct (path_exists themes_css n); try discriminate.
    destruct (copy2 themes_css static_css n) eqn:C; try discriminate.
    intros H. inversion H; subst. eauto using copy2_raises.
Qed.

Lemma copy_all_assets_raises (env : Env) (w w' : World) (e : exn) :
  copy_all_assets env w = Raise e w' -> os_error e = true.
Proof.
  rewrite copy_all_assets_unfold.
  destruct (path_exists themes_assets (fs w)); try discriminate.
  destruct (if path_exists static_salford (fs w) then _ else _) eqn:R.
  - intros H. inversion H; subst.
    destruct (path_exists static_salford (fs w)); try discriminate.
    eauto using rmtree_raises.
  - destruct (copytree themes_assets static_salford n) eqn:C; try discriminate.
    intros H. inversion H; subst. eauto using copytree_raises.
Qed.

Lemma copy_css_assets_calls (env : Env) (w : World) :
  calls (world_of (copy_css_assets env w)) = calls w ++ [c_copy_css_assets].
Proof.
  rewrite copy_css_assets_unfold.
  destruct (mkdir_p static_css_dir (fs w)); auto.
  destruct (path_exists themes_css n); auto.
  destruct (copy2 themes_css static_css n); auto.
Qed.

Lemma copy_all_assets_calls (env : Env) (w : World) :
  calls (world_of (copy_all_assets env w)) = calls w ++ [c_copy_all_assets].
Proof.
  rewrite copy_all_assets_unfold.
  destruct (path_exists themes_assets (fs w)); auto.
  destruct (if path_exists static_salford (fs w) then _ else _); auto.
  destruct (copytree themes_assets static_salford n); auto.
Qed.

(** * The watcher *)

Lemma advances_triggers (last : Z) (observed : list Z) :
  advances last observed
  = map (triggers last observed) (seq 0 (length observed)).
Proof.
  revert last. induction observed as [|m rest IH]; intros last; auto.
  cbn [advances length seq map].
  assert (forall last', last' = (if (m >? last)%Z then m else last) ->
            advances last' rest
            = map (triggers last (m :: rest)) (seq 1 (length rest))) as Hrest.
  { intros last' ->. rewrite IH, <- seq_shift, map_map.
    apply map_ext. intros i. unfold triggers. reflexivity. }
  assert (triggers last (m :: rest) 0 = (m >? last)%Z) as -> by reflexivity.
  destruct (m >? last)%Z eqn:E.
  - now rewrite (Hrest m eq_refl).
  - now rewrite (Hrest last eq_refl).
Qed.

Lemma watch_loop_calls (env : Env) (ticks : list tick) (last : Z)
    (w w' : World) :
  watch_loop env themes_css ticks last w = Raise KeyboardInterrupt w' ->
  calls w' = calls w
             ++ flat_map poll_calls (advances last (map st_mtime ticks)).
Proof.
  revert last w. induction ticks as [|t ticks IH]; intros last w.
  - cbn. intros H. inversion H; subst. now rewrite app_nil_r.
  - cbn [watch_loop map advances].
    unfold bind at 1. unfold stat_st_mtime, bind, trace, fs_read.
    cbn [fs out calls].
    destruct (resolve themes_css (fs w)) as [e|v] eqn:R.
    { intros H. inversion H; subst.
      apply resolve_raises in R. discriminate. }
    destruct (st_mtime t >? last)%Z.
    + unfold print at 1. cbn [fs out calls].
      match goal with
      | |- context [copy_css_assets env ?W] =>
          pose proof (copy_css_assets_calls env W) as Hcalls;
          destruct (copy_css_assets env W) as [copied w1|e w1] eqn:Hc
      end.
      * cbn [world_of calls] in Hcalls.
        assert (forall w2, calls w2 = calls w1 ->
                  sleep (edit t) w2
                  = Ok tt {| fs := edit t (fs w2); out := out w2;
                             calls := calls w1 ++ [c_sleep] |}) as Hsleep.
        { intros w2 E. unfold sleep, bind, trace, fs_op. cbn. now rewrite E. }
        intros H.
        assert (exists w2, calls w2 = calls w1 ++ [c_sleep] /\
                  watch_loop env themes_css ticks (st_mtime t) w2
                  = Raise KeyboardInterrupt w') as (w2 & Hw2 & Hloop).
        { destruct copied; unfold print, ret in H;
            rewrite Hsleep in H by reflexivity;
            (eexists; split; [|exact H]; reflexivity). }
        rewrite (IH _ _ Hloop), Hw2, Hcalls. cbn [flat_map poll_calls].
        rewrite <- !app_assoc. reflexivity.
      * intros H. inversion H; subst.
        apply copy_css_assets_raises in Hc. discriminate.
    + unfold sleep, bind, trace, fs_op. cbn [fs out calls].
      intros H. rewrite (IH _ _ H). cbn [calls flat_map poll_calls].
      rewrite <- !app_assoc. reflexivity.
Qed.

(** The same, for every run of the loop, however it ends: the polls
    that went through follow the rule, and a poll that raised did so at
    its [stat], or in the copy that an advance had triggered. *)
Lemma watch_loop_polls (env : Env) (ticks : list tick) (last : Z)
    (w : World) :
  exists k tail,
    k <= length ticks /\
    calls (world_of (watch_loop env themes_css ticks last w))
    = calls w
      ++ flat_map poll_calls (advances last (firstn k (map st_mtime ticks)))
      ++ tail /\
    (tail = [] /\ k = length ticks \/
     k < length ticks /\
     (tail = [c_stat] \/
      tail = [c_stat; c_copy_css_assets] /\
      nth k (advances last (map st_mtime ticks)) false = true)).
Proof.
  revert last w. induction ticks as [|t ticks IH]; intros last w.
  - exists 0, []. cbn. rewrite app_nil_r. auto.
  - cbn [watch_loop map].
    unfold bind at 1. unfold stat_st_mtime, bind, trace, fs_read.
    cbn [fs out calls].
    destruct (resolve themes_css (fs w)) as [e|v] eqn:R.
    { exists 0, [c_stat]. cbn. split; [lia|]. split; [reflexivity|].
      right. split; [lia|auto]. }
    cbn [advances].
    destruct (st_mtime t >? last)%Z eqn:E.
    + unfold print at 1. cbn [fs out calls].
      match goal with
      | |- context [copy_css_assets env ?W] =>
          pose proof (copy_css_assets_calls env W) as Hcalls;
          destruct (copy_css_assets env W) as [copied w1|e w1] eqn:Hc
      end; cbn [world_of calls] in Hcalls.
      * assert (exists w2, calls w2 = calls w1 ++ [c_sleep] /\
                  ((if copied then print "✅ CSS updated successfully!"
                    else ret tt) w1
                   = Ok tt {| fs := fs w1; out := out w2; calls := calls w1 |})
                  /\ fs w2 = edit t (fs w1)) as (w2 & Hw2 & Hp & Hfs2).
        { destruct copied; unfold print, ret.
          - exists {| fs := edit t (fs w1);
                      out := out w1 ++ ["✅ CSS updated successfully!"];
                      calls := calls w1 ++ [c_sleep] |}. auto.
          - exists {| fs := edit t (fs w1); out := out w1;
                      calls := calls w1 ++ [c_sleep] |}.
            cbn. destruct w1; auto. }
        rewrite Hp. unfold sleep, bind, trace, fs_op. cbn [fs out calls].
        destruct (IH (st_mtime t)
                    {| fs := edit t (fs w1); out := out w2;
                       calls := calls w1 ++ [c_sleep] |})
          as (k & tail & Hk & Hc' & Hcase).
        exists (S k), tail. split; [cbn; lia|]. split.
        -- rewrite Hc'. cbn [calls firstn advances]. rewrite E.
           cbn [flat_map poll_calls]. rewrite Hcalls.
           rewrite <- !app_assoc. reflexivity.
        -- cbn [length nth]. destruct Hcase as [[-> ->]|[Hlt Hcase]]; auto.
           right. split; [lia|]. exact Hcase.
      * exists 0, [c_stat; c_copy_css_assets]. cbn [length firstn advances
          flat_map world_of nth app]. split; [lia|]. split.
        -- rewrite Hcalls, <- app_assoc. reflexivity.
        -- right. split; [lia|auto].
    + unfold sleep, bind, trace, fs_op. cbn [fs out calls].
      destruct (IH last
                  {| fs := edit t (fs w); out := out w;
                     calls := (calls w ++ [c_stat]) ++ [c_sleep] |})
        as (k & tail & Hk & Hc' & Hcase).
      exists (S k), tail. split; [cbn; lia|]. split.
      * rewrite Hc'. cbn [calls firstn advances]. rewrite E.
        cbn [flat_map poll_calls]. rewrite <- !app_assoc. reflexivity.
      * cbn [length nth]. destruct Hcase as [[-> ->]|[Hlt Hcase]]; auto.
        right. split; [lia|]. exact Hcase.
Qed.

Lemma count_copy_calls (ds : list bool) :
  length (filter is_copy_call (flat_map poll_calls ds))
  = length (filter (fun d => d) ds).
Proof.
  induction ds as [|[|] ds IH]; cbn; auto.
Qed.

Lemma watch_and_copy_unfold (env : Env) (mtime0 : Z) (ticks : list tick)
    (w : World) :
  watch_and_copy env mtime0 ticks w =
  if path_exists themes_css (fs w) then
    match watch_loop env themes_css ticks mtime0
            (said w (fs w)
               [("👀 Watching for changes in: " ++ str env themes_css)%string;
                "Press Ctrl+C to stop watching"]
               [c_watch_and_copy; c_stat]) with
    | Ok a w1 => Ok a w1
    | Raise e w1 =>
        if is_KeyboardInterrupt e
        then Ok tt (said w1 (fs w1)
                      [String LF "👋 Stopped watching for changes"] [])
        else Raise e w1
    end
  else
    Ok tt (said w (fs w)
             [("❌ Source CSS file not found: " ++ str env themes_css)%string]
             [c_watch_and_copy]).
Proof.
  unfold watch_and_copy, bind at 1, trace at 1. fold themes_css.
  unfold bind at 1, exists_ at 1. cbn [fs out calls].
  destruct (path_exists themes_css (fs w)) eqn:Hsrc; cbn [negb]; auto.
  unfold stat_st_mtime, try_except_KeyboardInterrupt, bind, print, trace,
    fs_read, said. cbn [fs out calls].
  unfold path_exists in Hsrc.
  destruct (lookup themes_css (fs w)) as [v|] eqn:L; try discriminate.
  apply resolve_lookup in L. rewrite L. rewrite <- !app_assoc. cbn [app].
  destruct (watch_loop env themes_css ticks mtime0 _) as [a w1|e w1]; auto.
  destruct (is_KeyboardInterrupt e); auto. now rewrite app_nil_r.
Qed.

Lemma watch_loop_never_returns (env : Env) (ticks : list tick) (last : Z)
    (w w' : World) (a : unit) :
  watch_loop env themes_css ticks last w <> Ok a w'.
Proof.
  revert last w. induction ticks as [|t ticks IH]; intros last w;
    cbn [watch_loop]; try discriminate.
  unfold bind at 1.
  destruct (stat_st_mtime themes_css (st_mtime t) w) as [m w1|]; try discriminate.
  destruct (m >? last)%Z.
  - unfold bind at 1. destruct (print _ w1) as [? w2|]; try discriminate.
    unfold bind at 1.
    destruct (copy_css_assets env w2) as [copied w3|]; try discriminate.
    unfold bind at 1.
    assert (exists w4, (if copied then print "✅ CSS updated successfully!"
                        else ret tt) w3 = Ok tt w4) as (w4 & ->)
      by (destruct copied; unfold print, ret; eauto).
    unfold bind at 1. destruct (sleep (edit t) w4); try discriminate.
    apply IH.
  - unfold bind at 1. destruct (sleep (edit t) w1); try discriminate.
    apply IH.
Qed.




(** * The script concatenator *)

Lemma process_js_unfold (env : Env) (dj : Django) (w : World) :
  django env = Some dj ->
  process_js env w =
  match mkdir_p static_js_dir (fs w) with
  | inl e => Raise e (said w (fs w) [] [c_process_js])
  | inr n1 =>
      match filter (fun p => path_exists p n1) js_sources with
      | [] => Ok tt (said w n1 ["⚠️  No JS files found to process"]
                       [c_process_js])
      | src :: more =>
          match open_w static_js n1 with
          | inl e => Raise e (said w n1 [] [c_process_js])
          | inr n2 =>
              match for_each (src :: more)
                      (fun src_file =>
                         text <- fs_read (read_text src_file) ;;
                         fs_op (append_bytes static_js text))
                      (said w n2 [] [c_process_js]) with
              | Raise e w' => Raise e w'
              | Ok _ w' =>
                  Ok tt (said w' (fs w')
                           [("✅ Processed JS files -> "
                               ++ str env static_js)%string] [])
              end
          end
      end
  end.
Proof.
  intros Hdj. unfold process_js, DJANGO_AVAILABLE. rewrite Hdj.
  cbn [is_some negb]. fold js_sources static_js.
  change (removelast static_js) with static_js_dir.
  unfold bind at 1, trace at 1. unfold bind at 1, fs_op at 1.
  cbn [fs out calls].
  destruct (mkdir_p static_js_dir (fs w)) as [e|n1]; cbn [fs out calls].
  { unfold said. now rewrite app_nil_r. }
  unfold bind at 1. cbn [fs out calls].
  destruct (filter (fun p => path_exists p n1) js_sources) as [|src more].
  { reflexivity. }
  unfold bind at 1, fs_op at 1. cbn [fs out calls].
  destruct (open_w static_js n1) as [e|n2]; cbn [fs out calls].
  { unfold said. now rewrite app_nil_r. }
  unfold bind at 1.
  assert (said w n2 [] [c_process_js]
          = {| fs := n2; out := out w; calls := calls w ++ [c_process_js] |})
    as -> by (unfold said; now rewrite app_nil_r).
  destruct (for_each _ _ _) as [[] w'|e w']; auto.
  unfold print, said. now rewrite app_nil_r.
Qed.

Lemma string_app_nil_r (s : string) : (s ++ EmptyString)%string = s.
Proof. induction s; cbn; congruence. Qed.

Lemma string_app_assoc (s t u : string) :
  ((s ++ t) ++ u)%string = (s ++ t ++ u)%string.
Proof. induction s; cbn; congruence. Qed.

(** The loop of [process_js]: every source that decodes adds its text to
    the end of the destination file. *)
Lemma append_loop (dest : path) (srcs : list path) (w : World) (acc : string) :
  lookup dest (fs w) = Some (File acc) ->
  (forall p, In p srcs -> diverges dest p = true /\ utf8_file (fs w) p) ->
  exists n',
    for_each srcs
      (fun src_file =>
         text <- fs_read (read_text src_file) ;;
         fs_op (append_bytes dest text)) w
    = Ok tt {| fs := n'; out := out w; calls := calls w |} /\
    lookup dest n'
    = Some (File (acc ++ concat_text (map (text_at (fs w)) srcs))) /\
    (forall q, diverges dest q = true -> lookup q n' = lookup q (fs w)).
Proof.
  revert w acc. induction srcs as [|s srcs IH]; intros w acc Hdest Hsrcs.
  - exists (fs w). cbn. repeat split; auto.
    + now destruct w.
    + rewrite Hdest. cbn. now rewrite string_app_nil_r.
  - destruct (Hsrcs s (or_introl eq_refl)) as (Hdiv & d & Hd & Hvalid).
    destruct (put_ok dest (File (acc ++ universal_newlines d)) _ _ Hdest)
      as (n1 & Hput).
    cbn [for_each]. unfold bind at 1. unfold bind at 1, fs_read at 1.
    unfold read_text. apply read_bytes_inv in Hd as Hread. rewrite Hread, Hvalid.
    unfold fs_op at 1, append_bytes. rewrite Hdest, Hput.
    destruct (IH {| fs := n1; out := out w; calls := calls w |}
                (acc ++ universal_newlines d)%string)
      as (n' & Hrun & Hout & Hframe).
    { eapply put_lookup; eauto. }
    { intros p Hp. destruct (Hsrcs p (or_intror Hp)) as (Hpd & d' & Hd' & Hv').
      split; auto. exists d'. split; auto. cbn [fs].
      now rewrite (put_frame _ _ _ _ _ Hput Hpd). }
    cbn [fs out calls] in *. exists n'. split; [exact Hrun|]. split.
    + rewrite Hout. do 2 f_equal. cbn [map concat_text fold_right].
      unfold text_at at 2. rewrite Hd.
      assert (map (text_at n1) srcs = map (text_at (fs w)) srcs) as ->.
      { apply map_ext_in. intros p Hp. unfold text_at.
        destruct (Hsrcs p (or_intror Hp)) as (Hpd & _).
        now rewrite (put_frame _ _ _ _ _ Hput Hpd). }
      apply string_app_assoc.
    + intros q Hq. rewrite Hframe by auto. eapply put_frame; eauto.
Qed.

Lemma js_sources_diverge (p : path) :
  In p js_sources ->
  diverges static_js p = true /\ diverges static_js_dir p = true.
Proof.
  intros H. repeat (destruct H as [<-|H]; [split; reflexivity|]).
  destruct H.
Qed.

(** C4, as the code has it.  With the framework available, in every
    state in which [static/salford/js] can be created, [app.js] there is
    not a directory, and each of the six listed paths is either absent
    or a regular file of well-formed UTF-8: [process_js] returns; if at
    least one listed file exists, [static/salford/js/app.js] then holds
    the texts of the existing files, as Python reads them (decoded, line
    ends normalised), one after the other in the order of the list, and
    nothing for a missing file; if none exists, it warns and writes no
    file (the directory has been created all the same). *)
Theorem process_js_concatenates (env : Env) (dj : Django) (w : World) :
  django env = Some dj ->
  clear static_js_dir (fs w) = true ->
  is_dir static_js (fs w) = false ->
  (forall p, In p js_sources -> lookup p (fs w) = None \/ utf8_file (fs w) p) ->
  let existing := filter (fun p => path_exists p (fs w)) js_sources in
  exists w',
    process_js env w = Ok tt w' /\
    (forall q, diverges static_js_dir q = true ->
               lookup q (fs w') = lookup q (fs w)) /\
    match existing with
    | [] =>
        mkdir_p static_js_dir (fs w) = inr (fs w') /\
        lookup static_js (fs w') = lookup static_js (fs w) /\
        out w' = out w ++ ["⚠️  No JS files found to process"]
    | _ :: _ =>
        lookup static_js (fs w')
        = Some (File (concat_text (map (text_at (fs w)) existing))) /\
        out w' = out w ++ [("✅ Processed JS files -> "
                              ++ str env static_js)%string]
    end.
Proof.
  intros Hdj Hclear Hdest Hsrcs existing.
  rewrite (process_js_unfold env dj w Hdj).
  destruct (mkdir_p_ok _ _ Hclear) as (n1 & Hm). rewrite Hm.
  assert (forall q, diverges static_js_dir q = true ->
                    lookup q n1 = lookup q (fs w)) as Hf1
    by (intros; eapply mkdir_p_frame; eauto).
  assert (lookup static_js n1 = lookup static_js (fs w)) as Hdest1.
  { change static_js with (static_js_dir ++ "app.js" :: []).
    eapply mkdir_p_below; eauto. }
  assert (filter (fun p => path_exists p n1) js_sources = existing) as ->.
  { apply filter_ext_in. intros p Hp. unfold path_exists.
    rewrite Hf1; auto. now apply js_sources_diverge. }
  destruct existing as [|src more] eqn:Hex.
  { eexists. split; [reflexivity|]. cbn [said fs out]. auto. }
  destruct (mkdir_p_lookup _ _ _ Hm) as (es & Hdir).
  destruct (put_ok_child static_js_dir "app.js" (File EmptyString) _ _ Hdir)
    as (n2 & Hput).
  change (static_js_dir ++ ["app.js"]) with static_js in Hput.
  assert (open_w static_js n1 = inr n2) as ->.
  { unfold open_w, write_bytes. rewrite Hdest1. unfold is_dir in Hdest.
    destruct (lookup static_js (fs w)) as [[d|es']|]; try discriminate; auto. }
  assert (forall q, diverges static_js_dir q = true ->
                    lookup q n2 = lookup q (fs w)) as Hf2.
  { intros q Hq. rewrite <- Hf1 by auto. eapply put_frame; eauto.
    change static_js with (static_js_dir ++ ["app.js"]).
    now apply diverges_app_l. }
  assert (forall p, In p (src :: more) ->
            In p js_sources /\ utf8_file (fs w) p) as Hin.
  { intros p Hp. rewrite <- Hex in Hp. apply filter_In in Hp as [Hp Hx].
    split; auto. destruct (Hsrcs p Hp) as [Hnone|]; auto.
    unfold path_exists in Hx. now rewrite Hnone in Hx. }
  destruct (append_loop static_js (src :: more)
              (said w n2 [] [c_process_js]) EmptyString)
    as (n' & Hrun & Hout & Hframe).
  { cbn [said fs]. eapply put_lookup; eauto. }
  { intros p Hp. destruct (Hin p Hp) as (Hp' & d & Hd & Hv).
    destruct (js_sources_diverge p Hp') as [D1 D2].
    split; auto. exists d. cbn [said fs]. rewrite Hf2; auto. }
  rewrite Hrun. eexists. split; [reflexivity|]. cbn [said fs out].
  split; [|split].
  - intros q Hq. rewrite <- Hf2 by auto. apply Hframe.
    change static_js with (static_js_dir ++ ["app.js"]).
    now apply diverges_app_l.
  - rewrite Hout. cbn [append]. do 3 f_equal.
    apply map_ext_in. intros p Hp. unfold text_at.
    destruct (Hin p Hp) as (Hp' & _).
    rewrite Hf2; auto. now apply js_sources_diverge.
  - now rewrite !app_nil_r.
Qed.

Lemma process_js_concatenates_witness :
  exists w',
    process_js env_full (fresh_world js_tree) = Ok tt w' /\
    lookup static_js (fs w')
    = Some (File (String "a" (String LF "b") ++ "f();" ++ "t();")).
Proof.
  assert (forall p, In p js_sources ->
            lookup p js_tree = None \/ utf8_file js_tree p) as Hsrcs.
  { intros p H.
    repeat (destruct H as [<-|H];
            [first [ left; reflexivity
                   | right; eexists; split; reflexivity ]|]).
    destruct H. }
  destruct (process_js_concatenates env_full _ (fresh_world js_tree)
              eq_refl eq_refl eq_refl Hsrcs) as (w' & Hrun & _ & Hout & _).
  exists w'. split; [exact Hrun | exact Hout].
Defined.

(** C4 as stated fails on files the text layer does not pass through
    unchanged.  A listed script that is not UTF-8 (here one Latin-1 byte)
    makes [process_js] raise [UnicodeDecodeError], leaving an empty
    [app.js]; and line ends CR LF arrive as LF, so the destination is not
    the concatenation of the bytes of the sources.  And with no listed
    file at all, the call still creates [static/salford/js]. *)
Lemma process_js_text_layer :
  (filter (fun p => path_exists p latin1_tree) js_sources
   = [["themes"; "salford"; "assets"; "js"; "app.js"]] /\
   exists w',
     process_js env_full (fresh_world latin1_tree)
     = Raise UnicodeDecodeError w' /\
     lookup static_js (fs w') = Some (File EmptyString)) /\
  (lookup ["themes"; "salford"; "assets"; "js"; "admin.js"] js_tree
   = Some (File (String "a" (String CR (String LF "b")))) /\
   exists w',
     process_js env_full (fresh_world js_tree) = Ok tt w' /\
     lookup static_js (fs w')
     = Some (File (String "a" (String LF "b") ++ "f();" ++ "t();")) /\
     lookup static_js (fs w')
     <> Some (File (String "a" (String CR (String LF "b")) ++ "f();" ++ "t();"))) /\
  (exists w',
     process_js env_full (fresh_world empty_tree) = Ok tt w' /\
     out w' = ["⚠️  No JS files found to process"] /\
     fs w' = fresh_dirs static_js_dir /\
     fs w' <> empty_tree).
Proof.
  split; [|split].
  - split; [reflexivity|]. eexists.
    split; [vm_compute; reflexivity | reflexivity].
  - split; [reflexivity|]. eexists. split; [vm_compute; reflexivity|].
    split; [reflexivity|]. discriminate.
  - eexists. split; [vm_compute; reflexivity|].
    split; [reflexivity|]. split; [reflexivity|]. discriminate.
Qed.

(** * The override processor *)

Lemma list_ascii_of_string_app (s t : string) :
  list_ascii_of_string (s ++ t)
  = list_ascii_of_string s ++ list_ascii_of_string t.
Proof. induction s; cbn; congruence. Qed.

Lemma string_app_inv_tail (s s' t : string) :
  (s ++ t)%string = (s' ++ t)%string -> s = s'.
Proof.
  intros H. apply (f_equal list_ascii_of_string) in H.
  rewrite !list_ascii_of_string_app in H. apply app_inv_tail in H.
  apply (f_equal string_of_list_ascii) in H.
  now rewrite !string_of_list_ascii_of_string in H.
Qed.

(** Two tenants with the same output file have the same directory. *)
Lemma override_name_dir (j j' : Journal) :
  override_name j = override_name j' -> journal_dir j = journal_dir j'.
Proof.
  unfold override_name, journal_dir. intros H.
  cbn in H. injection H as H. apply string_app_inv_tail in H. now rewrite H.
Qed.

Lemma diverges_siblings (dir : path) (a b : string) :
  a <> b -> diverges (dir ++ [a]) (dir ++ [b]) = true.
Proof.
  intros Hab. induction dir as [|x dir IH]; cbn.
  - apply String.eqb_neq in Hab. now rewrite Hab.
  - now rewrite String.eqb_refl.
Qed.

Lemma diverges_from_files (dir r q : path) :
  diverges dir ["files"] = true -> diverges (dir ++ r) ("files" :: q) = true.
Proof.
  destruct dir as [|x dir]; cbn; try discriminate.
  destruct (String.eqb x "files"); auto. destruct dir; discriminate.
Qed.

(** The tenant directories are out of reach of a write below [dir]. *)
Lemma scss_files_frame (n n' : node) (j : Journal) :
  lookup (journal_dir j) n' = lookup (journal_dir j) n ->
  scss_files n' j = scss_files n j.
Proof. unfold scss_files. now intros ->. Qed.

Section Overrides.

Variable env : Env.
Variable dj : Django.
Variable compile : node -> string -> list string -> string + string.
Variable dir : path.
Variable paths : list path.
Hypothesis Hdj : django env = Some dj.
Hypothesis Hsass : sass env = Some compile.
Hypothesis Hdir : diverges dir ["files"] = true.

Lemma process_journals_unfold (w : World) :
  process_journals env dir paths w =
  match external (journals_all dj) with
  | inl e => Raise e (said w (fs w) [] [c_process_journals; c_journals_all])
  | inr js =>
      for_each js (journal_body env dir paths)
        (said w (fs w) [] [c_process_journals; c_journals_all])
  end.
Proof.
  unfold process_journals, DJANGO_AVAILABLE, SASS_AVAILABLE.
  rewrite Hdj, Hsass. cbn [is_some negb].
  unfold Journal_objects_all. rewrite Hdj.
  unfold bind, trace, fs_read, said. cbn [fs out calls].
  rewrite app_nil_r, <- app_assoc. cbn [app].
  destruct (external (journals_all dj)); reflexivity.
Qed.

(** One tenant: skipped, or its first stylesheet compiled and written. *)
Lemma journal_body_ok (j : Journal) (w w' : World) :
  journal_body env dir paths j w = Ok tt w' ->
  (scss_files (fs w) j = [] /\ w' = w) \/
  exists p rest css n2,
    scss_files (fs w) j = p :: rest /\
    compile (fs w) (str env p) (map (str env) paths) = inr css /\
    write_text (override_css_file dir j) css (fs w) = inr n2 /\
    calls w' = calls w ++ [c_sass_compile (str env p)] /\
    fs w' = n2.
Proof.
  unfold journal_body. fold (journal_dir j). fold (override_name j).
  fold (override_css_file dir j).
  unfold bind at 1, exists_, path_exists. unfold scss_files.
  destruct (lookup (journal_dir j) (fs w)) as [v|] eqn:L; cbn [is_some].
  - unfold bind at 1. unfold bind at 1, fs_read, iterdir.
    apply resolve_lookup in L. rewrite L.
    destruct v as [d|es]; try discriminate.
    unfold ret at 1.
    destruct (map _ (filter _ (map fst es))) as [|p rest] eqn:F.
    + unfold ret. intros H. inversion H. auto.
    + unfold bind at 1, print at 1. unfold bind at 1.
      unfold sass_compile. rewrite Hsass.
      unfold bind at 1, trace at 1, fs_read. cbn [fs out calls].
      destruct (compile (fs w) (str env p) (map (str env) paths))
        as [what|css] eqn:C; cbn [external]; try discriminate.
      unfold fs_op. cbn [fs out calls].
      destruct (write_text (override_css_file dir j) css (fs w))
        as [e|n2] eqn:W; try discriminate.
      intros H. inversion H; subst. right.
      exists p, rest, css, n2. cbn [fs calls]. auto.
  - unfold bind at 1, ret at 1. unfold ret. intros H. inversion H. auto.
Qed.

Lemma write_override_frame (j : Journal) (css : string) (n n2 : node)
    (q : path) :
  write_text (override_css_file dir j) css n = inr n2 ->
  diverges (override_css_file dir j) q = true ->
  lookup q n2 = lookup q n.
Proof.
  unfold write_text, write_bytes.
  destruct (lookup (override_css_file dir j) n) as [[d|es]|];
    try discriminate; intros H D; eapply put_frame; eauto.
Qed.

Lemma write_override_lookup (j : Journal) (css : string) (n n2 : node) :
  write_text (override_css_file dir j) css n = inr n2 ->
  lookup (override_css_file dir j) n2 = Some (File css).
Proof.
  unfold write_text, write_bytes.
  destruct (lookup (override_css_file dir j) n) as [[d|es]|];
    try discriminate; intros H; eapply put_lookup; eauto.
Qed.

Lemma scss_files_after_write (j j' : Journal) (css : string) (n n2 : node) :
  write_text (override_css_file dir j) css n = inr n2 ->
  scss_files n2 j' = scss_files n j'.
Proof.
  intros H. apply scss_files_frame.
  eapply write_override_frame; eauto.
  unfold override_css_file, journal_dir. now apply diverges_from_files.
Qed.

(** The loop over the tenants, for a run that completes. *)
Lemma journals_loop (js : list Journal) (w w' : World) :
  for_each js (journal_body env dir paths) w = Ok tt w' ->
  calls w' = calls w
             ++ map (fun p => c_sass_compile (str env p))
                  (compiled_files (fs w) js) /\
  (forall q,
     (forall j, In j js -> scss_files (fs w) j <> [] ->
                diverges (override_css_file dir j) q = true) ->
     lookup q (fs w') = lookup q (fs w)) /\
  (forall j p rest,
     In j js -> scss_files (fs w) j = p :: rest ->
     exists n css,
       compile n (str env p) (map (str env) paths) = inr css /\
       lookup (override_css_file dir j) (fs w') = Some (File css)).
Proof.
  revert w. induction js as [|j0 js IH]; intros w H.
  - cbn in H. inversion H; subst. cbn. rewrite app_nil_r.
    repeat split; auto. intros j p rest [].
  - cbn [for_each] in H. unfold bind at 1 in H.
    destruct (journal_body env dir paths j0 w) as [[] w1|e w1] eqn:Hstep;
      try discriminate.
    destruct (IH _ H) as (Hcalls & Hframe & Hout). clear IH.
    apply journal_body_ok in Hstep
      as [(Hnone & ->)|(p0 & rest0 & css0 & n2 & Hsome & Hc & Hw & Hcs & Hfs)].
    + (* the tenant is skipped *)
      split; [|split].
      * rewrite Hcalls. unfold compiled_files. cbn [flat_map].
        now rewrite Hnone.
      * intros q Hq. apply Hframe. intros j Hj. apply Hq. now right.
      * intros j p rest [<-|Hj] Hs; [congruence|]. eauto.
    + (* the tenant is processed *)
      assert (forall j', scss_files (fs w1) j' = scss_files (fs w) j') as Hsame.
      { intros j'. rewrite Hfs. eapply scss_files_after_write; eauto. }
      split; [|split].
      * rewrite Hcalls, Hcs. unfold compiled_files. cbn [flat_map].
        rewrite Hsome. cbn [firstn app map].
        rewrite <- app_assoc. cbn [app]. do 3 f_equal.
        apply flat_map_ext. intros j'. now rewrite Hsame.
      * intros q Hq. rewrite Hframe.
        -- rewrite Hfs. eapply write_override_frame; eauto.
           apply Hq; [now left | congruence].
        -- intros j Hj Hs. apply Hq; [now right | now rewrite <- Hsame].
      * intros j p rest Hin Hs.
        destruct (existsb (fun j' => String.eqb (override_name j')
                                       (override_name j)
                                     && negb (match scss_files (fs w) j' with
                                              | [] => true | _ => false end))
                    js) eqn:Ex.
        -- (* a later tenant writes the same file: the same stylesheet *)
           apply existsb_exists in Ex as (j' & Hj' & Hn).
           apply andb_true_iff in Hn as [Hn Hs'].
           apply String.eqb_eq in Hn.
           assert (scss_files (fs w) j' = p :: rest) as Hs''.
           { unfold scss_files in *.
             now rewrite (override_name_dir _ _ Hn). }
           destruct (Hout j' p rest Hj') as (n & css & Hcn & Hl).
           { now rewrite Hsame. }
           exists n, css. split; auto.
           unfold override_css_file in *. now rewrite <- Hn.
        -- (* no later tenant writes it *)
           assert (forall j', In j' js -> scss_files (fs w) j' <> [] ->
                     override_name j' <> override_name j) as Hne.
           { intros j' Hj' Hs' Hn.
             assert (existsb (fun j' => String.eqb (override_name j')
                                          (override_name j)
                                        && negb (match scss_files (fs w) j' with
                                                 | [] => true | _ => false end))
                       js = true) as Ex'.
             { apply existsb_exists. exists j'. split; auto.
               rewrite Hn, String.eqb_refl.
               destruct (scss_files (fs w) j'); [congruence|reflexivity]. }
             congruence. }
           assert (lookup (override_css_file dir j) (fs w')
                   = lookup (override_css_file dir j) (fs w1)) as Hkeep.
           { apply Hframe. intros j' Hj' Hs'.
             apply diverges_siblings. rewrite Hsame in Hs'. auto. }
           destruct Hin as [<-|Hin].
           ++ exists (fs w), css0. rewrite Hkeep, Hfs.
              assert (p = p0) as -> by congruence.
              split; auto. eapply write_override_lookup; eauto.
           ++ destruct (Hout j p rest Hin) as (n & css & Hcn & Hl);
                [now rewrite Hsame|]. eauto.
Qed.

End Overrides.




(** * Build mode without the collaborators *)

Lemma mkdir_p_keeps_dir (q p : path) (n n' : node) (es : entries) :
  mkdir_p q n = inr n' -> lookup p n = Some (Dir es) ->
  exists es', lookup p n' = Some (Dir es').
Proof.
  revert p n n' es. induction q as [|y q IH]; intros p n n' es H L.
  - simpl in H. destruct n; inversion H; subst; eauto.
  - destruct p as [|x p].
    + simpl in H. apply at_entry_inv in H as (es0 & oc & -> & _ & ->).
      simpl. eauto.
    + destruct (String.eqb y x) eqn:E.
      * apply String.eqb_eq in E. subst x. simpl in H.
        destruct (at_entry_same y _ n n' p H) as (es0 & oc & -> & Hf & ->).
        simpl in L. destruct (get_entry y es0) as [c|]; try discriminate.
        apply map_inr_inv in Hf as (c' & Hc & ->). eauto.
      * apply String.eqb_neq in E. simpl in H.
        rewrite (at_entry_other _ _ _ _ _ p H E). eauto.
Qed.

Lemma create_paths_unfold (w : World) :
  create_paths w =
  match mkdir_p ["static"; "salford"; "css"] (fs w) with
  | inl e => Raise e (said w (fs w) [] [c_create_paths])
  | inr n1 =>
  match mkdir_p ["static"; "salford"; "js"] n1 with
  | inl e => Raise e (said w n1 [] [c_create_paths])
  | inr n2 =>
  match mkdir_p ["static"; "salford"; "fonts"] n2 with
  | inl e => Raise e (said w n2 [] [c_create_paths])
  | inr n3 =>
  match mkdir_p ["static"; "salford"; "img"] n3 with
  | inl e => Raise e (said w n3 [] [c_create_paths])
  | inr n4 =>
  match mkdir_p ["static"; "salford"; "css"] n4 with
  | inl e => Raise e (said w n4 [] [c_create_paths])
  | inr n5 => Ok static_css_dir (said w n5 [] [c_create_paths])
  end end end end end.
Proof.
  unfold create_paths, bind, trace, fs_op, ret, said. cbn [for_each app].
  unfold bind, ret. cbn [fs out calls]. rewrite app_nil_r.
  destruct (mkdir_p _ (fs w)) as [e|n1]; cbn [fs out calls]; auto.
  destruct (mkdir_p _ n1) as [e|n2]; cbn [fs out calls]; auto.
  destruct (mkdir_p _ n2) as [e|n3]; cbn [fs out calls]; auto.
  destruct (mkdir_p _ n3) as [e|n4]; cbn [fs out calls]; auto.
  destruct (mkdir_p _ n4) as [e|n5]; cbn [fs out calls]; auto.
Qed.

Lemma create_paths_ok (w : World) :
  Forall (fun p => clear p (fs w) = true) static_folders ->
  exists wa,
    create_paths w = Ok static_css_dir wa /\
    calls wa = calls w ++ [c_create_paths] /\
    out wa = out w /\
    clear static_css_dir (fs wa) = true /\
    Forall (fun p => is_dir p (fs wa) = true) static_folders /\
    lookup static_css (fs wa) = lookup static_css (fs w) /\
    (forall q, diverges static_salford q = true ->
               lookup q (fs wa) = lookup q (fs w)).
Proof.
  intros Hclear.
  apply Forall_cons_iff in Hclear as [C1 Hclear].
  apply Forall_cons_iff in Hclear as [C2 Hclear].
  apply Forall_cons_iff in Hclear as [C3 Hclear].
  apply Forall_cons_iff in Hclear as [C4 _].
  cbn [app static_salford] in C1, C2, C3, C4.
  rewrite create_paths_unfold.
  destruct (mkdir_p_ok _ _ C1) as (n1 & H1). rewrite H1.
  destruct (mkdir_p_ok _ n1 (mkdir_p_keeps_clear _ _ _ _ H1 C2)) as (n2 & H2).
  rewrite H2.
  destruct (mkdir_p_ok _ n2 (mkdir_p_keeps_clear _ _ _ _ H2
              (mkdir_p_keeps_clear _ _ _ _ H1 C3))) as (n3 & H3).
  rewrite H3.
  destruct (mkdir_p_ok _ n3 (mkdir_p_keeps_clear _ _ _ _ H3
              (mkdir_p_keeps_clear _ _ _ _ H2
                 (mkdir_p_keeps_clear _ _ _ _ H1 C4)))) as (n4 & H4).
  rewrite H4.
  destruct (mkdir_p_lookup _ _ _ H1) as (e1 & L1).
  destruct (mkdir_p_lookup _ _ _ H2) as (e2 & L2).
  destruct (mkdir_p_lookup _ _ _ H3) as (e3 & L3).
  destruct (mkdir_p_lookup _ _ _ H4) as (e4 & L4).
  destruct (mkdir_p_ok ["static"; "salford"; "css"] n4) as (n5 & H5).
  { destruct (mkdir_p_keeps_dir _ _ _ _ _ H2 L1) as (? & L1').
    destruct (mkdir_p_keeps_dir _ _ _ _ _ H3 L1') as (? & L1'').
    destruct (mkdir_p_keeps_dir _ _ _ _ _ H4 L1'') as (? & L1''').
    eapply lookup_dir_clear; eauto. }
  rewrite H5. eexists. split; [reflexivity|]. cbn [said fs out calls].
  split; [reflexivity|]. split; [apply app_nil_r|].
  destruct (mkdir_p_lookup _ _ _ H5) as (e5 & L5).
  split; [eapply lookup_dir_clear; eauto|].
  split.
  - unfold is_dir. repeat constructor; cbn [app static_salford].
    + now rewrite L5.
    + destruct (mkdir_p_keeps_dir _ _ _ _ _ H3 L2) as (? & L').
      destruct (mkdir_p_keeps_dir _ _ _ _ _ H4 L') as (? & L'').
      destruct (mkdir_p_keeps_dir _ _ _ _ _ H5 L'') as (? & ->). reflexivity.
    + destruct (mkdir_p_keeps_dir _ _ _ _ _ H4 L3) as (? & L').
      destruct (mkdir_p_keeps_dir _ _ _ _ _ H5 L') as (? & ->). reflexivity.
    + destruct (mkdir_p_keeps_dir _ _ _ _ _ H5 L4) as (? & ->). reflexivity.
  - split.
    + change static_css with (["static"; "salford"; "css"] ++ "salford.css" :: []).
      rewrite (mkdir_p_below _ _ _ _ _ H5).
      cbn [app].
      rewrite (mkdir_p_frame _ ["static"; "salford"; "css"; "salford.css"]
                 _ _ H4 eq_refl).
      rewrite (mkdir_p_frame _ ["static"; "salford"; "css"; "salford.css"]
                 _ _ H3 eq_refl).
      rewrite (mkdir_p_frame _ ["static"; "salford"; "css"; "salford.css"]
                 _ _ H2 eq_refl).
      change ["static"; "salford"; "css"; "salford.css"]
        with (["static"; "salford"; "css"] ++ "salford.css" :: []).
      apply (mkdir_p_below _ _ _ _ _ H1).
    + intros q Hq.
      assert (forall f, diverges ["static"; "salford"; f] q = true) as D.
      { intros f. change ["static"; "salford"; f] with (static_salford ++ [f]).
        now apply diverges_app_l. }
      rewrite (mkdir_p_frame _ _ _ _ H5 (D _)).
      rewrite (mkdir_p_frame _ _ _ _ H4 (D _)).
      rewrite (mkdir_p_frame _ _ _ _ H3 (D _)).
      rewrite (mkdir_p_frame _ _ _ _ H2 (D _)).
      apply (mkdir_p_frame _ _ _ _ H1 (D _)).
Qed.

Lemma copy_all_assets_total (env : Env) (w : World) :
  clear static_salford (fs w) = true ->
  is_file themes_assets (fs w) = false ->
  exists b wb,
    copy_all_assets env w = Ok b wb /\
    (forall es, lookup themes_assets (fs w) = Some (Dir es) ->
                lookup static_salford (fs wb) = Some (Dir es)) /\
    (lookup themes_assets (fs w) = None -> fs wb = fs w) /\
    (forall q, diverges static_salford q = true ->
               lookup q (fs wb) = lookup q (fs w)).
Proof.
  intros Hclear Hsrc.
  destruct (lookup themes_assets (fs w)) as [[d|es]|] eqn:L.
  - unfold is_file in Hsrc. now rewrite L in Hsrc.
  - destruct (copy_all_assets_replica env w es L Hclear)
      as (wb & Hrun & Hrep & Hframe & _).
    exists true, wb. repeat split; auto; try discriminate.
    intros es' H. now inversion H; subst.
  - rewrite copy_all_assets_unfold. unfold path_exists. rewrite L.
    cbn [is_some]. eexists _, _. split; [reflexivity|].
    cbn [said fs]. repeat split; auto. discriminate.
Qed.

Lemma process_scss_no_django (env : Env) (w : World) :
  django env = None ->
  process_scss env w
  = Ok tt (said w (fs w)
             ["⚠️  Django not available, skipping SCSS processing"]
             [c_process_scss]).
Proof.
  intros H. unfold process_scss, DJANGO_AVAILABLE. now rewrite H.
Qed.

Lemma process_js_no_django (env : Env) (w : World) :
  django env = None ->
  process_js env w
  = Ok tt (said w (fs w)
             ["⚠️  Django not available, skipping JS processing"]
             [c_process_js]).
Proof.
  intros H. unfold process_js, DJANGO_AVAILABLE. now rewrite H.
Qed.

Lemma process_journals_no_django (env : Env) (dir : path)
    (paths : list path) (w : World) :
  django env = None ->
  process_journals env dir paths w
  = Ok tt (said w (fs w)
             ["⚠️  Django not available, skipping journal overrides"]
             [c_process_journals]).
Proof.
  intros H. unfold process_journals, DJANGO_AVAILABLE. now rewrite H.
Qed.

Lemma process_scss_no_sass (env : Env) (dj : Django) (w : World) :
  django env = Some dj -> sass env = None ->
  process_scss env w
  = Ok tt (said w (fs w)
             ["⚠️  Sass not available, skipping SCSS processing"]
             [c_process_scss]).
Proof.
  intros H H'. unfold process_scss, DJANGO_AVAILABLE, SASS_AVAILABLE.
  now rewrite H, H'.
Qed.

Lemma process_journals_no_sass (env : Env) (dj : Django) (dir : path)
    (paths : list path) (w : World) :
  django env = Some dj -> sass env = None ->
  process_journals env dir paths w
  = Ok tt (said w (fs w)
             ["⚠️  Sass not available, skipping journal overrides"]
             [c_process_journals]).
Proof.
  intros H H'. unfold process_journals, DJANGO_AVAILABLE, SASS_AVAILABLE.
  now rewrite H, H'.
Qed.

(** Build mode with no framework, step by step. *)
Lemma build_full_no_django (env : Env) (w : World) :
  django env = None ->
  build_full env w =
  match create_paths
          (said w (fs w) ["🏗️  Starting full build process..."]
             [c_build_full]) with
  | Raise e wa => Raise e wa
  | Ok _ wa =>
  match copy_css_assets env
          (said wa (fs wa) ["📋 Copying CSS assets..."] []) with
  | Raise e wb => Raise e wb
  | Ok _ wb =>
  match copy_all_assets env
          (said wb (fs wb) ["📋 Copying all assets..."] []) with
  | Raise e wc => Raise e wc
  | Ok _ wc =>
      Ok tt
        (said wc (fs wc)
           [ "🎨 Processing SCSS...";
             "⚠️  Django not available, skipping SCSS processing";
             "⚡ Processing JS...";
             "⚠️  Django not available, skipping JS processing";
             "✅ Full build completed!" ]
           [c_process_scss; c_process_js])
  end end end.
Proof.
  intros Hdj. unfold build_full, DJANGO_AVAILABLE. rewrite Hdj. cbn [is_some].
  unfold bind at 1, trace at 1. unfold bind at 1, print at 1.
  cbn [fs out calls]. unfold bind at 1. unfold said at 1.
  destruct (create_paths _) as [dir wa|e wa]; auto.
  unfold bind at 1, print at 1. unfold bind at 1. unfold said at 1.
  rewrite app_nil_r.
  destruct (copy_css_assets env _) as [b wb|e wb]; auto.
  unfold bind at 1, print at 1. unfold bind at 1. unfold said at 1.
  rewrite app_nil_r.
  destruct (copy_all_assets env _) as [b' wc|e wc]; auto.
  unfold bind at 1, print at 1. unfold bind at 1.
  rewrite (process_scss_no_django env _ Hdj).
  unfold bind at 1, print at 1. unfold bind at 1.
  rewrite (process_js_no_django env _ Hdj).
  unfold bind, ret, print, said. cbn [fs out calls].
  rewrite <- !app_assoc. reflexivity.
Qed.

Lemma copy_css_assets_out (env : Env) (w wb : World) (b : bool) :
  copy_css_assets env w = Ok b wb -> exists line, out wb = out w ++ [line].
Proof.
  rewrite copy_css_assets_unfold.
  destruct (mkdir_p static_css_dir (fs w)); try discriminate.
  destruct (path_exists themes_css n).
  - destruct (copy2 themes_css static_css n); try discriminate.
    intros H. inversion H; subst. cbn [said out]. eauto.
  - intros H. inversion H; subst. cbn [said out]. eauto.
Qed.

Lemma copy_all_assets_out (env : Env) (w wb : World) (b : bool) :
  copy_all_assets env w = Ok b wb -> exists line, out wb = out w ++ [line].
Proof.
  rewrite copy_all_assets_unfold.
  destruct (path_exists themes_assets (fs w)).
  - destruct (if path_exists static_salford (fs w) then _ else _);
      try discriminate.
    destruct (copytree themes_assets static_salford n); try discriminate.
    intros H. inversion H; subst. cbn [said out]. eauto.
  - intros H. inversion H; subst. cbn [said out]. eauto.
Qed.




(** * What reaches the top level *)

Section RaisesOnly.

Context {A B : Type}.
Variable P : exn -> bool.

Lemma ro_ret (a : A) : raises_only P (ret a).
Proof. intros w e w' H. discriminate. Qed.

Lemma ro_bind (m : M A) (k : A -> M B) :
  raises_only P m -> (forall a, raises_only P (k a)) ->
  raises_only P (bind m k).
Proof.
  intros Hm Hk w e w'. unfold bind.
  destruct (m w) as [a w1|e1 w1] eqn:E.
  - apply Hk.
  - intros H. inversion H; subst. eauto.
Qed.

Lemma ro_if (c : bool) (m1 m2 : M A) :
  raises_only P m1 -> raises_only P m2 ->
  raises_only P (if c then m1 else m2).
Proof. now destruct c. Qed.

Lemma ro_fs_read (f : node -> exn + A) :
  (forall n e, f n = inl e -> P e = true) -> raises_only P (fs_read f).
Proof.
  intros Hf w e w'. unfold fs_read. destruct (f (fs w)) eqn:E; try discriminate.
  intros H. inversion H; subst. eauto.
Qed.

End RaisesOnly.

Lemma ro_print (P : exn -> bool) (s : string) : raises_only P (print s).
Proof. intros w e w' H. discriminate. Qed.

Lemma ro_trace (P : exn -> bool) (c : call) : raises_only P (trace c).
Proof. intros w e w' H. discriminate. Qed.

Lemma ro_exists (P : exn -> bool) (p : path) : raises_only P (exists_ p).
Proof. intros w e w' H. discriminate. Qed.

Lemma ro_fs_op (P : exn -> bool) (f : node -> exn + node) :
  (forall n e, f n = inl e -> P e = true) -> raises_only P (fs_op f).
Proof.
  intros Hf w e w'. unfold fs_op. destruct (f (fs w)) eqn:E; try discriminate.
  intros H. inversion H; subst. eauto.
Qed.

Lemma ro_for_each {A : Type} (P : exn -> bool) (l : list A)
    (body : A -> M unit) :
  (forall x, raises_only P (body x)) -> raises_only P (for_each l body).
Proof.
  intros Hb. induction l as [|x l IH]; cbn [for_each].
  - apply ro_ret.
  - apply ro_bind; auto.
Qed.

Lemma ro_weaken {A : Type} (P Q : exn -> bool) (m : M A) :
  (forall e, P e = true -> Q e = true) ->
  raises_only P m -> raises_only Q m.
Proof. intros HPQ Hm w e w' H. eauto. Qed.

Lemma ro_try {A : Type} (m h : M A) :
  raises_only uncaught_or_interrupt m -> raises_only uncaught h ->
  raises_only uncaught (try_except_KeyboardInterrupt m h).
Proof.
  intros Hm Hh w e w'. unfold try_except_KeyboardInterrupt.
  destruct (m w) as [a w1|e1 w1] eqn:E; try discriminate.
  destruct (is_KeyboardInterrupt e1) eqn:K.
  - apply Hh.
  - intros H. inversion H; subst. apply Hm in E.
    unfold uncaught_or_interrupt in E. rewrite K in E.
    now rewrite orb_false_r in E.
Qed.

Lemma os_error_uncaught (e : exn) : os_error e = true -> uncaught e = true.
Proof. now destruct e. Qed.

Lemma external_uncaught {A : Type} (r : string + A) (e : exn) :
  external r = inl e -> uncaught e = true.
Proof. destruct r; cbn; intros H; inversion H; auto. Qed.

Lemma read_text_uncaught (p : path) (n : node) (e : exn) :
  read_text p n = inl e -> uncaught e = true.
Proof.
  unfold read_text. destruct (read_bytes p n) eqn:R.
  - intros H. inversion H; subst.
    eauto using os_error_uncaught, read_bytes_raises.
  - destruct (valid_utf8 s); intros H; inversion H. reflexivity.
Qed.

Lemma append_bytes_raises (p : path) (d : string) (n : node) (e : exn) :
  append_bytes p d n = inl e -> os_error e = true.
Proof.
  unfold append_bytes. destruct (lookup p n) as [[d0|es]|]; try discriminate.
  apply put_raises.
Qed.

Lemma iterdir_raises (p : path) (n : node) (e : exn) :
  iterdir p n = inl e -> os_error e = true.
Proof.
  unfold iterdir. destruct (resolve p n) as [e'|[d|es]] eqn:R;
    try discriminate; intros H; inversion H; subst; eauto using resolve_raises.
Qed.

Create HintDb raises.

#[local] Hint Resolve os_error_uncaught mkdir_p_raises write_bytes_raises
  copy2_raises rmtree_raises copytree_raises append_bytes_raises
  iterdir_raises read_text_uncaught resolve_raises external_uncaught
  : raises.

Ltac ro_step :=
  first
    [ assumption
    | match goal with
      | H : forall _ _, raises_only _ _ |- raises_only _ _ => apply H
      end
    | apply ro_ret | apply ro_print | apply ro_trace | apply ro_exists
    | apply ro_bind; [|intros ?]
    | apply ro_if
    | apply ro_for_each; intros ?
    | apply ro_fs_op; intros ? ? ?
    | apply ro_fs_read; intros ? ? ? ].

Ltac ro := repeat ro_step; eauto with raises.

Lemma ro_copy_css_assets (env : Env) :
  raises_only uncaught (copy_css_assets env).
Proof.
  intros w e w' H. eauto using os_error_uncaught, copy_css_assets_raises.
Qed.

Lemma ro_copy_all_assets (env : Env) :
  raises_only uncaught (copy_all_assets env).
Proof.
  intros w e w' H. eauto using os_error_uncaught, copy_all_assets_raises.
Qed.

Lemma ro_create_paths : raises_only uncaught create_paths.
Proof. unfold create_paths. ro. Qed.

Lemma ro_process_scss (env : Env) : raises_only uncaught (process_scss env).
Proof.
  unfold process_scss, DJANGO_AVAILABLE, SASS_AVAILABLE, sass_compile.
  destruct (django env), (sass env); cbn [is_some negb]; ro.
Qed.

Lemma ro_process_js (env : Env) : raises_only uncaught (process_js env).
Proof.
  unfold process_js, DJANGO_AVAILABLE.
  destruct (django env); cbn [is_some negb]; ro.
  - intros w e w' H. discriminate.
  - match goal with
    | |- raises_only _ (match ?l with _ => _ end) => destruct l
    end; ro.
Qed.

Lemma ro_process_journals (env : Env) (dir : path) (paths : list path) :
  raises_only uncaught (process_journals env dir paths).
Proof.
  unfold process_journals, DJANGO_AVAILABLE, SASS_AVAILABLE,
    Journal_objects_all, sass_compile.
  destruct (django env), (sass env); cbn [is_some negb]; ro.
  match goal with
  | |- raises_only _ (match ?l with _ => _ end) => destruct l
  end; ro.
Qed.

(** Replace an operation that has its lemma by a name. *)
Ltac known H m :=
  let op := fresh "op" in
  pose proof H; set (op := m) in *; clearbody op.

Lemma ro_build_full (env : Env) : raises_only uncaught (build_full env).
Proof.
  unfold build_full, DJANGO_AVAILABLE, call_command_collectstatic.
  known (ro_copy_css_assets env) (copy_css_assets env).
  known (ro_copy_all_assets env) (copy_all_assets env).
  known ro_create_paths create_paths.
  known (ro_process_scss env) (process_scss env).
  known (ro_process_js env) (process_js env).
  known (ro_process_journals env) (process_journals env).
  destruct (django env); cbn [is_some]; ro.
Qed.

Lemma ro_build_simple (env : Env) : raises_only uncaught (build_simple env).
Proof.
  unfold build_simple.
  known (ro_copy_css_assets env) (copy_css_assets env).
  known (ro_copy_all_assets env) (copy_all_assets env).
  ro.
Qed.

Lemma ro_show_help : raises_only uncaught show_help.
Proof.
  unfold show_help. apply ro_bind; [apply ro_trace|]. intros _.
  apply ro_for_each. intros line. apply ro_print.
Qed.

Lemma ro_stat (p : path) (observed : Z) :
  raises_only uncaught (stat_st_mtime p observed).
Proof.
  unfold stat_st_mtime. ro.
  destruct (resolve p n) eqn:R; inversion H; subst. eauto with raises.
Qed.

Lemma ro_sleep (P : exn -> bool) (f : node -> node) :
  raises_only P (sleep f).
Proof. unfold sleep. ro. discriminate. Qed.

(** Inside the loop only the interrupt is added to what can be raised. *)
Lemma ro_watch_loop (env : Env) (p : path) (ticks : list tick) (last : Z) :
  raises_only uncaught_or_interrupt (watch_loop env p ticks last).
Proof.
  assert (forall e, uncaught e = true -> uncaught_or_interrupt e = true) as Hw
    by (intros e H; unfold uncaught_or_interrupt; now rewrite H).
  revert last. induction ticks as [|t ticks IH]; intros last; cbn [watch_loop].
  - intros w e w' H. inversion H. reflexivity.
  - apply ro_bind; [apply (ro_weaken _ _ _ Hw), ro_stat|]. intros m.
    apply ro_if.
    + apply ro_bind; [apply ro_print|]. intros _.
      apply ro_bind; [apply (ro_weaken _ _ _ Hw), ro_copy_css_assets|].
      intros copied.
      apply ro_bind; [destruct copied; [apply ro_print | apply ro_ret]|].
      intros _. apply ro_bind; [apply ro_sleep | auto].
    + apply ro_bind; [apply ro_sleep | auto].
Qed.

Lemma ro_watch_and_copy (env : Env) (mtime0 : Z) (ticks : list tick) :
  raises_only uncaught (watch_and_copy env mtime0 ticks).
Proof.
  unfold watch_and_copy.
  apply ro_bind; [apply ro_trace|]. intros _.
  apply ro_bind; [apply ro_exists|]. intros found.
  apply ro_if; [apply ro_print|].
  apply ro_bind; [apply ro_print|]. intros _.
  apply ro_bind; [apply ro_print|]. intros _.
  apply ro_bind; [apply ro_stat|]. intros last.
  apply ro_try; [apply ro_watch_loop | apply ro_print].
Qed.

Lemma ro_main (env : Env) (argv : list string) (mtime0 : Z)
    (ticks : list tick) :
  raises_only uncaught (main env argv mtime0 ticks).
Proof.
  unfold main.
  known ro_show_help show_help.
  known (ro_build_simple env) (build_simple env).
  known (ro_build_full env) (build_full env).
  known (ro_copy_css_assets env) (copy_css_assets env).
  known (ro_watch_and_copy env mtime0 ticks) (watch_and_copy env mtime0 ticks).
  ro.
Qed.

Lemma process_scss_no_source (env : Env) (dj : Django)
    (compile : node -> string -> list string -> string + string)
    (w : World) :
  django env = Some dj -> sass env = Some compile ->
  path_exists app_scss_file (fs w) = false ->
  process_scss env w
  = Ok tt (said w (fs w)
             [("⚠️  SCSS file not found: " ++ str env app_scss_file)%string]
             [c_process_scss]).
Proof.
  intros Hdj Hsass Hsrc.
  unfold process_scss, DJANGO_AVAILABLE, SASS_AVAILABLE.
  rewrite Hdj, Hsass. cbn [is_some negb]. fold app_scss_file.
  unfold bind, trace, exists_, print, said. cbn [fs out calls].
  now rewrite Hsrc.
Qed.


(** * What the script leaves alone *)

Section Keeps.

Context {A B : Type}.
Variable q : path.

Lemma keeps_ret (a : A) : keeps q (ret a).
Proof. intros w. reflexivity. Qed.

Lemma keeps_bind (m : M A) (k : A -> M B) :
  keeps q m -> (forall a, keeps q (k a)) -> keeps q (bind m k).
Proof.
  intros Hm Hk w. specialize (Hm w). unfold bind.
  destruct (m w) as [a w1|e w1]; cbn [world_of] in *; auto.
  now rewrite Hk.
Qed.

Lemma keeps_if (c : bool) (m1 m2 : M A) :
  keeps q m1 -> keeps q m2 -> keeps q (if c then m1 else m2).
Proof. now destruct c. Qed.

Lemma keeps_fs_read (f : node -> exn + A) : keeps q (fs_read f).
Proof. intros w. unfold fs_read. now destruct (f (fs w)). Qed.

End Keeps.

Lemma keeps_print (q : path) (s : string) : keeps q (print s).
Proof. intros w. reflexivity. Qed.

Lemma keeps_trace (q : path) (c : call) : keeps q (trace c).
Proof. intros w. reflexivity. Qed.

Lemma keeps_exists (q p : path) : keeps q (exists_ p).
Proof. intros w. reflexivity. Qed.

Lemma keeps_raise {A : Type} (q : path) (e : exn) : keeps q (@raise A e).
Proof. intros w. reflexivity. Qed.

Lemma keeps_fs_op (q : path) (f : node -> exn + node) :
  (forall n n', f n = inr n' -> lookup q n' = lookup q n) ->
  keeps q (fs_op f).
Proof.
  intros Hf w. unfold fs_op. destruct (f (fs w)) eqn:E; cbn [world_of fs]; auto.
Qed.

Lemma keeps_for_each {A : Type} (q : path) (l : list A) (body : A -> M unit) :
  (forall x, keeps q (body x)) -> keeps q (for_each l body).
Proof.
  intros Hb. induction l as [|x l IH]; cbn [for_each].
  - apply keeps_ret.
  - apply keeps_bind; auto.
Qed.

Lemma keeps_try {A : Type} (q : path) (m h : M A) :
  keeps q m -> keeps q h -> keeps q (try_except_KeyboardInterrupt m h).
Proof.
  intros Hm Hh w. specialize (Hm w). unfold try_except_KeyboardInterrupt.
  destruct (m w) as [a w1|e w1]; cbn [world_of] in *; auto.
  destruct (is_KeyboardInterrupt e); cbn [world_of]; auto.
  now rewrite Hh.
Qed.

(** The library calls change the tree at their target and below. *)
Lemma write_bytes_frame (p q : path) (d : string) (n n' : node) :
  write_bytes p d n = inr n' -> diverges p q = true ->
  lookup q n' = lookup q n.
Proof.
  unfold write_bytes. destruct (lookup p n) as [[d0|es]|]; try discriminate;
    intros H D; eapply put_frame; eauto.
Qed.

Lemma append_bytes_frame (p q : path) (d : string) (n n' : node) :
  append_bytes p d n = inr n' -> diverges p q = true ->
  lookup q n' = lookup q n.
Proof.
  unfold append_bytes. destruct (lookup p n) as [[d0|es]|];
    intros H D; try (inversion H; subst; reflexivity).
  eapply put_frame; eauto.
Qed.

Lemma rmtree_frame (p q : path) (n n' : node) :
  rmtree p n = inr n' -> diverges p q = true -> lookup q n' = lookup q n.
Proof.
  unfold rmtree. destruct (resolve p n) as [e|[d|es]]; try discriminate.
  apply remove_frame.
Qed.

Lemma copytree_frame (src dst q : path) (n n' : node) :
  copytree src dst n = inr n' -> diverges dst q = true ->
  lookup q n' = lookup q n.
Proof.
  unfold copytree. destruct (resolve src n) as [e|[d|es]]; try discriminate.
  destruct (lookup dst n); try discriminate.
  destruct (mkdir_p dst n) as [e|n1] eqn:M; try discriminate.
  intros H D. erewrite put_frame by eauto. eapply mkdir_p_frame; eauto.
Qed.

Section Footprint.

Variable env : Env.
Variable q : path.
Hypothesis Hq : diverges static_salford q = true.

Lemma below_static (r : path) : diverges (static_salford ++ r) q = true.
Proof. now apply diverges_app_l. Qed.

Ltac keeps_step :=
  first
    [ assumption
    | match goal with
      | H : forall _ _, keeps _ _ |- keeps _ _ => apply H
      end
    | apply keeps_ret | apply keeps_print | apply keeps_trace
    | apply keeps_exists | apply keeps_raise | apply keeps_fs_read
    | apply keeps_bind; [|intros ?]
    | apply keeps_if
    | apply keeps_for_each; intros ?
    | apply keeps_fs_op; intros ? ? ? ].

Ltac keeps_tac := repeat keeps_step.

Lemma keeps_copy_css_assets : keeps q (copy_css_assets env).
Proof.
  unfold copy_css_assets. keeps_tac.
  - eapply mkdir_p_frame; eauto. apply (below_static ["css"]).
  - eapply copy2_frame; eauto. apply (below_static ["css"; "salford.css"]).
Qed.

Lemma keeps_copy_all_assets : keeps q (copy_all_assets env).
Proof.
  unfold copy_all_assets. keeps_tac.
  - eapply rmtree_frame; eauto.
  - eapply copytree_frame; eauto.
Qed.

Lemma keeps_create_paths : keeps q create_paths.
Proof.
  unfold create_paths. keeps_tac.
  all: eapply mkdir_p_frame; eauto; apply below_static.
Qed.

Lemma keeps_sass_compile (filename : string) (incl : list string) :
  keeps q (sass_compile env filename incl).
Proof. unfold sass_compile. destruct (sass env); keeps_tac. Qed.

Lemma keeps_process_scss : keeps q (process_scss env).
Proof.
  unfold process_scss.
  pose proof keeps_sass_compile as Hc.
  set (compile := sass_compile env) in *. clearbody compile.
  keeps_tac.
  eapply write_bytes_frame; eauto. apply (below_static ["css"; "app.css"]).
Qed.

Lemma keeps_process_js : keeps q (process_js env).
Proof.
  unfold process_js. keeps_tac.
  - eapply mkdir_p_frame; eauto. apply (below_static ["js"]).
  - intros w. reflexivity.
  - match goal with
    | |- keeps _ (match ?l with _ => _ end) => destruct l
    end; keeps_tac.
    all: first [ eapply write_bytes_frame; [eassumption|]
               | eapply append_bytes_frame; [eassumption|] ];
      apply (below_static ["js"; "app.js"]).
Qed.

Lemma keeps_process_journals (r : path) (paths : list path) :
  keeps q (process_journals env (static_salford ++ r) paths).
Proof.
  unfold process_journals, Journal_objects_all.
  pose proof keeps_sass_compile as Hc.
  set (compile := sass_compile env) in *. clearbody compile.
  destruct (django env); keeps_tac.
  match goal with
  | |- keeps _ (match ?l with _ => _ end) => destruct l
  end; keeps_tac.
  eapply write_bytes_frame; eauto.
  rewrite <- app_assoc. apply below_static.
Qed.

Lemma keeps_build_simple : keeps q (build_simple env).
Proof.
  unfold build_simple.
  pose proof keeps_copy_css_assets. pose proof keeps_copy_all_assets.
  set (op1 := copy_css_assets env) in *. clearbody op1.
  set (op2 := copy_all_assets env) in *. clearbody op2.
  keeps_tac.
Qed.

End Footprint.

Lemma keeps_bind_value {A B : Type} (q : path) (P : A -> Prop)
    (m : M A) (k : A -> M B) :
  keeps q m -> (forall w a w', m w = Ok a w' -> P a) ->
  (forall a, P a -> keeps q (k a)) -> keeps q (bind m k).
Proof.
  intros Hm HP Hk w. specialize (Hm w). unfold bind.
  destruct (m w) as [a w1|e w1] eqn:E; cbn [world_of] in *; auto.
  rewrite Hk; eauto.
Qed.

Lemma create_paths_returns (w w' : World) (p : path) :
  create_paths w = Ok p w' -> p = static_css_dir.
Proof.
  rewrite create_paths_unfold.
  repeat match goal with
         | |- match ?x with _ => _ end = _ -> _ =>
             destruct x; try discriminate
         end.
  intros H. now inversion H.
Qed.

Lemma keeps_build_full (env : Env) (q : path) :
  diverges static_salford q = true ->
  (forall dj n n', django env = Some dj ->
                   collectstatic dj n = inr n' -> lookup q n' = lookup q n) ->
  keeps q (build_full env).
Proof.
  intros Hq Hcollect. unfold build_full, DJANGO_AVAILABLE.
  pose proof (keeps_copy_css_assets env q Hq) as H1.
  pose proof (keeps_copy_all_assets env q Hq) as H2.
  pose proof (keeps_create_paths q Hq) as H3.
  pose proof (keeps_process_scss env q Hq) as H4.
  pose proof (keeps_process_js env q Hq) as H5.
  pose proof (keeps_process_journals env q Hq ["css"]) as H6.
  change (static_salford ++ ["css"]) with static_css_dir in H6.
  assert (keeps q (call_command_collectstatic env)) as H7.
  { unfold call_command_collectstatic.
    destruct (django env) as [dj|] eqn:D; [|apply keeps_raise].
    apply keeps_bind; [apply keeps_trace|]. intros _.
    apply keeps_fs_op. intros n n' H.
    destruct (collectstatic dj n) eqn:C; inversion H; subst. eauto. }
  set (op1 := copy_css_assets env) in *. clearbody op1.
  set (op2 := copy_all_assets env) in *. clearbody op2.
  set (op4 := process_scss env) in *. clearbody op4.
  set (op5 := process_js env) in *. clearbody op5.
  set (op6 := process_journals env) in *. clearbody op6.
  set (op7 := call_command_collectstatic env) in *. clearbody op7.
  apply keeps_bind; [apply keeps_trace|]. intros _.
  apply keeps_bind; [apply keeps_print|]. intros _.
  apply (keeps_bind_value q (fun p => p = static_css_dir));
    [assumption | intros ? ? ?; apply create_paths_returns |].
  intros dir ->.
  repeat first
    [ assumption
    | apply keeps_print | apply keeps_ret | apply keeps_if
    | apply H6
    | apply keeps_bind; [|intros ?] ].
Qed.

(** X1.  Copy mode changes nothing outside [static/salford], whether
    it completes or raises: whatever is at a path that parts ways with
    [static/salford] (the theme sources among them) is there afterwards,
    unchanged. *)
Theorem copy_mode_footprint (env : Env) (prog : string) (rest : list string)
    (mtime0 : Z) (ticks : list tick) (w : World) (q : path) :
  diverges static_salford q = true ->
  lookup q (fs (world_of (main env (prog :: "copy" :: rest) mtime0 ticks w)))
  = lookup q (fs w) /\
  lookup q (fs (world_of (main env [prog] mtime0 ticks w))) = lookup q (fs w).
Proof.
  intros Hq. split; apply (keeps_build_simple env q Hq w).
Qed.

Lemma copy_mode_footprint_witness :
  (exists e w',
     main env_bare ["build_assets.py"; "copy"] 0 []
       (fresh_world css_is_dir_tree) = Ok e w') /\
  lookup themes_assets
    (fs (world_of (main env_bare ["build_assets.py"; "copy"] 0 []
                     (fresh_world css_is_dir_tree))))
  = Some (Dir theme_assets_entries) /\
  lookup themes_assets
    (fs (world_of (main env_bare ["build_assets.py"] 0 []
                     (fresh_world static_is_file_tree))))
  = Some (Dir theme_assets_entries).
Proof.
  split; [eexists _, _; vm_compute; reflexivity|].
  split.
  - exact (proj1 (copy_mode_footprint env_bare "build_assets.py" [] 0 []
                    (fresh_world css_is_dir_tree) themes_assets eq_refl)).
  - exact (proj2 (copy_mode_footprint env_bare "build_assets.py" [] 0 []
                    (fresh_world static_is_file_tree) themes_assets eq_refl)).
Defined.

(** X2.  Build mode changes nothing outside [static/salford] either, as
    far as the script's own steps go: a path that parts ways with
    [static/salford] holds afterwards what it held before, provided the
    framework's collectstatic command (the last step, when the framework
    is there) leaves that path alone.  This holds for every outcome,
    also when a step raises half-way. *)
Theorem build_mode_footprint (env : Env) (w : World) (q : path) :
  diverges static_salford q = true ->
  (forall dj n n', django env = Some dj ->
                   collectstatic dj n = inr n' -> lookup q n' = lookup q n) ->
  lookup q (fs (world_of (build_full env w))) = lookup q (fs w).
Proof.
  intros Hq Hc. apply (keeps_build_full env q Hq Hc w).
Qed.

Lemma build_mode_footprint_witness :
  (exists w',
     build_full env_full (fresh_world scss_only_tree)
     = Raise FileNotFoundError w') /\
  lookup app_scss_file (fs (world_of (build_full env_full
                                        (fresh_world scss_only_tree))))
  = Some (File "a { b: c }").
Proof.
  split; [eexists; vm_compute; reflexivity|].
  refine (build_mode_footprint env_full (fresh_world scss_only_tree)
            app_scss_file eq_refl _).
  intros dj n n' Hdj Hc. inversion Hdj; subst. cbn in Hc.
  now inversion Hc.
Defined.

Lemma keeps_watch_loop (env : Env) (q : path) (ticks : list tick) (last : Z) :
  diverges static_salford q = true ->
  (forall t n, In t ticks -> lookup q (edit t n) = lookup q n) ->
  keeps q (watch_loop env themes_css ticks last).
Proof.
  intros Hq. revert last.
  induction ticks as [|t ticks IH]; intros last Hedit; cbn [watch_loop].
  - apply keeps_raise.
  - assert (keeps q (sleep (edit t))) as Hsleep.
    { unfold sleep. apply keeps_bind; [apply keeps_trace|]. intros _.
      apply keeps_fs_op. intros n n' H. inversion H; subst.
      apply Hedit. now left. }
    assert (forall l, keeps q (watch_loop env themes_css ticks l)) as Hrest.
    { intros l. apply IH. intros t' n Ht'. apply Hedit. now right. }
    pose proof (keeps_copy_css_assets env q Hq) as Hcopy.
    unfold stat_st_mtime.
    repeat first
      [ assumption | apply Hrest
      | apply keeps_print | apply keeps_ret | apply keeps_trace
      | apply keeps_fs_read | apply keeps_if
      | apply keeps_bind; [|intros ?] ].
Qed.

(** X3.  Watch mode, too, writes below [static/salford] only: a path
    that parts ways with [static/salford] holds at the end of the run,
    however it ends, what it held at the start, as long as the outside
    world (whose edits between polls the run is given) does not itself
    change that path. *)
Theorem watch_mode_footprint (env : Env) (prog : string) (rest : list string)
    (mtime0 : Z) (ticks : list tick) (w : World) (q : path) :
  diverges static_salford q = true ->
  (forall t n, In t ticks -> lookup q (edit t n) = lookup q n) ->
  lookup q (fs (world_of (main env (prog :: "watch" :: rest) mtime0 ticks w)))
  = lookup q (fs w).
Proof.
  intros Hq Hedit.
  assert (keeps q (main env (prog :: "watch" :: rest) mtime0 ticks)) as H.
  { unfold main. cbn [String.eqb Ascii.eqb Bool.eqb orb andb].
    unfold watch_and_copy, stat_st_mtime.
    pose proof (keeps_copy_css_assets env q Hq) as Hcopy.
    pose proof (keeps_watch_loop env q ticks) as Hloop.
    fold themes_css.
    set (op := copy_css_assets env) in *. clearbody op.
    repeat first
      [ assumption
      | apply keeps_print | apply keeps_ret | apply keeps_trace
      | apply keeps_exists | apply keeps_fs_read | apply keeps_if
      | apply keeps_try; [apply Hloop; assumption|]
      | apply keeps_bind; [|intros ?] ]. }
  apply H.
Qed.

Lemma watch_mode_footprint_witness :
  lookup ["themes"; "salford"; "assets"; "js"; "app.js"]
    (fs (world_of (main env_bare ["build_assets.py"; "watch"] 100
                     vanishing_ticks (fresh_world theme_tree))))
  = Some (File "init();").
Proof.
  refine (watch_mode_footprint env_bare "build_assets.py" [] 100
            vanishing_ticks (fresh_world theme_tree)
            ["themes"; "salford"; "assets"; "js"; "app.js"] eq_refl _).
  intros t n [<-|[<-|[]]]; cbn [edit]; auto.
  destruct (remove themes_css n) as [e|n'] eqn:R; auto.
  eapply remove_frame; eauto.
Defined.

(** * More on the copiers *)

Lemma copytree_inv (src dst : path) (n n' : node) :
  copytree src dst n = inr n' ->
  exists es, lookup src n = Some (Dir es) /\ lookup dst n' = Some (Dir es).
Proof.
  unfold copytree. destruct (resolve src n) as [e|[d|es]] eqn:R;
    try discriminate.
  destruct (lookup dst n); try discriminate.
  destruct (mkdir_p dst n) as [e|n1]; try discriminate.
  intros H. exists es. split; [now apply resolve_lookup|].
  eapply put_lookup; eauto.
Qed.

(** X4.  What the result of [copy_all_assets] means.  When it returns
    true, the source assets path was a directory and [static/salford] is
    now its exact replica; when it returns false, the source path did
    not exist and the tree is untouched (an existing destination
    included). *)
Theorem copy_all_assets_result (env : Env) (w w' : World) (b : bool) :
  copy_all_assets env w = Ok b w' ->
  (b = true /\
   exists es, lookup themes_assets (fs w) = Some (Dir es) /\
              lookup static_salford (fs w') = Some (Dir es)) \/
  (b = false /\ lookup themes_assets (fs w) = None /\ fs w' = fs w).
Proof.
  rewrite copy_all_assets_unfold. unfold path_exists at 1.
  destruct (lookup themes_assets (fs w)) as [v|] eqn:L; cbn [is_some].
  - destruct (if path_exists static_salford (fs w) then _ else _)
      as [e|n1] eqn:R; try discriminate.
    destruct (copytree themes_assets static_salford n1) as [e|n2] eqn:C;
      try discriminate.
    intros H. inversion H; subst. left. split; auto.
    apply copytree_inv in C as (es & Hsrc & Hdst).
    exists es. cbn [said fs]. split; auto.
    rewrite <- Hsrc, <- L.
    destruct (path_exists static_salford (fs w)).
    + symmetry. eapply rmtree_frame; eauto.
    + now inversion R.
  - intros H. inversion H; subst. right. auto.
Qed.

Lemma copy_all_assets_result_witness :
  exists w',
    copy_all_assets env_bare (fresh_world stale_tree) = Ok true w' /\
    lookup static_salford (fs w') = Some (Dir theme_assets_entries).
Proof.
  assert (exists w', copy_all_assets env_bare (fresh_world stale_tree)
                     = Ok true w') as [w' Hrun]
    by (eexists; vm_compute; reflexivity).
  exists w'. split; [exact Hrun|].
  destruct (copy_all_assets_result _ _ _ _ Hrun)
    as [(_ & es & Hsrc & Hdst)|(Hb & _)]; [|discriminate].
  rewrite Hdst, <- Hsrc. reflexivity.
Defined.

(** X5.  [copy_all_assets] is not atomic.  When the source assets path
    exists but is a regular file and the destination is a directory,
    the destination tree is deleted first and the copy then raises
    [NotADirectoryError]: the call ends with [static/salford] gone and
    nothing in its place. *)
Theorem copy_all_assets_loses_destination (env : Env) (w : World)
    (d : string) (ds : entries) :
  lookup themes_assets (fs w) = Some (File d) ->
  lookup static_salford (fs w) = Some (Dir ds) ->
  exists w',
    copy_all_assets env w = Raise NotADirectoryError w' /\
    lookup static_salford (fs w') = None /\
    out w' = out w.
Proof.
  intros Hsrc Hdst. rewrite copy_all_assets_unfold. unfold path_exists.
  rewrite Hsrc, Hdst. cbn [is_some].
  destruct (remove_ok static_salford (fs w) _ ltac:(discriminate) Hdst)
    as (n1 & Hr & Hl & _).
  unfold rmtree. apply resolve_lookup in Hdst as Hres. rewrite Hres, Hr.
  unfold copytree.
  assert (resolve themes_assets n1 = inr (File d)) as ->.
  { apply resolve_lookup.
    now rewrite (remove_frame _ themes_assets _ _ Hr eq_refl). }
  eexists. split; [reflexivity|]. cbn [said fs out].
  split; [assumption | apply app_nil_r].
Qed.

Lemma copy_all_assets_loses_destination_witness :
  exists w',
    copy_all_assets env_bare
      (fresh_world
         (Dir [ ("themes", Dir [("salford", Dir [("assets", File "oops")])]);
                ("static", Dir [("salford", Dir [("keep.css", File "k")])]) ]))
    = Raise NotADirectoryError w' /\
    lookup static_salford (fs w') = None.
Proof.
  destruct (copy_all_assets_loses_destination env_bare
              (fresh_world
                 (Dir [ ("themes", Dir [("salford", Dir [("assets", File "oops")])]);
                        ("static", Dir [("salford", Dir [("keep.css", File "k")])]) ]))
              "oops" [("keep.css", File "k")] eq_refl eq_refl)
    as (w' & Hrun & Hgone & _).
  exists w'. split; assumption.
Defined.

Lemma mkdir_p_existing (p : path) (n : node) (es : entries) :
  lookup p n = Some (Dir es) -> mkdir_p p n = inr n.
Proof.
  revert n. induction p as [|x p IH]; intros n H; simpl in H.
  - inversion H; subst. reflexivity.
  - destruct n as [d|es0]; try discriminate.
    destruct (get_entry x es0) as [c|] eqn:G; try discriminate.
    simpl. rewrite G, (IH _ H). simpl. now rewrite set_get_id.
Qed.

Lemma put_existing (p : path) (n v : node) :
  lookup p n = Some v -> put p v n = inr n.
Proof.
  revert n. induction p as [|x p IH]; intros n H; simpl in H.
  - now inversion H.
  - destruct n as [d|es0]; try discriminate.
    destruct (get_entry x es0) as [c|] eqn:G; try discriminate.
    simpl. rewrite G, (IH _ H). simpl. now rewrite set_get_id.
Qed.

(** X6.  [copy_css_assets] is idempotent: after a call that returned,
    a second call returns the same boolean and leaves the tree exactly
    as the first one left it (which is why the watcher may copy more
    often than needed without harm). *)
Theorem copy_css_assets_idempotent (env : Env) (w w1 : World) (b : bool) :
  copy_css_assets env w = Ok b w1 ->
  exists w2, copy_css_assets env w1 = Ok b w2 /\ fs w2 = fs w1.
Proof.
  rewrite copy_css_assets_unfold.
  destruct (mkdir_p static_css_dir (fs w)) as [e|n1] eqn:Hm; try discriminate.
  destruct (mkdir_p_lookup _ _ _ Hm) as (es & Hdir).
  destruct (path_exists themes_css n1) eqn:Hx.
  - destruct (copy2 themes_css static_css n1) as [e|n2] eqn:Hc;
      try discriminate.
    intros H. inversion H; subst. clear H.
    rewrite copy_css_assets_unfold. cbn [said fs].
    pose proof (copy2_frame _ _ themes_css _ _ Hc eq_refl) as Hsrc.
    apply copy2_inv in Hc as (d & Hd & Hp).
    assert (exists es', lookup static_css_dir n2 = Some (Dir es')) as (es' & Hdir2).
    { destruct (is_dir static_css n1).
      - change (static_css ++ [basename themes_css])
          with (static_css_dir ++ "salford.css" :: ["salford.css"]) in Hp.
        eapply put_prefix_dir; eauto.
      - change static_css with (static_css_dir ++ "salford.css" :: []) in Hp.
        eapply put_prefix_dir; eauto. }
    rewrite (mkdir_p_existing _ _ _ Hdir2).
    unfold path_exists in *. rewrite Hsrc, Hx.
    assert (is_dir static_css n2 = is_dir static_css n1) as Hkind.
    { unfold is_dir at 1. destruct (is_dir static_css n1) eqn:K.
      - change (static_css ++ [basename themes_css])
          with (static_css ++ "salford.css" :: []) in Hp.
        destruct (put_prefix_dir _ _ _ _ _ _ Hp) as (? & ->). reflexivity.
      - now rewrite (put_lookup _ _ _ _ Hp). }
    unfold copy2. cbv zeta. rewrite Hkind.
    assert (read_bytes themes_css n2 = inr d) as ->
      by (apply read_bytes_inv; now rewrite Hsrc).
    unfold write_bytes.
    pose proof (put_lookup _ _ _ _ Hp) as Hthere.
    pose proof (put_existing _ _ _ Hthere) as Hsame.
    destruct (is_dir static_css n1); rewrite Hthere, Hsame;
      eexists; split; reflexivity.
  - intros H. inversion H; subst. clear H.
    rewrite copy_css_assets_unfold. cbn [said fs].
    rewrite (mkdir_p_existing _ _ _ Hdir), Hx.
    eexists. split; reflexivity.
Qed.

Lemma copy_css_assets_idempotent_witness :
  exists w1 w2,
    copy_css_assets env_bare (fresh_world css_is_dir_tree) = Ok true w1 /\
    copy_css_assets env_bare w1 = Ok true w2 /\ fs w2 = fs w1.
Proof.
  assert (exists w1, copy_css_assets env_bare (fresh_world css_is_dir_tree)
                     = Ok true w1) as [w1 Hrun]
    by (eexists; vm_compute; reflexivity).
  destruct (copy_css_assets_idempotent _ _ _ _ Hrun) as (w2 & Hrun2 & Hfs).
  exists w1, w2. repeat split; assumption.
Defined.

(** * Directory creation *)

Lemma mkdir_p_keeps_file (p q : path) (n n' : node) (d : string) :
  mkdir_p p n = inr n' -> lookup q n = Some (File d) ->
  lookup q n' = Some (File d).
Proof.
  revert q n n'. induction p as [|x p IH]; intros q n n' H L.
  - simpl in H. destruct n; inversion H; subst; auto.
  - destruct q as [|y q].
    + simpl in L. inversion L; subst. simpl in H. discriminate.
    + destruct (String.eqb x y) eqn:E.
      * apply String.eqb_eq in E. subst y. simpl in H.
        destruct (at_entry_same x _ n n' q H) as (es0 & oc & -> & Hf & ->).
        simpl in L. destruct (get_entry x es0) as [c|]; try discriminate.
        apply map_inr_inv in Hf as (c' & Hc & ->). eauto.
      * apply String.eqb_neq in E. simpl in H.
        now rewrite (at_entry_other _ _ _ _ _ q H E).
Qed.

(** X7.  What [create_paths] leaves behind when it returns: the value
    is [static/salford/css]; the four directories [css], [js], [fonts]
    and [img] exist below [static/salford]; every regular file that was
    in the tree is still there with the same bytes; and a second call
    returns the same value and changes nothing. *)
Theorem create_paths_result (w w1 : World) (p : path) :
  create_paths w = Ok p w1 ->
  p = static_css_dir /\
  Forall (fun dir => is_dir dir (fs w1) = true) static_folders /\
  (forall q d, lookup q (fs w) = Some (File d) ->
               lookup q (fs w1) = Some (File d)) /\
  exists w2, create_paths w1 = Ok p w2 /\ fs w2 = fs w1.
Proof.
  rewrite create_paths_unfold.
  destruct (mkdir_p _ (fs w)) as [e|n1] eqn:H1; try discriminate.
  destruct (mkdir_p _ n1) as [e|n2] eqn:H2; try discriminate.
  destruct (mkdir_p _ n2) as [e|n3] eqn:H3; try discriminate.
  destruct (mkdir_p _ n3) as [e|n4] eqn:H4; try discriminate.
  destruct (mkdir_p _ n4) as [e|n5] eqn:H5; try discriminate.
  intros H. inversion H; subst. clear H. cbn [said fs].
  destruct (mkdir_p_lookup _ _ _ H2) as (e2 & L2).
  destruct (mkdir_p_lookup _ _ _ H3) as (e3 & L3).
  destruct (mkdir_p_lookup _ _ _ H4) as (e4 & L4).
  destruct (mkdir_p_lookup _ _ _ H5) as (e5 & L5).
  destruct (mkdir_p_keeps_dir _ _ _ _ _ H3 L2) as (? & L2a).
  destruct (mkdir_p_keeps_dir _ _ _ _ _ H4 L2a) as (? & L2b).
  destruct (mkdir_p_keeps_dir _ _ _ _ _ H5 L2b) as (? & L2c).
  destruct (mkdir_p_keeps_dir _ _ _ _ _ H4 L3) as (? & L3a).
  destruct (mkdir_p_keeps_dir _ _ _ _ _ H5 L3a) as (? & L3b).
  destruct (mkdir_p_keeps_dir _ _ _ _ _ H5 L4) as (? & L4a).
  split; [reflexivity|]. split; [|split].
  - unfold is_dir. repeat constructor; cbn [app static_salford].
    + now rewrite L5.
    + now rewrite L2c.
    + now rewrite L3b.
    + now rewrite L4a.
  - intros q d L.
    apply (mkdir_p_keeps_file _ _ _ _ _ H5).
    apply (mkdir_p_keeps_file _ _ _ _ _ H4).
    apply (mkdir_p_keeps_file _ _ _ _ _ H3).
    apply (mkdir_p_keeps_file _ _ _ _ _ H2).
    apply (mkdir_p_keeps_file _ _ _ _ _ H1). exact L.
  - rewrite create_paths_unfold. cbn [said fs].
    rewrite (mkdir_p_existing _ _ _ L5), (mkdir_p_existing _ _ _ L2c),
      (mkdir_p_existing _ _ _ L3b), (mkdir_p_existing _ _ _ L4a),
      (mkdir_p_existing _ _ _ L5).
    eexists. split; reflexivity.
Qed.

Lemma create_paths_result_witness :
  exists w1,
    create_paths (fresh_world css_is_dir_tree) = Ok static_css_dir w1 /\
    is_dir ["static"; "salford"; "fonts"] (fs w1) = true /\
    lookup themes_css (fs w1) = Some (File "body { margin: 0 }").
Proof.
  assert (exists w1, create_paths (fresh_world css_is_dir_tree)
                     = Ok static_css_dir w1) as [w1 Hrun]
    by (eexists; vm_compute; reflexivity).
  destruct (create_paths_result _ _ _ Hrun) as (_ & Hdirs & Hfiles & _).
  exists w1. split; [exact Hrun|]. split.
  - apply Forall_cons_iff in Hdirs as [_ Hdirs].
    apply Forall_cons_iff in Hdirs as [_ Hdirs].
    apply Forall_cons_iff in Hdirs as [Hfonts _]. exact Hfonts.
  - apply Hfiles. reflexivity.
Defined.

(** * The stylesheet compiler *)

Lemma put_no_parent (p : path) (x : string) (v n : node) :
  lookup p n = None ->
  exists e, put (p ++ [x]) v n = inl e /\ os_error e = true.
Proof.
  revert n. induction p as [|y p IH]; intros n L; [discriminate|].
  cbn [app put]. destruct n as [d|es]; cbn [at_entry].
  { exists NotADirectoryError. auto. }
  cbn [lookup] in L. destruct (get_entry y es) as [c|].
  - destruct (IH c L) as (e & -> & He). cbn [map_inr]. eauto.
  - destruct p; cbn [app]; exists FileNotFoundError; auto.
Qed.

Lemma process_scss_unfold (env : Env) (dj : Django)
    (compile : node -> string -> list string -> string + string)
    (w : World) :
  django env = Some dj -> sass env = Some compile ->
  path_exists app_scss_file (fs w) = true ->
  process_scss env w =
  let cs := [c_process_scss; c_sass_compile (str env app_scss_file)] in
  match compile (fs w) (str env app_scss_file) (map (str env) include_paths)
  with
  | inl what => Raise (ExternalError what) (said w (fs w) [] cs)
  | inr css =>
      match write_text static_app_css css (fs w) with
      | inl e => Raise e (said w (fs w) [] cs)
      | inr n1 =>
          Ok tt (said w n1
                   [("✅ Compiled SCSS: " ++ str env app_scss_file ++ " -> "
                       ++ str env static_app_css)%string] cs)
      end
  end.
Proof.
  intros Hdj Hsass Hsrc.
  unfold process_scss, DJANGO_AVAILABLE, SASS_AVAILABLE, sass_compile.
  rewrite Hdj, Hsass. cbn [is_some negb].
  fold app_scss_file static_app_css include_paths.
  unfold bind, trace, exists_, fs_read, fs_op, print. cbn [fs out calls].
  rewrite Hsrc. cbv zeta. unfold said.
  destruct (compile _ _ _) as [what|css]; cbn [external fs out calls].
  { now rewrite app_nil_r, <- app_assoc. }
  destruct (write_text static_app_css css (fs w)) as [e|n1];
    cbn [fs out calls]; now rewrite <- ?app_assoc, ?app_nil_r.
Qed.

(** With both collaborators and the entry file in place, [process_scss]
    cannot get past a missing [static/salford/css]: it does not create
    the directory. *)
Lemma process_scss_no_css_dir (env : Env) (dj : Django)
    (compile : node -> string -> list string -> string + string)
    (w : World) :
  django env = Some dj -> sass env = Some compile ->
  path_exists app_scss_file (fs w) = true ->
  lookup static_css_dir (fs w) = None ->
  exists e w',
    process_scss env w = Raise e w' /\ fs w' = fs w /\
    match compile (fs w) (str env app_scss_file)
            (map (str env) include_paths) with
    | inl what => e = ExternalError what
    | inr _ => os_error e = true
    end.
Proof.
  intros Hdj Hsass Hsrc Hdir.
  rewrite (process_scss_unfold env dj compile w Hdj Hsass Hsrc). cbv zeta.
  destruct (compile _ _ _) as [what|css].
  { eexists _, _. split; [reflexivity|]. auto. }
  unfold write_text, write_bytes.
  change static_app_css with (static_css_dir ++ ["app.css"]).
  rewrite lookup_app, Hdir.
  destruct (put_no_parent static_css_dir "app.css" (File css) _ Hdir)
    as (e & -> & He).
  eexists _, _. split; [reflexivity|]. auto.
Qed.

Lemma put_not_dir (p : path) (x : string) (v n : node) :
  is_dir p n = false ->
  lookup (p ++ [x]) n = None /\
  exists e, put (p ++ [x]) v n = inl e /\
            (e = FileNotFoundError \/ e = NotADirectoryError).
Proof.
  unfold is_dir. revert n. induction p as [|y p IH]; intros n L.
  - destruct n as [d|es]; [|discriminate].
    cbn [app lookup put at_entry]. split; eauto.
  - cbn [app lookup put] in *. destruct n as [d|es]; cbn [at_entry].
    { split; eauto. }
    destruct (get_entry y es) as [c|].
    + destruct (IH c L) as (Hl & e & -> & He). cbn [map_inr]. split; eauto.
    + split; auto. destruct p; cbn [app]; eauto.
Qed.

(** X8.  The four ways [process_scss] ends once both collaborators and
    the entry file [scss/app.scss] are there.  (1) If the compiler
    fails, its error reaches the caller and the tree is as before (an
    earlier [app.css] is kept).  Otherwise the compiler returns a text
    [css], and: (2) if [static/salford/css] is a directory in which
    [app.css] is not a directory, [app.css] holds exactly [css]
    afterwards and nothing else has changed; (3) if [app.css] is a
    directory, the write raises [IsADirectoryError]; (4) if
    [static/salford/css] is not a directory (it is missing, or a
    regular file is in its place or on the way to it), the write raises
    [FileNotFoundError] or [NotADirectoryError].  In (3) and (4) the
    compiler has run for nothing and the tree is as before. *)
Theorem process_scss_outcomes (env : Env) (dj : Django)
    (compile : node -> string -> list string -> string + string)
    (w : World) :
  django env = Some dj -> sass env = Some compile ->
  path_exists app_scss_file (fs w) = true ->
  let result :=
    compile (fs w) (str env app_scss_file) (map (str env) include_paths) in
  let cs := [c_process_scss; c_sass_compile (str env app_scss_file)] in
  (forall what, result = inl what ->
     exists w', process_scss env w = Raise (ExternalError what) w' /\
                fs w' = fs w) /\
  (forall css, result = inr css ->
     is_dir static_css_dir (fs w) = true ->
     is_dir static_app_css (fs w) = false ->
     exists w',
       process_scss env w = Ok tt w' /\
       lookup static_app_css (fs w') = Some (File css) /\
       (forall q, diverges static_app_css q = true ->
                  lookup q (fs w') = lookup q (fs w)) /\
       calls w' = calls w ++ cs) /\
  (forall css, result = inr css ->
     is_dir static_app_css (fs w) = true ->
     exists w',
       process_scss env w = Raise IsADirectoryError w' /\
       fs w' = fs w /\ calls w' = calls w ++ cs) /\
  (forall css, result = inr css ->
     is_dir static_css_dir (fs w) = false ->
     exists e w',
       process_scss env w = Raise e w' /\
       (e = FileNotFoundError \/ e = NotADirectoryError) /\
       fs w' = fs w /\ calls w' = calls w ++ cs).
Proof.
  intros Hdj Hsass Hsrc result cs. subst result cs.
  rewrite (process_scss_unfold env dj compile w Hdj Hsass Hsrc). cbv zeta.
  split; [|split; [|split]].
  - intros what ->. eexists. split; reflexivity.
  - intros css -> Hdir Hfile. unfold is_dir in Hdir, Hfile.
    destruct (lookup static_css_dir (fs w)) as [[d|es]|] eqn:L;
      try discriminate.
    destruct (put_ok_child static_css_dir "app.css" (File css) _ _ L)
      as (n1 & Hput).
    change (static_css_dir ++ ["app.css"]) with static_app_css in Hput.
    assert (write_text static_app_css css (fs w) = inr n1) as ->.
    { unfold write_text, write_bytes.
      destruct (lookup static_app_css (fs w)) as [[d|es']|];
        try discriminate; auto. }
    eexists. split; [reflexivity|]. cbn [said fs calls].
    split; [eapply put_lookup; eauto|]. split; auto.
    intros q Hq. eapply put_frame; eauto.
  - intros css -> Hfile. unfold write_text, write_bytes.
    unfold is_dir in Hfile.
    destruct (lookup static_app_css (fs w)) as [[d|es']|]; try discriminate.
    eexists. split; [reflexivity|]. auto.
  - intros css -> Hdir. unfold write_text, write_bytes.
    change static_app_css with (static_css_dir ++ ["app.css"]).
    destruct (put_not_dir static_css_dir "app.css" (File css) _ Hdir)
      as (-> & e & -> & He).
    eexists _, _. split; [reflexivity|]. auto.
Qed.

Lemma process_scss_outcomes_witness :
  exists e w',
    process_scss env_full (fresh_world scss_only_tree) = Raise e w' /\
    (e = FileNotFoundError \/ e = NotADirectoryError) /\
    fs w' = scss_only_tree.
Proof.
  destruct (process_scss_outcomes env_full _ _ (fresh_world scss_only_tree)
              eq_refl eq_refl eq_refl) as (_ & _ & _ & H).
  destruct (H "a{b:c}" eq_refl eq_refl) as (e & w' & Hr & He & Hfs & _).
  exists e, w'. auto.
Defined.

(** * The full build *)

Lemma bind_ok {A B : Type} (m : M A) (k : A -> M B) (w w' : World) (b : B) :
  bind m k w = Ok b w' -> exists a w1, m w = Ok a w1 /\ k a w1 = Ok b w'.
Proof. unfold bind. destruct (m w) as [a w1|e w1]; [eauto|discriminate]. Qed.

Lemma keeps_ok {A : Type} (q : path) (m : M A) (w w1 : World) (a : A) :
  keeps q m -> m w = Ok a w1 -> lookup q (fs w1) = lookup q (fs w).
Proof. intros K H. specialize (K w). now rewrite H in K. Qed.

Lemma copy_all_assets_ok (env : Env) (w w' : World) (b : bool)
    (es : entries) :
  copy_all_assets env w = Ok b w' ->
  lookup themes_assets (fs w) = Some (Dir es) ->
  lookup static_salford (fs w') = Some (Dir es).
Proof.
  rewrite copy_all_assets_unfold. unfold path_exists at 1. intros H L.
  rewrite L in H. cbn [is_some] in H.
  destruct (if path_exists static_salford (fs w) then _ else _)
    as [e|n1] eqn:R; try discriminate.
  destruct (copytree themes_assets static_salford n1) as [e|n2] eqn:C;
    try discriminate.
  inversion H; subst. cbn [said fs].
  apply copytree_inv in C as (es' & Hsrc & Hdst).
  rewrite Hdst, <- Hsrc, <- L.
  destruct (path_exists static_salford (fs w)).
  - eapply rmtree_frame; eauto.
  - now inversion R.
Qed.

(** X9.  With the framework and the compiler available, the full build
    cannot complete on a theme that has [scss/app.scss] and no [css]
    directory among its assets: [create_paths] makes
    [static/salford/css], [copy_all_assets] then replaces
    [static/salford] by a replica of the assets, in which there is no
    [css], and [process_scss] does not create the directory it writes
    to.  Whatever the state of the rest of the tree, the run ends in an
    exception. *)
Theorem build_full_needs_css_source (env : Env) (dj : Django)
    (compile : node -> string -> list string -> string + string)
    (w : World) :
  django env = Some dj -> sass env = Some compile ->
  path_exists app_scss_file (fs w) = true ->
  path_exists (themes_assets ++ ["css"]) (fs w) = false ->
  exists e w', build_full env w = Raise e w'.
Proof.
  intros Hdj Hsass Hscss Hcss.
  destruct (build_full env w) as [[] w'|e w'] eqn:Hrun; [exfalso|eauto].
  assert (diverges static_salford themes_assets = true) as Hq by reflexivity.
  unfold path_exists in Hscss, Hcss.
  change app_scss_file with (themes_assets ++ ["scss"; "app.scss"]) in Hscss.
  rewrite lookup_app in Hscss, Hcss.
  destruct (lookup themes_assets (fs w)) as [v|] eqn:L; [|discriminate].
  destruct v as [d|es]; [discriminate|].
  unfold build_full in Hrun.
  apply bind_ok in Hrun as (? & w1 & H1 & Hrun).
  apply (keeps_ok themes_assets) in H1; [|apply keeps_trace].
  apply bind_ok in Hrun as (? & w2 & H2 & Hrun).
  apply (keeps_ok themes_assets) in H2; [|apply keeps_print].
  apply bind_ok in Hrun as (? & w3 & H3 & Hrun).
  apply (keeps_ok themes_assets) in H3; [|now apply keeps_create_paths].
  apply bind_ok in Hrun as (? & w4 & H4 & Hrun).
  apply (keeps_ok themes_assets) in H4; [|apply keeps_print].
  apply bind_ok in Hrun as (? & w5 & H5 & Hrun).
  apply (keeps_ok themes_assets) in H5; [|now apply keeps_copy_css_assets].
  apply bind_ok in Hrun as (? & w6 & H6 & Hrun).
  apply (keeps_ok themes_assets) in H6; [|apply keeps_print].
  apply bind_ok in Hrun as (? & w7 & H7 & Hrun).
  assert (lookup themes_assets (fs w6) = Some (Dir es)) as L6
    by (rewrite H6, H5, H4, H3, H2, H1; exact L).
  pose proof (copy_all_assets_ok _ _ _ _ _ H7 L6) as S7.
  apply (keeps_ok themes_assets) in H7; [|now apply keeps_copy_all_assets].
  apply bind_ok in Hrun as (? & w8 & H8 & Hrun).
  pose proof (keeps_ok static_salford _ _ _ _ (keeps_print _ _) H8) as S8.
  apply (keeps_ok themes_assets) in H8; [|apply keeps_print].
  apply bind_ok in Hrun as (? & w9 & H9 & _).
  destruct (process_scss_no_css_dir env dj compile w8 Hdj Hsass)
    as (e & wr & Hr & _).
  - unfold path_exists.
    change app_scss_file with (themes_assets ++ ["scss"; "app.scss"]).
    now rewrite lookup_app, H8, H7, L6.
  - change static_css_dir with (static_salford ++ ["css"]).
    rewrite lookup_app, S8, S7.
    destruct (lookup ["css"] (Dir es)); [discriminate|reflexivity].
  - rewrite Hr in H9. discriminate.
Qed.

Lemma build_full_needs_css_source_witness :
  exists e w', build_full env_full (fresh_world scss_only_tree) = Raise e w'.
Proof.
  exact (build_full_needs_css_source env_full _ _ (fresh_world scss_only_tree)
           eq_refl eq_refl eq_refl eq_refl).
Defined.

(** * The text layer *)

(** Induction along the cases of [universal_newlines]. *)
Lemma universal_newlines_ind (P : string -> Prop) :
  P EmptyString ->
  P (String CR EmptyString) ->
  (forall s, P s -> P (String CR (String LF s))) ->
  (forall c s, c <> LF -> P (String c s) -> P (String CR (String c s))) ->
  (forall c s, c <> CR -> P s -> P (String c s)) ->
  forall s, P s.
Proof.
  intros H0 H1 H2 H3 H4 s.
  enough (P s /\ forall c, P (String c s)) by tauto.
  induction s as [|a s [IH1 IH2]].
  - split; auto. intros c. destruct (Ascii.eqb_spec c CR); subst; auto.
  - split; auto. intros c. destruct (Ascii.eqb_spec c CR); subst; auto.
    destruct (Ascii.eqb_spec a LF); subst; auto.
Qed.

Lemma universal_newlines_other (c : ascii) (s : string) :
  c <> CR ->
  universal_newlines (String c s) = String c (universal_newlines s).
Proof.
  intros H. cbn [universal_newlines].
  now destruct (Ascii.eqb_spec c CR).
Qed.

Lemma universal_newlines_cr (c : ascii) (s : string) :
  c <> LF ->
  universal_newlines (String CR (String c s))
  = String LF (universal_newlines (String c s)).
Proof.
  intros H. cbn [universal_newlines]. change (Ascii.eqb CR CR) with true.
  cbv iota. now destruct (Ascii.eqb_spec c LF).
Qed.

Lemma no_cr_universal_newlines (s : string) :
  no_cr (universal_newlines s) = true.
Proof.
  induction s using universal_newlines_ind; auto.
  - now rewrite universal_newlines_cr.
  - rewrite universal_newlines_other by auto. cbn [no_cr].
    rewrite IHs. now destruct (Ascii.eqb_spec c CR).
Qed.

Lemma universal_newlines_no_cr (s : string) :
  no_cr s = true -> universal_newlines s = s.
Proof.
  induction s as [|c s IH]; auto. cbn [no_cr].
  destruct (Ascii.eqb_spec c CR); [discriminate|]. cbn [negb andb].
  intros H. rewrite universal_newlines_other by auto. now rewrite IH.
Qed.

Lemma no_cr_app (s t : string) :
  no_cr (s ++ t) = no_cr s && no_cr t.
Proof.
  induction s as [|c s IH]; auto. cbn [append no_cr].
  now rewrite IH, andb_assoc.
Qed.

Lemma utf8_step_wf (st st' : utf8_state) (b : N) :
  utf8_step st b = Some st' -> utf8_wf st'.
Proof.
  destruct st as [|more lo hi]; cbn [utf8_step].
  - repeat match goal with
           | |- (if ?c then _ else _) = _ -> _ => destruct c
           end; intros H; inversion H; subst; cbn; lia.
  - destruct (_ && _); [|discriminate].
    destruct more; intros H; inversion H; subst; cbn; lia.
Qed.

(** A carriage return and a line feed are characters of their own:
    inside a multi-byte character neither is accepted, between two
    characters both are. *)
Lemma utf8_step_newline (st : utf8_state) (c : ascii) :
  utf8_wf st -> c = CR \/ c = LF ->
  utf8_step st (N_of_ascii c)
  = match st with U_start => Some U_start | U_cont _ _ _ => None end.
Proof.
  intros W H. destruct st as [|more lo hi]; cbn [utf8_step utf8_wf] in *.
  - destruct H; subst; reflexivity.
  - assert ((lo <=? N_of_ascii c)%N = false) as ->; auto.
    apply N.leb_gt. destruct H; subst; cbn; lia.
Qed.

Lemma utf8_run_cr_inside (more : nat) (lo hi : N) (s : string) :
  utf8_wf (U_cont more lo hi) ->
  utf8_run (U_cont more lo hi) (String CR s) = false.
Proof.
  intros W. cbn [utf8_run]. now rewrite (utf8_step_newline _ CR) by auto.
Qed.

Lemma utf8_run_newline (c : ascii) (s : string) :
  c = CR \/ c = LF -> utf8_run U_start (String c s) = utf8_run U_start s.
Proof. intros [->| ->]; reflexivity. Qed.

Lemma utf8_run_universal_newlines (s : string) (st : utf8_state) :
  utf8_wf st -> utf8_run st s = true ->
  utf8_run st (universal_newlines s) = true.
Proof.
  revert st. induction s using universal_newlines_ind; intros st W; auto.
  - destruct st; [reflexivity|]. now rewrite utf8_run_cr_inside.
  - change (universal_newlines (String CR (String LF s)))
      with (String LF (universal_newlines s)).
    destruct st; [|now rewrite utf8_run_cr_inside].
    rewrite !utf8_run_newline by auto. now apply IHs.
  - rewrite universal_newlines_cr by auto.
    destruct st; [|now rewrite utf8_run_cr_inside].
    rewrite !utf8_run_newline by auto. now apply IHs.
  - rewrite universal_newlines_other by auto. cbn [utf8_run].
    destruct (utf8_step st (N_of_ascii c)) as [st'|] eqn:E; auto.
    apply IHs. eapply utf8_step_wf; eauto.
Qed.

Lemma utf8_run_app (s t : string) (st : utf8_state) :
  utf8_run st s = true -> utf8_run st (s ++ t) = utf8_run U_start t.
Proof.
  revert st. induction s as [|c s IH]; intros st; cbn [append utf8_run].
  - destruct st; [auto|discriminate].
  - destruct (utf8_step st (N_of_ascii c)); [apply IH|discriminate].
Qed.

(** What [read_text] returns is well-formed UTF-8 without carriage
    return. *)
Lemma read_text_inv (p : path) (n : node) (text : string) :
  read_text p n = inr text ->
  valid_utf8 text = true /\ no_cr text = true.
Proof.
  unfold read_text. destruct (read_bytes p n) as [e|d]; [discriminate|].
  destruct (valid_utf8 d) eqn:V; [|discriminate].
  intros H. inversion H; subst. split.
  - apply utf8_run_universal_newlines; [exact I|exact V].
  - apply no_cr_universal_newlines.
Qed.

(** * The script concatenator *)

Lemma for_each_app {A : Type} (l1 l2 : list A) (body : A -> M unit)
    (w : World) :
  for_each (l1 ++ l2) body w
  = match for_each l1 body w with
    | Ok _ w1 => for_each l2 body w1
    | Raise e w1 => Raise e w1
    end.
Proof.
  revert w. induction l1 as [|x l1 IH]; intros w; cbn [app for_each].
  - reflexivity.
  - unfold bind. destruct (body x w) as [[] w1|e w1]; auto.
Qed.

Lemma write_bytes_lookup (p : path) (d : string) (n n' : node) :
  write_bytes p d n = inr n' -> lookup p n' = Some (File d).
Proof.
  unfold write_bytes. destruct (lookup p n) as [[d0|es]|]; try discriminate;
    apply put_lookup.
Qed.

(** The loop of [process_js] keeps the destination a well-formed text
    without carriage return, wherever its sources are. *)
Lemma append_loop_text (dest : path) (srcs : list path) (w w' : World)
    (acc : string) :
  for_each srcs
    (fun src_file =>
       text <- fs_read (read_text src_file) ;;
       fs_op (append_bytes dest text)) w = Ok tt w' ->
  lookup dest (fs w) = Some (File acc) ->
  valid_utf8 acc = true -> no_cr acc = true ->
  exists s, lookup dest (fs w') = Some (File s) /\
            valid_utf8 s = true /\ no_cr s = true.
Proof.
  revert w acc. induction srcs as [|x srcs IH]; intros w acc H L V C.
  - cbn in H. inversion H; subst. eauto.
  - cbn [for_each] in H.
    apply bind_ok in H as ([] & w1 & Hbody & H).
    apply bind_ok in Hbody as (text & w0 & Hread & Happ).
    unfold fs_read in Hread.
    destruct (read_text x (fs w)) as [e|t] eqn:R; inversion Hread; subst.
    apply read_text_inv in R as [Vt Ct].
    unfold fs_op in Happ.
    destruct (append_bytes dest text (fs w0)) as [e|n1] eqn:P;
      inversion Happ; subst.
    unfold append_bytes in P. rewrite L in P.
    apply put_lookup in P.
    apply (IH _ (acc ++ text)%string H); auto.
    + unfold valid_utf8. now rewrite utf8_run_app.
    + now rewrite no_cr_app, C, Ct.
Qed.

(** X10.  What [process_js] writes can be read back as it is: when a
    run that found at least one of the six sources returns,
    [static/salford/js/app.js] is a regular file of well-formed UTF-8
    without carriage return, so that reading it in text mode gives
    exactly its content, whatever line ends the sources had. *)
Theorem process_js_output_rereads (env : Env) (dj : Django) (w w' : World)
    (p : path) :
  django env = Some dj ->
  In p js_sources -> path_exists p (fs w) = true ->
  process_js env w = Ok tt w' ->
  exists s, lookup static_js (fs w') = Some (File s) /\
            read_text static_js (fs w') = inr s.
Proof.
  intros Hdj Hp Hx. rewrite (process_js_unfold env dj w Hdj).
  destruct (mkdir_p static_js_dir (fs w)) as [e|n1] eqn:Hm; [discriminate|].
  assert (In p (filter (fun p => path_exists p n1) js_sources)) as Hin.
  { apply filter_In. split; auto. unfold path_exists.
    rewrite (mkdir_p_frame _ _ _ _ Hm); auto. now apply js_sources_diverge. }
  destruct (filter _ js_sources) as [|src more]; [destruct Hin|].
  destruct (open_w static_js n1) as [e|n2] eqn:Ho; [discriminate|].
  destruct (for_each _ _ _) as [[] w2|e w2] eqn:Hloop; [|discriminate].
  intros H. inversion H; subst. cbn [said fs].
  apply write_bytes_lookup in Ho.
  destruct (append_loop_text _ _ _ _ EmptyString Hloop Ho eq_refl eq_refl)
    as (s & L & V & C).
  exists s. split; auto. unfold read_text.
  apply read_bytes_inv in L. rewrite L, V.
  now rewrite universal_newlines_no_cr.
Qed.

Lemma process_js_output_rereads_witness :
  exists w' s,
    process_js env_full (fresh_world js_tree) = Ok tt w' /\
    lookup static_js (fs w') = Some (File s) /\
    read_text static_js (fs w') = inr s /\
    lookup ["themes"; "salford"; "assets"; "js"; "admin.js"] js_tree
    = Some (File (String "a" (String CR (String LF "b")))).
Proof.
  assert (exists w', process_js env_full (fresh_world js_tree) = Ok tt w')
    as [w' Hrun] by (eexists; vm_compute; reflexivity).
  destruct (process_js_output_rereads env_full _ (fresh_world js_tree) w'
              ["themes"; "salford"; "assets"; "js"; "admin.js"]
              eq_refl (or_introl eq_refl) eq_refl Hrun) as (s & L & R).
  exists w', s. auto.
Defined.

(** X11.  A source that does not decode stops [process_js] half way.
    The destination has been truncated and the texts of the sources
    before the bad one appended, and that is how [app.js] is left: the
    decoding error reaches the caller, no line is printed, and what
    [app.js] held before the run is gone. *)
Theorem process_js_stops_at_undecodable (env : Env) (dj : Django)
    (w : World) (pre post : list path) (bad : path) (d : string) :
  django env = Some dj ->
  clear static_js_dir (fs w) = true ->
  is_dir static_js (fs w) = false ->
  filter (fun p => path_exists p (fs w)) js_sources = pre ++ bad :: post ->
  (forall p, In p pre -> utf8_file (fs w) p) ->
  lookup bad (fs w) = Some (File d) -> valid_utf8 d = false ->
  exists w',
    process_js env w = Raise UnicodeDecodeError w' /\
    lookup static_js (fs w')
    = Some (File (concat_text (map (text_at (fs w)) pre))) /\
    out w' = out w.
Proof.
  intros Hdj Hclear Hdest Hex Hpre Hbad Hinvalid.
  rewrite (process_js_unfold env dj w Hdj).
  destruct (mkdir_p_ok _ _ Hclear) as (n1 & Hm). rewrite Hm.
  assert (forall q, diverges static_js_dir q = true ->
                    lookup q n1 = lookup q (fs w)) as Hf1
    by (intros; eapply mkdir_p_frame; eauto).
  assert (lookup static_js n1 = lookup static_js (fs w)) as Hdest1.
  { change static_js with (static_js_dir ++ "app.js" :: []).
    eapply mkdir_p_below; eauto. }
  assert (filter (fun p => path_exists p n1) js_sources = pre ++ bad :: post)
    as ->.
  { rewrite <- Hex. apply filter_ext_in. intros p Hp. unfold path_exists.
    rewrite Hf1; auto. now apply js_sources_diverge. }
  assert (forall p, In p (pre ++ bad :: post) -> In p js_sources) as Hsrc.
  { intros p Hp. rewrite <- Hex in Hp. now apply filter_In in Hp. }
  destruct (pre ++ bad :: post) as [|src more] eqn:Hlist.
  { now destruct pre. }
  rewrite <- Hlist in *. clear Hlist src more.
  destruct (mkdir_p_lookup _ _ _ Hm) as (es & Hdir).
  destruct (put_ok_child static_js_dir "app.js" (File EmptyString) _ _ Hdir)
    as (n2 & Hput).
  change (static_js_dir ++ ["app.js"]) with static_js in Hput.
  assert (open_w static_js n1 = inr n2) as ->.
  { unfold open_w, write_bytes. rewrite Hdest1. unfold is_dir in Hdest.
    destruct (lookup static_js (fs w)) as [[d0|es']|]; try discriminate; auto. }
  assert (forall q, diverges static_js_dir q = true ->
                    lookup q n2 = lookup q (fs w)) as Hf2.
  { intros q Hq. rewrite <- Hf1 by auto. eapply put_frame; eauto.
    change static_js with (static_js_dir ++ ["app.js"]).
    now apply diverges_app_l. }
  rewrite for_each_app.
  destruct (append_loop static_js pre (said w n2 [] [c_process_js])
              EmptyString) as (n' & Hrun & Hout & Hframe).
  { cbn [said fs]. eapply put_lookup; eauto. }
  { intros p Hp. destruct (Hpre p Hp) as (d0 & Hd & Hv).
    destruct (js_sources_diverge p) as [D1 D2].
    { apply Hsrc, in_or_app. auto. }
    split; auto. exists d0. cbn [said fs]. rewrite Hf2; auto. }
  rewrite Hrun. cbn [for_each]. unfold bind at 1. unfold bind at 1.
  unfold fs_read at 1. cbn [fs out calls said].
  destruct (js_sources_diverge bad) as [D1 D2].
  { apply Hsrc, in_or_app. right. now left. }
  assert (read_text bad n' = inl UnicodeDecodeError) as ->.
  { unfold read_text.
    assert (read_bytes bad n' = inr d) as ->.
    { apply read_bytes_inv. rewrite Hframe, Hf2; auto. }
    now rewrite Hinvalid. }
  eexists. split; [reflexivity|]. cbn [fs out]. split.
  - rewrite Hout. cbn [append]. do 3 f_equal.
    apply map_ext_in. intros p Hp. unfold text_at.
    rewrite Hf2; auto. apply js_sources_diverge, Hsrc, in_or_app. auto.
  - now rewrite app_nil_r.
Qed.

Lemma process_js_stops_at_undecodable_witness :
  exists w',
    process_js env_full (fresh_world mixed_js_tree)
    = Raise UnicodeDecodeError w' /\
    lookup static_js (fs w') = Some (File "a();") /\
    lookup static_js mixed_js_tree = Some (File "old();").
Proof.
  destruct (process_js_stops_at_undecodable env_full _
              (fresh_world mixed_js_tree)
              [["themes"; "salford"; "assets"; "js"; "admin.js"]]
              [["themes"; "salford"; "assets"; "js"; "toastr.js"]]
              ["themes"; "salford"; "assets"; "js"; "app.js"]
              (String (ascii_of_nat 233) EmptyString)
              eq_refl eq_refl eq_refl eq_refl)
    as (w' & Hrun & Hjs & _).
  - intros p [<-|[]]. exists "a();"%string. split; reflexivity.
  - reflexivity.
  - reflexivity.
  - exists w'. repeat split; auto.
Defined.

(** * The watcher's edges *)

(** X12.  Watch mode does not wait for a stylesheet that is not there.
    When [css/salford.css] is missing from the theme (and no regular
    file is in the way of [static/salford/css]), the initial copy
    reports it, [watch_and_copy] reports it again and returns: the
    mode ends at once, whatever the world had in store for the polls;
    the file is never polled and there is no sleep.  All that has
    changed is that [static/salford/css] exists. *)
Theorem watch_mode_without_source (env : Env) (prog : string)
    (rest : list string) (mtime0 : Z) (ticks : list tick) (w : World) :
  path_exists themes_css (fs w) = false ->
  clear static_css_dir (fs w) = true ->
  let missing :=
    ("❌ Source CSS file not found: " ++ str env themes_css)%string in
  exists w',
    main env (prog :: "watch" :: rest) mtime0 ticks w = Ok tt w' /\
    mkdir_p static_css_dir (fs w) = inr (fs w') /\
    calls w' = calls w ++ [c_copy_css_assets; c_watch_and_copy] /\
    out w' = out w ++ [ "🎨 Salford Theme CSS Watcher"; str_mul "=" 40;
                        "📋 Performing initial copy..."; missing; missing ].
Proof.
  intros Hsrc Hclear missing.
  destruct (mkdir_p_ok _ _ Hclear) as (n1 & Hm).
  assert (path_exists themes_css n1 = false) as Hsrc1.
  { unfold path_exists in *.
    now rewrite (mkdir_p_frame _ _ _ _ Hm) by reflexivity. }
  unfold main. cbn [String.eqb Ascii.eqb Bool.eqb orb andb].
  unfold bind at 1, print at 1. unfold bind at 1, print at 1.
  unfold bind at 1, print at 1. unfold bind at 1.
  rewrite copy_css_assets_unfold. cbn [fs out calls].
  rewrite Hm, Hsrc1. rewrite watch_and_copy_unfold. cbn [said fs out calls].
  rewrite Hsrc1. eexists. split; [reflexivity|]. cbn [said fs out calls].
  split; auto. split; now rewrite <- !app_assoc.
Qed.

Lemma watch_mode_without_source_witness :
  exists w',
    main env_bare ["build_assets.py"; "watch"] 100 five_ticks
      (fresh_world empty_tree) = Ok tt w' /\
    calls w' = [c_copy_css_assets; c_watch_and_copy] /\
    is_dir static_css_dir (fs w') = true.
Proof.
  destruct (watch_mode_without_source env_bare "build_assets.py" [] 100
              five_ticks (fresh_world empty_tree) eq_refl eq_refl)
    as (w' & Hrun & Hfs & Hcalls & _).
  exists w'. split; [exact Hrun|]. split; [exact Hcalls|].
  cbn in Hfs. inversion Hfs. reflexivity.
Defined.

Lemma resolve_gone (p : path) (n : node) :
  lookup p n = None ->
  exists e, resolve p n = inl e /\
            (e = FileNotFoundError \/ e = NotADirectoryError).
Proof.
  revert n. induction p as [|x p IH]; intros n L; [discriminate|].
  cbn [resolve lookup] in *. destruct n as [d|es]; [eauto|].
  destruct (get_entry x es); eauto.
Qed.

(** X13.  The watcher does not survive the loss of its file.  In any
    state of the loop in which the watched path cannot be resolved and
    a poll is still to come, the poll raises the operating system's
    error; the handler around the loop is for the interrupt only, so
    the error leaves [watch_and_copy] and the farewell line is not
    printed.  Nothing is copied and the tree stays as it is. *)
Theorem watch_loop_file_gone (env : Env) (t : tick) (ticks : list tick)
    (last : Z) (farewell : M unit) (w : World) :
  lookup themes_css (fs w) = None ->
  exists e,
    try_except_KeyboardInterrupt
      (watch_loop env themes_css (t :: ticks) last) farewell w
    = Raise e (said w (fs w) [] [c_stat]) /\
    (e = FileNotFoundError \/ e = NotADirectoryError).
Proof.
  intros Hgone. unfold try_except_KeyboardInterrupt. cbn [watch_loop].
  unfold bind at 1, stat_st_mtime. unfold bind at 1, trace, fs_read.
  cbn [fs out calls].
  assert (exists e, resolve themes_css (fs w) = inl e /\
                    (e = FileNotFoundError \/ e = NotADirectoryError))
    as (e & -> & He).
  { now apply resolve_gone. }
  exists e. split; auto. unfold said. rewrite app_nil_r.
  destruct He as [-> | ->]; reflexivity.
Qed.

Lemma watch_loop_file_gone_witness :
  exists e,
    try_except_KeyboardInterrupt
      (watch_loop env_bare themes_css five_ticks 100)
      (print "bye") (fresh_world empty_tree)
    = Raise e (said (fresh_world empty_tree) empty_tree [] [c_stat]) /\
    (e = FileNotFoundError \/ e = NotADirectoryError).
Proof.
  exact (watch_loop_file_gone env_bare _ _ 100 (print "bye")
           (fresh_world empty_tree) eq_refl).
Defined.

(** * The full build and its collaborators *)

Lemma copy_css_assets_base (env env' : Env) (w : World) :
  BASE_DIR env = BASE_DIR env' ->
  copy_css_assets env w = copy_css_assets env' w.
Proof.
  intros H. rewrite !copy_css_assets_unfold. unfold str. now rewrite H.
Qed.

Lemma copy_all_assets_base (env env' : Env) (w : World) :
  BASE_DIR env = BASE_DIR env' ->
  copy_all_assets env w = copy_all_assets env' w.
Proof.
  intros H. rewrite !copy_all_assets_unfold. unfold str. now rewrite H.
Qed.

(** X14.  Without the framework the compiler is never used, installed
    or not: every step that could call it asks for the framework
    first.  Two environments that both lack the framework and share
    the base directory give the same run of the full build, whatever
    each of them has as compiler and minifier: the same result, tree,
    console output and calls. *)
Theorem build_full_without_framework (env env' : Env) (w : World) :
  django env = None -> django env' = None ->
  BASE_DIR env = BASE_DIR env' ->
  build_full env w = build_full env' w.
Proof.
  intros H H' Hbase. rewrite !build_full_no_django by assumption.
  destruct (create_paths _) as [p wa|e wa]; auto.
  rewrite (copy_css_assets_base env env') by assumption.
  destruct (copy_css_assets env' _) as [b wb|e wb]; auto.
  now rewrite (copy_all_assets_base env env') by assumption.
Qed.

Lemma build_full_without_framework_witness :
  build_full
    {| BASE_DIR := "/srv/site/src"; sass := Some (fun _ _ _ => inr "a{b:c}");
       jsmin := true; django := None |} (fresh_world scss_only_tree)
  = build_full env_bare (fresh_world scss_only_tree).
Proof.
  apply build_full_without_framework; reflexivity.
Defined.

Lemma print_ok (s : string) (w w1 : World) (a : unit) :
  print s w = Ok a w1 ->
  fs w1 = fs w /\ out w1 = out w ++ [s] /\ calls w1 = calls w.
Proof. unfold print. intros H. inversion H; subst. auto. Qed.

(** X15.  A full build that returns, with the framework available, has
    handed the tree to [collectstatic] as its last act: the tree it
    leaves is exactly what that command returned, the call is the last
    one made, and the two last lines on the console are the
    announcement of the command and the word of completion. *)
Theorem build_full_ends_with_collectstatic (env : Env) (dj : Django)
    (w w' : World) :
  django env = Some dj ->
  build_full env w = Ok tt w' ->
  exists n cs ls,
    collectstatic dj n = inr (fs w') /\
    calls w' = cs ++ [c_collectstatic] /\
    out w' = ls ++ ["📦 Running collectstatic..."; "✅ Full build completed!"].
Proof.
  intros Hdj Hrun. unfold build_full, DJANGO_AVAILABLE in Hrun.
  rewrite Hdj in Hrun. cbn [is_some] in Hrun.
  apply bind_ok in Hrun as (? & w1 & _ & Hrun).
  apply bind_ok in Hrun as (? & w2 & _ & Hrun).
  apply bind_ok in Hrun as (? & w3 & _ & Hrun).
  apply bind_ok in Hrun as (? & w4 & _ & Hrun).
  apply bind_ok in Hrun as (? & w5 & _ & Hrun).
  apply bind_ok in Hrun as (? & w6 & _ & Hrun).
  apply bind_ok in Hrun as (? & w7 & _ & Hrun).
  apply bind_ok in Hrun as (? & w8 & _ & Hrun).
  apply bind_ok in Hrun as (? & w9 & _ & Hrun).
  apply bind_ok in Hrun as (? & w10 & _ & Hrun).
  apply bind_ok in Hrun as (? & w11 & _ & Hrun).
  apply bind_ok in Hrun as (? & w12 & Hlast & Hdone).
  apply bind_ok in Hlast as (? & w13 & _ & Hlast).
  apply bind_ok in Hlast as (? & w14 & _ & Hlast).
  apply bind_ok in Hlast as (? & w15 & Hsay & Hcollect).
  apply print_ok in Hsay as (Hf15 & Ho15 & Hc15).
  apply print_ok in Hdone as (Hf & Ho & Hc).
  unfold call_command_collectstatic in Hcollect. rewrite Hdj in Hcollect.
  unfold bind, trace, fs_op in Hcollect. cbn [fs out calls] in Hcollect.
  destruct (collectstatic dj (fs w15)) as [what|n] eqn:E;
    cbn [external] in Hcollect; inversion Hcollect; subst w12.
  cbn [fs out calls] in *.
  exists (fs w15), (calls w15), (out w14).
  rewrite Hf, Hc, Ho, Ho15, <- app_assoc. auto.
Qed.

Lemma build_full_ends_with_collectstatic_witness :
  exists w' cs ls,
    build_full env_full (fresh_world theme_tree) = Ok tt w' /\
    calls w' = cs ++ [c_collectstatic] /\
    out w' = ls ++ ["📦 Running collectstatic..."; "✅ Full build completed!"].
Proof.
  assert (exists w', build_full env_full (fresh_world theme_tree) = Ok tt w')
    as [w' Hrun] by (eexists; vm_compute; reflexivity).
  destruct (build_full_ends_with_collectstatic env_full _ _ w' eq_refl Hrun)
    as (n & cs & ls & _ & Hc & Ho).
  exists w', cs, ls. auto.
Defined.

(** * A directory in the place of the copied stylesheet *)

(** X16.  A directory at [static/salford/css/salford.css] is never
    replaced by [copy_css_assets]; what the call does then depends on
    the theme's stylesheet.  (1) If it is missing, the call reports it
    and returns false, the tree unchanged.  (2) If it is a regular
    file and the directory holds no directory named [salford.css], the
    file is copied into the directory under its own name and the call
    returns true: the path the success line names is still a
    directory.  (3) If it is a regular file and the directory does hold
    a directory named [salford.css], or (4) if the stylesheet is itself
    a directory, the copy raises [IsADirectoryError] and the tree is
    unchanged. *)
Theorem copy_css_assets_into_existing_dir (env : Env) (w : World) :
  is_dir static_css (fs w) = true ->
  let inner := static_css ++ ["salford.css"] in
  (lookup themes_css (fs w) = None ->
   exists w', copy_css_assets env w = Ok false w' /\ fs w' = fs w) /\
  (forall d,
     lookup themes_css (fs w) = Some (File d) ->
     is_dir inner (fs w) = false ->
     exists w',
       copy_css_assets env w = Ok true w' /\
       lookup inner (fs w') = Some (File d) /\
       is_dir static_css (fs w') = true /\
       (forall q, diverges inner q = true ->
                  lookup q (fs w') = lookup q (fs w))) /\
  (forall d,
     lookup themes_css (fs w) = Some (File d) ->
     is_dir inner (fs w) = true ->
     exists w', copy_css_assets env w = Raise IsADirectoryError w' /\
                fs w' = fs w) /\
  (forall es,
     lookup themes_css (fs w) = Some (Dir es) ->
     exists w', copy_css_assets env w = Raise IsADirectoryError w' /\
                fs w' = fs w).
Proof.
  intros Hdir inner. subst inner. rewrite copy_css_assets_unfold.
  unfold is_dir in Hdir.
  destruct (lookup static_css (fs w)) as [[d0|ds]|] eqn:L; try discriminate.
  destruct (lookup_app_dir static_css_dir [] "salford.css" _ _ L)
    as (es0 & L0).
  rewrite (mkdir_p_existing _ _ _ L0). unfold path_exists.
  split; [|split; [|split]].
  - intros ->. cbn [is_some]. eexists. split; reflexivity.
  - intros d Hsrc Hinner. rewrite Hsrc. cbn [is_some].
    unfold copy2, is_dir. rewrite L.
    apply read_bytes_inv in Hsrc as ->. cbn [basename last themes_css].
    destruct (put_ok_child static_css "salford.css" (File d) _ _ L)
      as (n2 & Hput).
    assert (write_bytes (static_css ++ ["salford.css"]) d (fs w) = inr n2)
      as ->.
    { unfold write_bytes. unfold is_dir in Hinner.
      destruct (lookup (static_css ++ ["salford.css"]) (fs w)) as [[d1|es1]|];
        try discriminate; auto. }
    eexists. split; [reflexivity|]. cbn [said fs].
    split; [eapply put_lookup; eauto|]. split.
    + destruct (put_prefix_dir static_css [] "salford.css" _ _ _ Hput)
        as (es' & ->). reflexivity.
    + intros q Hq. eapply put_frame; eauto.
  - intros d Hsrc Hinner. rewrite Hsrc. cbn [is_some].
    unfold copy2, is_dir. rewrite L.
    apply read_bytes_inv in Hsrc as ->. cbn [basename last themes_css].
    unfold write_bytes. unfold is_dir in Hinner.
    destruct (lookup (static_css ++ ["salford.css"]) (fs w)) as [[d1|es1]|];
      try discriminate.
    eexists. split; reflexivity.
  - intros es Hsrc. rewrite Hsrc. cbn [is_some].
    unfold copy2, read_bytes.
    apply resolve_lookup in Hsrc as ->.
    eexists. split; reflexivity.
Qed.

Lemma copy_css_assets_into_existing_dir_witness :
  exists w',
    copy_css_assets env_bare (fresh_world css_is_dir_tree) = Ok true w' /\
    lookup (static_css ++ ["salford.css"]) (fs w')
    = Some (File "body { margin: 0 }") /\
    is_dir static_css (fs w') = true.
Proof.
  destruct (copy_css_assets_into_existing_dir env_bare
              (fresh_world css_is_dir_tree) eq_refl) as (_ & H & _).
  destruct (H "body { margin: 0 }" eq_refl eq_refl)
    as (w' & Hrun & Hin & Hdir & _).
  exists w'. auto.
Defined.

(** * Which files count as stylesheets *)

Lemma rfind_dot_app (s t : string) (i : nat) (found : option nat) :
  rfind_dot (s ++ t) i found
  = rfind_dot t (i + String.length s) (rfind_dot s i found).
Proof.
  revert i found. induction s as [|c s IH]; intros i found;
    cbn [append rfind_dot String.length].
  - now rewrite Nat.add_0_r.
  - rewrite IH. now rewrite Nat.add_succ_r.
Qed.

Lemma string_length_app (s t : string) :
  String.length (s ++ t) = String.length s + String.length t.
Proof. induction s as [|c s IH]; cbn; congruence. Qed.

Lemma substring_skip (s t : string) (m : nat) :
  substring (String.length s) m (s ++ t) = substring 0 m t.
Proof. induction s as [|c s IH]; cbn; auto. Qed.

Lemma substring_all (s : string) : substring 0 (String.length s) s = s.
Proof. induction s as [|c s IH]; cbn; congruence. Qed.

Lemma substring_split (s : string) (i : nat) :
  i <= String.length s ->
  s = (substring 0 i s ++ substring i (String.length s - i) s)%string.
Proof.
  revert i. induction s as [|c s IH]; intros i Hi.
  - cbn in Hi. assert (i = 0) as -> by lia. reflexivity.
  - destruct i as [|i].
    + cbn [substring append String.length Nat.sub].
      now rewrite substring_all.
    + cbn [substring append String.length Nat.sub]. f_equal.
      apply IH. cbn in Hi. lia.
Qed.

(** X17.  The rule by which [process_journals] takes a directory entry
    for a stylesheet: the suffix of a file name is [.scss] exactly when
    the name is a non-empty stem followed by [.scss].  Any further dots
    in the stem do not matter, and a file named [.scss] alone has no
    suffix and is passed over. *)
Theorem suffix_scss (file : string) :
  suffix file = ".scss" <->
  exists stem, stem <> EmptyString /\ file = (stem ++ ".scss")%string.
Proof.
  unfold suffix. split.
  - destruct (rfind_dot file 0 None) as [i|]; [|discriminate].
    destruct (0 <? i)%nat eqn:H0; [|discriminate].
    destruct (i <? String.length file - 1)%nat eqn:H1; [|discriminate].
    cbn [andb]. intros H.
    apply Nat.ltb_lt in H0, H1.
    exists (substring 0 i file). split.
    + destruct file as [|c file]; [cbn in H1; lia|].
      destruct i; [lia|]. discriminate.
    + rewrite <- H. apply substring_split. lia.
  - intros (stem & Hstem & ->).
    rewrite rfind_dot_app. cbn [rfind_dot Ascii.eqb Bool.eqb Nat.add].
    rewrite string_length_app. cbn [String.length].
    assert (0 < String.length stem) as Hlen
      by (destruct stem; [congruence|cbn; lia]).
    assert ((0 <? String.length stem)%nat = true) as ->
      by now apply Nat.ltb_lt.
    assert ((String.length stem <? String.length stem + 5 - 1)%nat = true) as ->
      by (apply Nat.ltb_lt; lia).
    cbn [andb].
    replace (String.length stem + 5 - String.length stem) with 5 by lia.
    now rewrite substring_skip.
Qed.

(** * When the directories can be made *)

Lemma mkdir_p_reflects_clear (q p : path) (n n' : node) :
  mkdir_p q n = inr n' -> clear p n' = true -> clear p n = true.
Proof.
  revert p n n'. induction q as [|y q IH]; intros p n n' H C; simpl in H.
  - destruct n; inversion H; subst; auto.
  - apply at_entry_inv in H as (es & oc & -> & Hf & ->).
    destruct p as [|x p]; [reflexivity|].
    destruct oc as [c'|].
    + simpl in *. destruct (String.eqb y x) eqn:E.
      * apply String.eqb_eq in E. subst x. rewrite get_set_same in C.
        destruct (get_entry y es) as [c|] eqn:G; auto.
        apply map_inr_inv in Hf as (c'' & Hc & Heq).
        inversion Heq; subst. eauto.
      * apply String.eqb_neq in E. now rewrite get_set_other in C.
    + destruct (get_entry y es); [|discriminate].
      apply map_inr_inv in Hf as (c'' & _ & Heq). discriminate.
Qed.

(** X18.  [create_paths] returns exactly when no regular file sits at,
    or on the way to, any of the four directories it is to make; in
    every other state it raises.  Directories that exist already,
    with whatever they hold, are never an obstacle. *)
Theorem create_paths_returns_iff (w : World) :
  (exists p w1, create_paths w = Ok p w1) <->
  Forall (fun dir => clear dir (fs w) = true) static_folders.
Proof.
  split.
  - intros (p & w1 & H). rewrite create_paths_unfold in H.
    destruct (mkdir_p _ (fs w)) as [e|n1] eqn:H1; try discriminate.
    destruct (mkdir_p _ n1) as [e|n2] eqn:H2; try discriminate.
    destruct (mkdir_p _ n2) as [e|n3] eqn:H3; try discriminate.
    destruct (mkdir_p _ n3) as [e|n4] eqn:H4; try discriminate.
    clear H.
    apply mkdir_p_clear in H4. apply mkdir_p_clear in H3 as C3.
    apply mkdir_p_clear in H2 as C2. apply mkdir_p_clear in H1 as C1.
    repeat constructor; cbn [app static_salford]; auto.
    + eapply mkdir_p_reflects_clear; eauto.
    + eapply mkdir_p_reflects_clear; eauto.
      eapply mkdir_p_reflects_clear; eauto.
    + eapply mkdir_p_reflects_clear; eauto.
      eapply mkdir_p_reflects_clear; eauto.
      eapply mkdir_p_reflects_clear; eauto.
  - intros H. destruct (create_paths_ok w H) as (wa & Hrun & _). eauto.
Qed.

(** * The help text *)

(** X19.  Each of the three spellings of the help mode prints the
    fourteen lines of the usage text and does nothing else: the tree
    is not read or changed and no function of the asset pipeline is
    entered, whatever follows the token on the command line and
    whichever collaborators are installed. *)
Theorem main_help (env : Env) (prog token : string) (rest : list string)
    (mtime0 : Z) (ticks : list tick) (w : World) :
  In token ["help"; "--help"; "-h"] ->
  main env (prog :: token :: rest) mtime0 ticks w
  = Ok tt (said w (fs w) usage [c_show_help]) /\
  length usage = 14.
Proof.
  intros H. split; [|reflexivity].
  destruct H as [<-|[<-|[<-|[]]]]; unfold main;
    cbn [String.eqb Ascii.eqb Bool.eqb orb andb]; apply show_help_run.
Qed.

Lemma main_help_witness :
  main env_full ["build_assets.py"; "--help"; "now"] 0 []
    (fresh_world theme_tree)
  = Ok tt (said (fresh_world theme_tree) theme_tree usage [c_show_help]).
Proof.
  apply (main_help env_full "build_assets.py" "--help" ["now"] 0 []
           (fresh_world theme_tree)).
  right. left. reflexivity.
Defined.

(** * What is caught and what is not *)

(** ** The modes pass on what their statements raise *)

Lemma steps_raise (pre post : list (M unit)) (s : M unit) (w w1 w' : World)
    (e : exn) :
  steps pre w = Ok tt w1 -> s w1 = Raise e w' ->
  steps (pre ++ s :: post) w = Raise e w'.
Proof.
  unfold steps. intros H1 H2. rewrite for_each_app, H1. cbn [for_each].
  unfold bind. now rewrite H2.
Qed.

Lemma build_simple_steps (env : Env) (w : World) :
  build_simple env w = steps (copy_steps env) w.
Proof.
  unfold build_simple, steps, copy_steps. cbn [for_each]. unfold ignore.
  unfold bind, trace, print, ret. cbn [fs out calls].
  destruct (copy_css_assets env _) as [b wa|e wa]; [|reflexivity].
  destruct (copy_all_assets env _) as [b' wb|e wb]; reflexivity.
Qed.

Lemma watch_mode_steps (env : Env) (prog : string) (rest : list string)
    (mtime0 : Z) (ticks : list tick) (w : World) :
  main env (prog :: "watch" :: rest) mtime0 ticks w
  = steps (watch_steps env mtime0 ticks) w.
Proof.
  unfold main. cbn [String.eqb Ascii.eqb Bool.eqb orb andb].
  unfold steps, watch_steps. cbn [for_each]. unfold ignore.
  unfold bind, print, ret. cbn [fs out calls].
  destruct (copy_css_assets env _) as [b wa|e wa]; [|reflexivity].
  destruct (watch_and_copy env _ _ _) as [[] wb|e wb]; reflexivity.
Qed.

Lemma build_full_steps (env : Env) (w : World) :
  build_full env w = steps (build_steps env) w.
Proof.
  unfold build_full, steps, build_steps, include_paths.
  destruct (DJANGO_AVAILABLE env); cbn [app for_each]; unfold ignore;
    unfold bind, trace, print, ret; cbn [fs out calls];
    (destruct (create_paths _) as [p wa|e wa] eqn:Hc;
       [apply create_paths_returns in Hc; subst p|reflexivity]);
    (destruct (copy_css_assets env _) as [b wb|e wb]; [|reflexivity]);
    (destruct (copy_all_assets env _) as [b' wc|e wc]; [|reflexivity]);
    (destruct (process_scss env _) as [[] wd|e wd]; [|reflexivity]);
    (destruct (process_js env _) as [[] we|e we]; [|reflexivity]).
  - destruct (process_journals env _ _ _) as [[] wf|e wf]; [|reflexivity].
    destruct (call_command_collectstatic env _) as [[] wg|e wg]; reflexivity.
  - reflexivity.
Qed.

Lemma main_mode_steps (env : Env) (prog mode : string) (rest : list string)
    (mtime0 : Z) (ticks : list tick) (l : list (M unit)) (w : World) :
  In (mode, l) (mode_steps env mtime0 ticks) ->
  main env (prog :: mode :: rest) mtime0 ticks w = steps l w.
Proof.
  intros [H|[H|[H|[]]]]; injection H as <- <-.
  - apply build_simple_steps.
  - apply watch_mode_steps.
  - apply build_full_steps.
Qed.

(** ** The watcher *)

Lemma stat_run (p : path) (observed : Z) (w : World) :
  stat_st_mtime p observed w
  = match resolve p (fs w) with
    | inl e => Raise e (said w (fs w) [] [c_stat])
    | inr _ => Ok observed (said w (fs w) [] [c_stat])
    end.
Proof.
  unfold stat_st_mtime, bind, trace, fs_read, said. cbn [fs out calls].
  rewrite app_nil_r. now destruct (resolve p (fs w)).
Qed.

Lemma os_error_not_interrupt (e : exn) :
  os_error e = true -> is_KeyboardInterrupt e = false.
Proof. now destruct e. Qed.

Lemma watch_loop_gone (env : Env) (t : tick) (ticks : list tick) (last : Z)
    (w : World) :
  lookup themes_css (fs w) = None ->
  exists e,
    watch_loop env themes_css (t :: ticks) last w
    = Raise e (said w (fs w) [] [c_stat]) /\ os_error e = true.
Proof.
  intros H. cbn [watch_loop]. unfold bind at 1. rewrite stat_run.
  destruct (resolve_gone _ _ H) as (e & -> & He).
  exists e. split; auto. destruct He; subst; reflexivity.
Qed.

Lemma watch_loop_vanish (env : Env) (t t' : tick) (more : list tick)
    (last : Z) (w : World) (v : node) :
  lookup themes_css (fs w) = Some v ->
  (forall n, lookup themes_css (edit t n) = None) ->
  exists e w',
    watch_loop env themes_css (t :: t' :: more) last w = Raise e w' /\
    os_error e = true.
Proof.
  intros Hv Hedit.
  assert (forall last' wx, exists e w',
            bind (sleep (edit t))
              (fun _ => watch_loop env themes_css (t' :: more) last') wx
            = Raise e w' /\ os_error e = true) as Hnext.
  { intros last' wx. unfold bind at 1, sleep, bind, trace, fs_op.
    cbn [fs out calls].
    destruct (watch_loop_gone env t' more last'
                {| fs := edit t (fs wx); out := out wx;
                   calls := calls wx ++ [c_sleep] |}) as (e & -> & He);
      eauto. }
  cbn [watch_loop]. unfold bind at 1. rewrite stat_run.
  apply resolve_lookup in Hv. rewrite Hv.
  destruct (st_mtime t >? last)%Z; [|apply Hnext].
  unfold bind at 1, print at 1. unfold bind at 1.
  destruct (copy_css_assets env _) as [b w4|e w4] eqn:Hc.
  - unfold bind at 1. destruct b; [unfold print at 1|unfold ret at 1];
      apply Hnext.
  - exists e, w4. split; auto. eapply copy_css_assets_raises; eauto.
Qed.

Lemma watch_file_vanishes (env : Env) (prog : string) (rest : list string)
    (mtime0 : Z) (t t' : tick) (more : list tick) (w : World) :
  path_exists themes_css (fs w) = true ->
  (forall n, lookup themes_css (edit t n) = None) ->
  exists e w',
    main env (prog :: "watch" :: rest) mtime0 (t :: t' :: more) w
    = Raise e w' /\ os_error e = true.
Proof.
  intros Hsrc Hedit. unfold main.
  cbn [String.eqb Ascii.eqb Bool.eqb orb andb].
  unfold bind at 1, print at 1. unfold bind at 1, print at 1.
  unfold bind at 1, print at 1. unfold bind at 1.
  destruct (copy_css_assets env _) as [b w1|e w1] eqn:Hc.
  - apply copy_css_assets_footprint in Hc as (_ & _ & Hf).
    specialize (Hf themes_css eq_refl). cbn [fs] in Hf.
    rewrite watch_and_copy_unfold. unfold path_exists in *. rewrite Hf.
    destruct (lookup themes_css (fs w)) as [v|] eqn:L; [|discriminate].
    cbn [is_some].
    destruct (watch_loop_vanish env t t' more mtime0
                (said w1 (fs w1)
                   [("👀 Watching for changes in: "
                       ++ str env themes_css)%string;
                    "Press Ctrl+C to stop watching"]
                   [c_watch_and_copy; c_stat]) v)
      as (e & w' & -> & He); auto.
    rewrite (os_error_not_interrupt e He). eauto.
  - exists e, w1. split; auto. eapply copy_css_assets_raises; eauto.
Qed.

(** ** The operating system *)

Lemma mkdir_p_blocked (p : path) (n : node) :
  clear p n = false -> exists e, mkdir_p p n = inl e /\ os_error e = true.
Proof.
  intros H. destruct (mkdir_p p n) as [e|n'] eqn:M.
  - eauto using mkdir_p_raises.
  - apply mkdir_p_clear in M. congruence.
Qed.

Lemma copy_all_assets_source_file (env : Env) (w : World) (d : string) :
  lookup themes_assets (fs w) = Some (File d) ->
  exists w', copy_all_assets env w = Raise NotADirectoryError w'.
Proof.
  intros Hsrc. rewrite copy_all_assets_unfold. unfold path_exists.
  rewrite Hsrc. cbn [is_some].
  destruct (lookup static_salford (fs w)) as [[d0|ds]|] eqn:L; cbn [is_some].
  - unfold rmtree. apply resolve_lookup in L as ->. eauto.
  - destruct (remove_ok static_salford (fs w) _ ltac:(discriminate) L)
      as (n1 & Hr & _).
    unfold rmtree. apply resolve_lookup in L as ->. rewrite Hr.
    unfold copytree.
    assert (resolve themes_assets n1 = inr (File d)) as ->; eauto.
    apply resolve_lookup.
    now rewrite (remove_frame _ themes_assets _ _ Hr eq_refl).
  - unfold copytree. apply resolve_lookup in Hsrc as ->. eauto.
Qed.

(** ** Reading a script *)

Lemma read_text_same (p : path) (n n' v : node) :
  lookup p n = Some v -> lookup p n' = Some v ->
  read_text p n' = read_text p n.
Proof.
  intros H H'. unfold read_text, read_bytes.
  apply resolve_lookup in H, H'. now rewrite H, H'.
Qed.

Lemma process_js_read_error (env : Env) (dj : Django) (w : World)
    (pre post : list path) (bad : path) (v : node) (e : exn) :
  django env = Some dj ->
  clear static_js_dir (fs w) = true ->
  is_dir static_js (fs w) = false ->
  filter (fun p => path_exists p (fs w)) js_sources = pre ++ bad :: post ->
  (forall p, In p pre -> utf8_file (fs w) p) ->
  lookup bad (fs w) = Some v -> read_text bad (fs w) = inl e ->
  exists w', process_js env w = Raise e w'.
Proof.
  intros Hdj Hclear Hdest Hex Hpre Hbad Hread.
  rewrite (process_js_unfold env dj w Hdj).
  destruct (mkdir_p_ok _ _ Hclear) as (n1 & Hm). rewrite Hm.
  assert (forall q, diverges static_js_dir q = true ->
                    lookup q n1 = lookup q (fs w)) as Hf1
    by (intros; eapply mkdir_p_frame; eauto).
  assert (lookup static_js n1 = lookup static_js (fs w)) as Hdest1.
  { change static_js with (static_js_dir ++ "app.js" :: []).
    eapply mkdir_p_below; eauto. }
  assert (filter (fun p => path_exists p n1) js_sources = pre ++ bad :: post)
    as ->.
  { rewrite <- Hex. apply filter_ext_in. intros p Hp. unfold path_exists.
    rewrite Hf1; auto. now apply js_sources_diverge. }
  assert (forall p, In p (pre ++ bad :: post) -> In p js_sources) as Hsrc.
  { intros p Hp. rewrite <- Hex in Hp. now apply filter_In in Hp. }
  destruct (pre ++ bad :: post) as [|src more] eqn:Hlist.
  { now destruct pre. }
  rewrite <- Hlist in *. clear Hlist src more.
  destruct (mkdir_p_lookup _ _ _ Hm) as (es & Hdir).
  destruct (put_ok_child static_js_dir "app.js" (File EmptyString) _ _ Hdir)
    as (n2 & Hput).
  change (static_js_dir ++ ["app.js"]) with static_js in Hput.
  assert (open_w static_js n1 = inr n2) as ->.
  { unfold open_w, write_bytes. rewrite Hdest1. unfold is_dir in Hdest.
    destruct (lookup static_js (fs w)) as [[d0|es']|]; try discriminate; auto. }
  assert (forall q, diverges static_js_dir q = true ->
                    lookup q n2 = lookup q (fs w)) as Hf2.
  { intros q Hq. rewrite <- Hf1 by auto. eapply put_frame; eauto.
    change static_js with (static_js_dir ++ ["app.js"]).
    now apply diverges_app_l. }
  rewrite for_each_app.
  destruct (append_loop static_js pre (said w n2 [] [c_process_js])
              EmptyString) as (n' & Hrun & _ & Hframe).
  { cbn [said fs]. eapply put_lookup; eauto. }
  { intros p Hp. destruct (Hpre p Hp) as (d0 & Hd & Hv).
    destruct (js_sources_diverge p) as [D1 D2].
    { apply Hsrc, in_or_app. auto. }
    split; auto. exists d0. cbn [said fs]. rewrite Hf2; auto. }
  rewrite Hrun. cbn [for_each]. unfold bind at 1. unfold bind at 1.
  unfold fs_read at 1. cbn [fs out calls said].
  destruct (js_sources_diverge bad) as [D1 D2].
  { apply Hsrc, in_or_app. right. now left. }
  rewrite (read_text_same bad (fs w) n' v Hbad), Hread; eauto.
  rewrite Hframe, Hf2; auto.
Qed.

(** ** The tenants *)

Lemma process_journals_tenant_error (env : Env) (dj : Django)
    (compile : node -> string -> list string -> string + string)
    (dir : path) (paths : list path) (pre post : list Journal) (j : Journal)
    (w w1 w' : World) (e : exn) :
  django env = Some dj -> sass env = Some compile ->
  journals_all dj = inr (pre ++ j :: post) ->
  for_each pre (journal_body env dir paths)
    (said w (fs w) [] [c_process_journals; c_journals_all]) = Ok tt w1 ->
  journal_body env dir paths j w1 = Raise e w' ->
  process_journals env dir paths w = Raise e w'.
Proof.
  intros Hdj Hsass Hall Hpre Hj.
  rewrite (process_journals_unfold env dj compile dir paths Hdj Hsass).
  rewrite Hall. cbn [external]. rewrite for_each_app, Hpre.
  cbn [for_each]. unfold bind. now rewrite Hj.
Qed.

Lemma journal_body_compile_error (env : Env)
    (compile : node -> string -> list string -> string + string)
    (dir : path) (paths : list path) (j : Journal) (w : World)
    (p : path) (rest : list path) (what : string) :
  sass env = Some compile ->
  scss_files (fs w) j = p :: rest ->
  compile (fs w) (str env p) (map (str env) paths) = inl what ->
  exists w', journal_body env dir paths j w = Raise (ExternalError what) w' /\
             fs w' = fs w.
Proof.
  intros Hsass Hfiles Hc. unfold journal_body, scss_files in *.
  fold (journal_dir j).
  unfold bind at 1, exists_ at 1, path_exists.
  destruct (lookup (journal_dir j) (fs w)) as [[d|es]|] eqn:L;
    try discriminate.
  cbn [is_some]. unfold bind at 1. unfold bind at 1, fs_read at 1, iterdir.
  apply resolve_lookup in L. rewrite L. unfold ret at 1.
  rewrite Hfiles. unfold bind at 1, print at 1.
  unfold bind at 1, sass_compile. rewrite Hsass.
  unfold bind, trace, fs_read. cbn [fs out calls]. rewrite Hc.
  cbn [external]. eexists. split; reflexivity.
Qed.



